(** * The Christmas twinkle light sketch: per-pixel animation

    A shallow embedding of [NeoPixel-Christmas-Twinkle-Light]: the
    [ChristmasPixel] class with its state machine, the colour composition of
    [GetColor], and the arithmetic they run on (unsigned wrap-around, [int]
    products, single-precision floats), followed by the properties proved of
    them. *)

From Stdlib Require Import ZArith Reals Lra Lia Psatz Bool List.
From Stdlib Require Import SpecFloat.
Import ListNotations.
Open Scope Z_scope.

(** * Machine arithmetic of the sketch *)

(** Unsigned types wrap modulo their width: [uint8_t], [uint16_t], and the
    32-bit [unsigned long] that [millis()] returns. *)
Definition to_uint8 (z : Z) : Z := z mod 2 ^ 8.
Definition to_uint16 (z : Z) : Z := z mod 2 ^ 16.
Definition to_ulong (z : Z) : Z := z mod 2 ^ 32.

(** The sketch is built for AVR boards (where [int] has 16 bits) and, through
    its [#ifdef __AVR__], for the 32-bit boards of the Arduino family. *)
Inductive target : Set := AVR | ARM32.

Definition INT_MAX (t : target) : Z :=
  match t with AVR => 32767 | ARM32 => 2147483647 end.
Definition INT_MIN (t : target) : Z := - INT_MAX t - 1.

(** What C++ leaves undefined is an error of the model, never a value. *)
Inductive undefined : Set :=
  | SignedOverflow      (* an [int] result outside [INT_MIN, INT_MAX] *)
  | FloatOutOfRange     (* float to [uint8_t] of a value outside 0..255 *)
  | NoReturnValue.      (* control leaves [GetColor] without a [return] *)

Inductive result (A : Type) : Type :=
  | Ok (a : A)
  | UB (u : undefined).
Arguments Ok {A} a.
Arguments UB {A} u.

Definition rbind {A B} (r : result A) (k : A -> result B) : result B :=
  match r with Ok a => k a | UB u => UB u end.

Definition in_int (t : target) (z : Z) : result Z :=
  if (INT_MIN t <=? z) && (z <=? INT_MAX t) then Ok z else UB SignedOverflow.
Definition int_mul (t : target) (a b : Z) : result Z := in_int t (a * b).
Definition int_add (t : target) (a b : Z) : result Z := in_int t (a + b).
Definition int_div (t : target) (a b : Z) : result Z := in_int t (Z.quot a b).

(** * Single-precision floats

    [float] is IEEE binary32 on every Arduino target; its operations are the
    standard library's executable specification at 24 bits of precision. *)
Definition f32 : Set := spec_float.
Definition f32_of_Z (z : Z) : f32 := binary_normalize 24 128 z 0 false.
Definition f32_div : f32 -> f32 -> f32 := SFdiv 24 128.
Definition f32_mul : f32 -> f32 -> f32 := SFmul 24 128.
Definition f32_sub : f32 -> f32 -> f32 := SFsub 24 128.
Definition f32_gt (a b : f32) : bool := SFltb b a.
Definition f32_one : f32 := S754_finite false 8388608 (-23).

(** Conversion to an integer truncates toward zero. *)
Definition f32_trunc (f : f32) : option Z :=
  match f with
  | S754_zero _ => Some 0
  | S754_finite s m e => Some (cond_Zopp s (Z.shiftl (Zpos m) e))
  | S754_infinity _ | S754_nan => None
  end.

(** [uint8_t x = f;] is defined when the truncated value fits the type. *)
Definition f32_to_uint8 (f : f32) : result Z :=
  match f32_trunc f with
  | Some z => if (0 <=? z) && (z <=? 255) then Ok z else UB FloatOutOfRange
  | None => UB FloatOutOfRange
  end.

(** * The environment: clock and random generator *)

(** [clock] gives the board's uptime in milliseconds at each successive
    reading, [ticks] counts the readings made so far, [seed] is the state of
    the C library's generator, and [rolls] logs the bound of every
    [random(bound)] call. *)
Record World : Type := {
  clock : nat -> Z;
  ticks : nat;
  seed : Z;
  rolls : list Z
}.

Definition M (A : Type) : Type := World -> result (A * World).

Definition ret {A} (a : A) : M A := fun w => Ok (a, w).
Definition bind {A B} (m : M A) (k : A -> M B) : M B :=
  fun w => match m w with Ok (a, w') => k a w' | UB u => UB u end.
Definition lift {A} (r : result A) : M A :=
  fun w => match r with Ok a => Ok (a, w) | UB u => UB u end.

Declare Scope sketch_scope.
Delimit Scope sketch_scope with sketch.
Notation "x <- m ;; k" := (bind m (fun x => k))
  (at level 61, m at next level, right associativity) : sketch_scope.
Notation "m ;;; k" := (bind m (fun _ => k))
  (at level 61, right associativity) : sketch_scope.
Open Scope sketch_scope.

(** [millis()]: the uptime, wrapped to 32 bits. *)
Definition millis : M Z :=
  fun w => Ok (to_ulong (clock w (ticks w)),
               {| clock := clock w; ticks := S (ticks w);
                  seed := seed w; rolls := rolls w |}).

(** [randomSeed(s)]: Arduino reseeds only for a non-zero argument. *)
Definition randomSeed (s : Z) : M unit :=
  fun w => Ok (tt, if s =? 0 then w else
               {| clock := clock w; ticks := ticks w;
                  seed := s; rolls := rolls w |}).

(** An [unsigned long] read into a [long]: values from 2^31 on wrap to the
    negative numbers (two's complement, 32 bits). *)
Definition to_long (z : Z) : Z := (z + 2 ^ 31) mod 2 ^ 32 - 2 ^ 31.

(** The generator of avr-libc, as an instance of the C library's
    [random()]: Park and Miller's minimal standard generator. Its [do_random]
    reads the state into a [long], works in [long], stores the result back
    as [unsigned long] and returns it modulo [RANDOM_MAX + 1]. *)
Definition RANDOM_MAX : Z := 2147483647.
Definition park_miller (ctx : Z) : N * Z :=
  let x := to_long ctx in
  let x := if x =? 0 then 123459876 else x in
  let hi := Z.quot x 127773 in
  let lo := Z.rem x 127773 in
  let x := 16807 * lo - 2836 * hi in
  let x := if x <? 0 then x + RANDOM_MAX else x in
  (Z.to_N (to_ulong x mod (RANDOM_MAX + 1)), to_ulong x).

(** * Configuration constants of the sketch *)
Definition PIXEL_COUNT : Z := 60.
Definition BLINK_PROBABILITY : Z := 0.
Definition BLINK_SPEED_FACTOR_PROBABILITY : Z := 4.
Definition BLINK_SPEED_FACTOR_MULTIPLIER_IN_MILLISECONDS : Z := 100.
Definition BLINK_SPEED_MINIMUM_IN_MILLISECONDS : Z := 70.
Definition BLINK_ZERO_BRIGHTNESS_DELAY_PROBABILITY_IN_MILLISECONDS : Z := 5000.
Definition BLINK_ZERO_BRIGHTNESS_DELAY_MINIMUM_IN_MILLISECONDS : Z := 500.
Definition BLINK_FULL_BRIGHTNESS_DELAY_PROBABILITY_IN_MILLISECONDS : Z := 15000.
Definition BLINK_FULL_BRIGHTNESS_DELAY_MINIMUM_IN_MILLISECONDS : Z := 500.
Definition MAIN_LOOP_DELAY_COUNT : Z := 255.

(** [enum hue], kept as the integer the field stores. *)
Definition red : Z := 0.
Definition green : Z := 1.
Definition blue : Z := 2.
Definition yellow : Z := 3.
Definition purple : Z := 4.
Definition orange : Z := 5.

Inductive direction : Set := up | down.

Record ChristmasPixel : Type := {
  _hue : Z;
  _direction : direction;
  _brightness : Z;
  _shouldBlink : bool;
  _setTime : Z;
  _timeZeroBrightnessWasEncountered : Z;
  _timeFullBrightnessWasEncountered : Z;
  _blinkSpeedFactor : Z;
  _zeroBrightnessDelayInMilliseconds : Z;
  _fullBrightnessDelayInMilliseconds : Z;
  Id : Z
}.

Definition set_hue (v : Z) (p : ChristmasPixel) : ChristmasPixel :=
  {| _hue := v; _direction := _direction p; _brightness := _brightness p;
     _shouldBlink := _shouldBlink p; _setTime := _setTime p;
     _timeZeroBrightnessWasEncountered := _timeZeroBrightnessWasEncountered p;
     _timeFullBrightnessWasEncountered := _timeFullBrightnessWasEncountered p;
     _blinkSpeedFactor := _blinkSpeedFactor p;
     _zeroBrightnessDelayInMilliseconds := _zeroBrightnessDelayInMilliseconds p;
     _fullBrightnessDelayInMilliseconds := _fullBrightnessDelayInMilliseconds p;
     Id := Id p |}.

Definition set_direction (v : direction) (p : ChristmasPixel) : ChristmasPixel :=
  {| _hue := _hue p; _direction := v; _brightness := _brightness p;
     _shouldBlink := _shouldBlink p; _setTime := _setTime p;
     _timeZeroBrightnessWasEncountered := _timeZeroBrightnessWasEncountered p;
     _timeFullBrightnessWasEncountered := _timeFullBrightnessWasEncountered p;
     _blinkSpeedFactor := _blinkSpeedFactor p;
     _zeroBrightnessDelayInMilliseconds := _zeroBrightnessDelayInMilliseconds p;
     _fullBrightnessDelayInMilliseconds := _fullBrightnessDelayInMilliseconds p;
     Id := Id p |}.

Definition set_brightness (v : Z) (p : ChristmasPixel) : ChristmasPixel :=
  {| _hue := _hue p; _direction := _direction p; _brightness := v;
     _shouldBlink := _shouldBlink p; _setTime := _setTime p;
     _timeZeroBrightnessWasEncountered := _timeZeroBrightnessWasEncountered p;
     _timeFullBrightnessWasEncountered := _timeFullBrightnessWasEncountered p;
     _blinkSpeedFactor := _blinkSpeedFactor p;
     _zeroBrightnessDelayInMilliseconds := _zeroBrightnessDelayInMilliseconds p;
     _fullBrightnessDelayInMilliseconds := _fullBrightnessDelayInMilliseconds p;
     Id := Id p |}.

Definition set_shouldBlink (v : bool) (p : ChristmasPixel) : ChristmasPixel :=
  {| _hue := _hue p; _direction := _direction p; _brightness := _brightness p;
     _shouldBlink := v; _setTime := _setTime p;
     _timeZeroBrightnessWasEncountered := _timeZeroBrightnessWasEncountered p;
     _timeFullBrightnessWasEncountered := _timeFullBrightnessWasEncountered p;
     _blinkSpeedFactor := _blinkSpeedFactor p;
     _zeroBrightnessDelayInMilliseconds := _zeroBrightnessDelayInMilliseconds p;
     _fullBrightnessDelayInMilliseconds := _fullBrightnessDelayInMilliseconds p;
     Id := Id p |}.

Definition set_setTime (v : Z) (p : ChristmasPixel) : ChristmasPixel :=
  {| _hue := _hue p; _direction := _direction p; _brightness := _brightness p;
     _shouldBlink := _shouldBlink p; _setTime := v;
     _timeZeroBrightnessWasEncountered := _timeZeroBrightnessWasEncountered p;
     _timeFullBrightnessWasEncountered := _timeFullBrightnessWasEncountered p;
     _blinkSpeedFactor := _blinkSpeedFactor p;
     _zeroBrightnessDelayInMilliseconds := _zeroBrightnessDelayInMilliseconds p;
     _fullBrightnessDelayInMilliseconds := _fullBrightnessDelayInMilliseconds p;
     Id := Id p |}.

Definition set_timeZero (v : Z) (p : ChristmasPixel) : ChristmasPixel :=
  {| _hue := _hue p; _direction := _direction p; _brightness := _brightness p;
     _shouldBlink := _shouldBlink p; _setTime := _setTime p;
     _timeZeroBrightnessWasEncountered := v;
     _timeFullBrightnessWasEncountered := _timeFullBrightnessWasEncountered p;
     _blinkSpeedFactor := _blinkSpeedFactor p;
     _zeroBrightnessDelayInMilliseconds := _zeroBrightnessDelayInMilliseconds p;
     _fullBrightnessDelayInMilliseconds := _fullBrightnessDelayInMilliseconds p;
     Id := Id p |}.

Definition set_timeFull (v : Z) (p : ChristmasPixel) : ChristmasPixel :=
  {| _hue := _hue p; _direction := _direction p; _brightness := _brightness p;
     _shouldBlink := _shouldBlink p; _setTime := _setTime p;
     _timeZeroBrightnessWasEncountered := _timeZeroBrightnessWasEncountered p;
     _timeFullBrightnessWasEncountered := v;
     _blinkSpeedFactor := _blinkSpeedFactor p;
     _zeroBrightnessDelayInMilliseconds := _zeroBrightnessDelayInMilliseconds p;
     _fullBrightnessDelayInMilliseconds := _fullBrightnessDelayInMilliseconds p;
     Id := Id p |}.

Definition set_blinkSpeedFactor (v : Z) (p : ChristmasPixel) : ChristmasPixel :=
  {| _hue := _hue p; _direction := _direction p; _brightness := _brightness p;
     _shouldBlink := _shouldBlink p; _setTime := _setTime p;
     _timeZeroBrightnessWasEncountered := _timeZeroBrightnessWasEncountered p;
     _timeFullBrightnessWasEncountered := _timeFullBrightnessWasEncountered p;
     _blinkSpeedFactor := v;
     _zeroBrightnessDelayInMilliseconds := _zeroBrightnessDelayInMilliseconds p;
     _fullBrightnessDelayInMilliseconds := _fullBrightnessDelayInMilliseconds p;
     Id := Id p |}.

Definition set_zeroDelay (v : Z) (p : ChristmasPixel) : ChristmasPixel :=
  {| _hue := _hue p; _direction := _direction p; _brightness := _brightness p;
     _shouldBlink := _shouldBlink p; _setTime := _setTime p;
     _timeZeroBrightnessWasEncountered := _timeZeroBrightnessWasEncountered p;
     _timeFullBrightnessWasEncountered := _timeFullBrightnessWasEncountered p;
     _blinkSpeedFactor := _blinkSpeedFactor p;
     _zeroBrightnessDelayInMilliseconds := v;
     _fullBrightnessDelayInMilliseconds := _fullBrightnessDelayInMilliseconds p;
     Id := Id p |}.

Definition set_fullDelay (v : Z) (p : ChristmasPixel) : ChristmasPixel :=
  {| _hue := _hue p; _direction := _direction p; _brightness := _brightness p;
     _shouldBlink := _shouldBlink p; _setTime := _setTime p;
     _timeZeroBrightnessWasEncountered := _timeZeroBrightnessWasEncountered p;
     _timeFullBrightnessWasEncountered := _timeFullBrightnessWasEncountered p;
     _blinkSpeedFactor := _blinkSpeedFactor p;
     _zeroBrightnessDelayInMilliseconds := _zeroBrightnessDelayInMilliseconds p;
     _fullBrightnessDelayInMilliseconds := v;
     Id := Id p |}.

Definition set_Id (v : Z) (p : ChristmasPixel) : ChristmasPixel :=
  {| _hue := _hue p; _direction := _direction p; _brightness := _brightness p;
     _shouldBlink := _shouldBlink p; _setTime := _setTime p;
     _timeZeroBrightnessWasEncountered := _timeZeroBrightnessWasEncountered p;
     _timeFullBrightnessWasEncountered := _timeFullBrightnessWasEncountered p;
     _blinkSpeedFactor := _blinkSpeedFactor p;
     _zeroBrightnessDelayInMilliseconds := _zeroBrightnessDelayInMilliseconds p;
     _fullBrightnessDelayInMilliseconds := _fullBrightnessDelayInMilliseconds p;
     Id := v |}.

(** An object of static storage duration is zero-initialised before its
    constructor runs: hue [red], direction [up] (the first enumerator). *)
Definition static_storage : ChristmasPixel :=
  {| _hue := 0; _direction := up; _brightness := 0; _shouldBlink := false;
     _setTime := 0; _timeZeroBrightnessWasEncountered := 0;
     _timeFullBrightnessWasEncountered := 0; _blinkSpeedFactor := 0;
     _zeroBrightnessDelayInMilliseconds := 0;
     _fullBrightnessDelayInMilliseconds := 0; Id := 0 |}.

(** [Adafruit_NeoPixel::Color(r, g, b)] of the driver library: the three
    [uint8_t] arguments packed as 0x00RRGGBB. *)
Definition Color (r g b : Z) : Z :=
  Z.lor (Z.lor (Z.shiftl (to_uint8 r) 16) (Z.shiftl (to_uint8 g) 8)) (to_uint8 b).

(** The ramp computations of [_CalculateBlinkAnimationParameters]. *)
Definition elapsedTimePercent (millisecondsSinceSet blinkSpeed : Z) : f32 :=
  let r := f32_div (f32_of_Z millisecondsSinceSet) (f32_of_Z blinkSpeed) in
  if f32_gt r f32_one then f32_one else r.

Definition dimmed (millisecondsSinceSet blinkSpeed : Z) : f32 :=
  f32_sub (f32_of_Z 255)
          (f32_mul (elapsedTimePercent millisecondsSinceSet blinkSpeed) (f32_of_Z 255)).

Definition brightened (millisecondsSinceSet blinkSpeed : Z) : f32 :=
  f32_mul (elapsedTimePercent millisecondsSinceSet blinkSpeed) (f32_of_Z 255).

Section Sketch.

Variable tgt : target.
(** The C library's [random()]: from the generator's state to a value (never
    negative) and the next state. *)
Variable libc_random : Z -> N * Z.

(** Arduino's [random(howbig)]. *)
Definition random (howbig : Z) : M Z :=
  fun w =>
    if howbig =? 0 then
      Ok (0, {| clock := clock w; ticks := ticks w; seed := seed w;
                rolls := rolls w ++ [howbig] |})
    else
      let (v, s) := libc_random (seed w) in
      Ok (Z.rem (Z.of_N v) howbig,
          {| clock := clock w; ticks := ticks w; seed := s;
             rolls := rolls w ++ [howbig] |}).

Definition ChristmasPixel_ctor (this : ChristmasPixel) : M ChristmasPixel :=
  t <- millis ;;
  ret (set_direction down (set_brightness 255 (set_setTime t this))).

Definition RandomizeColor (this : ChristmasPixel) : M ChristmasPixel :=
  systemUptime <- millis ;;
  randomSeed systemUptime ;;;
  r <- random 6 ;;
  ret (set_hue r this).

Definition RandomizeSpeedFactor (this : ChristmasPixel) : M ChristmasPixel :=
  systemUptime <- millis ;;
  randomSeed systemUptime ;;;
  r <- random BLINK_SPEED_FACTOR_PROBABILITY ;;
  ret (set_blinkSpeedFactor (to_uint8 r) this).

Definition RandomizeBlinkability (this : ChristmasPixel) : M ChristmasPixel :=
  systemUptime <- millis ;;
  randomSeed systemUptime ;;;
  r <- random BLINK_PROBABILITY ;;
  ret (set_shouldBlink (r =? 0) this).

Definition RandomizeZeroBrightnessDelay (this : ChristmasPixel) : M ChristmasPixel :=
  systemUptime <- millis ;;
  randomSeed systemUptime ;;;
  r <- random BLINK_ZERO_BRIGHTNESS_DELAY_PROBABILITY_IN_MILLISECONDS ;;
  ret (set_zeroDelay
         (to_uint16 (r + BLINK_ZERO_BRIGHTNESS_DELAY_MINIMUM_IN_MILLISECONDS)) this).

Definition RandomizeFullBrightnessDelay (this : ChristmasPixel) : M ChristmasPixel :=
  systemUptime <- millis ;;
  randomSeed systemUptime ;;;
  r <- random BLINK_FULL_BRIGHTNESS_DELAY_PROBABILITY_IN_MILLISECONDS ;;
  ret (set_fullDelay
         (to_uint16 (r + BLINK_FULL_BRIGHTNESS_DELAY_MINIMUM_IN_MILLISECONDS)) this).

Definition _CalculateBlinkSpeed (this : ChristmasPixel) : result Z :=
  rbind (int_mul tgt (_blinkSpeedFactor this)
                 BLINK_SPEED_FACTOR_MULTIPLIER_IN_MILLISECONDS) (fun x =>
  rbind (int_add tgt x BLINK_SPEED_MINIMUM_IN_MILLISECONDS) (fun response =>
  Ok (to_uint16 response))).

Definition _CalculateBlinkAnimationParameters (this : ChristmasPixel)
  : M ChristmasPixel :=
  if _shouldBlink this then
    match _direction this with
    | down =>
      if _brightness this =? 0 then
        now <- millis ;;
        let millisecondsSinceZeroBrightness :=
          to_ulong (now - _timeZeroBrightnessWasEncountered this) in
        if millisecondsSinceZeroBrightness >? _zeroBrightnessDelayInMilliseconds this
        then
          let this := set_direction up this in
          this <- RandomizeColor this ;;
          this <- RandomizeSpeedFactor this ;;
          this <- RandomizeZeroBrightnessDelay this ;;
          this <- RandomizeFullBrightnessDelay this ;;
          now <- millis ;;
          ret (set_setTime now this)
        else ret this
      else
        blinkSpeed <- lift (_CalculateBlinkSpeed this) ;;
        now <- millis ;;
        let millisecondsSinceSet := to_ulong (now - _setTime this) in
        b <- lift (f32_to_uint8 (dimmed millisecondsSinceSet blinkSpeed)) ;;
        let this := set_brightness b this in
        let this := if _brightness this <? 0 then set_brightness 0 this else this in
        if _brightness this =? 0 then
          now <- millis ;;
          ret (set_timeZero now this)
        else ret this
    | up =>
      if _brightness this =? 255 then
        now <- millis ;;
        let millisecondsSinceFullBrightness :=
          to_ulong (now - _timeFullBrightnessWasEncountered this) in
        if millisecondsSinceFullBrightness >? _fullBrightnessDelayInMilliseconds this
        then
          let this := set_direction down this in
          let this := set_brightness 255 this in
          now <- millis ;;
          ret (set_setTime now this)
        else ret this
      else
        blinkSpeed <- lift (_CalculateBlinkSpeed this) ;;
        now <- millis ;;
        let millisecondsSinceSet := to_ulong (now - _setTime this) in
        b <- lift (f32_to_uint8 (brightened millisecondsSinceSet blinkSpeed)) ;;
        let this := set_brightness b this in
        let this := if _brightness this >? 255 then set_brightness 255 this else this in
        if _brightness this =? 255 then
          now <- millis ;;
          ret (set_timeFull now this)
        else ret this
    end
  else ret this.

(** One colour channel: [brightness * weight / 255] in [int]. *)
Definition channel (brightness weight : Z) : result Z :=
  rbind (int_mul tgt brightness weight) (fun x => int_div tgt x 255).

(** The [switch] of [GetColor]: a hue outside the six cases leaves the
    function without a [return]. *)
Definition hueColor (h brightness : Z) : result Z :=
  if h =? red then
    rbind (channel brightness 255) (fun r => Ok (Color r 0 0))
  else if h =? green then
    rbind (channel brightness 255) (fun g => Ok (Color 0 g 0))
  else if h =? blue then
    rbind (channel brightness 255) (fun b => Ok (Color 0 0 b))
  else if h =? yellow then
    rbind (channel brightness 255) (fun r =>
    rbind (channel brightness 100) (fun g => Ok (Color r g 0)))
  else if h =? purple then
    rbind (channel brightness 200) (fun r =>
    rbind (channel brightness 200) (fun b => Ok (Color r 0 b)))
  else if h =? orange then
    rbind (channel brightness 255) (fun r =>
    rbind (channel brightness 30) (fun g => Ok (Color r g 0)))
  else UB NoReturnValue.

Definition GetColor (this : ChristmasPixel) : M (Z * ChristmasPixel) :=
  this <- _CalculateBlinkAnimationParameters this ;;
  c <- lift (hueColor (_hue this) (_brightness this)) ;;
  ret (c, this).

End Sketch.

(** Every field holds a value of its C type. *)
Definition wf (p : ChristmasPixel) : Prop :=
  0 <= _brightness p <= 255 /\
  0 <= _blinkSpeedFactor p <= 255 /\
  0 <= _zeroBrightnessDelayInMilliseconds p < 2 ^ 16 /\
  0 <= _fullBrightnessDelayInMilliseconds p < 2 ^ 16 /\
  0 <= _setTime p < 2 ^ 32 /\
  0 <= _timeZeroBrightnessWasEncountered p < 2 ^ 32 /\
  0 <= _timeFullBrightnessWasEncountered p < 2 ^ 32.

(** The hue is one of the six enumerators. *)
Definition valid_hue (p : ChristmasPixel) : Prop := 0 <= _hue p <= 5.

(** The world after [n] more clock readings. *)
Definition advance (n : nat) (w : World) : World :=
  {| clock := clock w; ticks := (n + ticks w)%nat; seed := seed w; rolls := rolls w |}.

(** The [i]-th value [millis()] returns from world [w] on. *)
Definition reading (w : World) (i : nat) : Z := to_ulong (clock w (i + ticks w)%nat).

(** The ramp length [_CalculateBlinkSpeed] yields for a speed factor. *)
Definition blinkSpeedOf (p : ChristmasPixel) : Z :=
  _blinkSpeedFactor p * BLINK_SPEED_FACTOR_MULTIPLIER_IN_MILLISECONDS
  + BLINK_SPEED_MINIMUM_IN_MILLISECONDS.

(** The specification's ramps, over the reals. *)
Definition spec_dimming (elapsed rampDurationMs : Z) : R :=
  (255 * (1 - Rmin (IZR elapsed / IZR rampDurationMs) 1))%R.
Definition spec_brightening (elapsed rampDurationMs : Z) : R :=
  (255 * Rmin (IZR elapsed / IZR rampDurationMs) 1)%R.

(** A parameter drawn with [random(bound)] between two worlds. *)
Definition rerolled (w w' : World) (bound : Z) : Prop :=
  exists l, rolls w' = rolls w ++ l /\ In bound l.

Section Runs.
Variable tgt : target.
Variable libc_random : Z -> N * Z.

(** Successive [GetColor] calls on one pixel, each in the world the
    environment presents at that call. *)
Fixpoint GetColor_seq (ws : list World) (p : ChristmasPixel)
  : result (list Z * ChristmasPixel) :=
  match ws with
  | [] => Ok ([], p)
  | w :: ws' =>
    match GetColor tgt libc_random p w with
    | Ok ((c, p'), _) =>
      match GetColor_seq ws' p' with
      | Ok (cs, p'') => Ok (c :: cs, p'')
      | UB u => UB u
      end
    | UB u => UB u
    end
  end.
End Runs.

(** The channel weights of each hue in [GetColor]'s switch. *)
Definition hue_weights (h : Z) : Z * Z * Z :=
  if h =? red then (255, 0, 0)
  else if h =? green then (0, 255, 0)
  else if h =? blue then (0, 0, 255)
  else if h =? yellow then (255, 100, 0)
  else if h =? purple then (200, 0, 200)
  else (255, 30, 0).

(** A world whose clock stands at [t] during the call. *)
Definition frozen (t : Z) (w : World) : Prop := forall n, clock w n = t.

Definition world_at (t : Z) : World :=
  {| clock := fun _ => t; ticks := 0; seed := 1; rolls := [] |}.

(** A blinking pixel with given hue, phase, brightness, speed factor, phase
    start and zero-brightness stamp, and no dwell. *)
Definition blinker (h : Z) (d : direction) (b f st tz : Z) : ChristmasPixel :=
  {| _hue := h; _direction := d; _brightness := b; _shouldBlink := true;
     _setTime := st; _timeZeroBrightnessWasEncountered := tz;
     _timeFullBrightnessWasEncountered := 0; _blinkSpeedFactor := f;
     _zeroBrightnessDelayInMilliseconds := 0;
     _fullBrightnessDelayInMilliseconds := 0; Id := 0 |}.

(** The state of the generator at the draw of a [Randomize...] method: the
    method reads the clock and calls [randomSeed] with the reading [t], which
    replaces the state [s] unless [t] is 0. *)
Definition seed_in_force (t s : Z) : Z := if t =? 0 then s else t.

(** What one [Randomize...] method does to the world: one clock reading, one
    draw, logged with its bound. *)
Definition one_draw (bound : Z) (w w' : World) : Prop :=
  clock w' = clock w /\ ticks w' = S (ticks w) /\ rolls w' = rolls w ++ [bound].

(** * The strip and the sketch's globals *)

(** Modelled from the spec: the strip driver is not part of the sketch; of
    [Adafruit_NeoPixel] the model keeps the contract the sketch relies on, a
    buffer of packed colours that [setPixelColor] writes at an index within
    the strip and ignores elsewhere, and that [show] sends to the LEDs. *)
Record Strip : Type := {
  buffer : list Z;
  lit : list Z
}.

Fixpoint set_nth (n : nat) (c : Z) (l : list Z) : list Z :=
  match l, n with
  | [], _ => []
  | _ :: l', O => c :: l'
  | x :: l', S n' => x :: set_nth n' c l'
  end.

Definition setPixelColor (n c : Z) (s : Strip) : Strip :=
  if (0 <=? n) && (n <? Z.of_nat (length (buffer s))) then
    {| buffer := set_nth (Z.to_nat n) c (buffer s); lit := lit s |}
  else s.

Definition strip_show (s : Strip) : Strip :=
  {| buffer := buffer s; lit := buffer s |}.

Definition strip_begin (s : Strip) : Strip := s.

(** [delay(ms)] blocks; the time that passes shows in the clock readings
    that follow, which belong to the environment. *)
Definition delay (ms : Z) : M unit := ret tt.

(** The globals: [strip], [loopCount] and the array [pixels]. *)
Record Globals : Type := {
  strip : Strip;
  loopCount : Z;
  pixels : list ChristmasPixel
}.

Section Program.
Variable tgt : target.
Variable libc_random : Z -> N * Z.

(** Static initialisation: each element of [pixels] is zero-initialised and
    then constructed; [loopCount] is 0 and the strip is dark. *)
Fixpoint construct_pixels (n : nat) : M (list ChristmasPixel) :=
  match n with
  | O => ret []
  | S n' =>
    p <- ChristmasPixel_ctor static_storage ;;
    ps <- construct_pixels n' ;;
    ret (p :: ps)
  end.

Definition static_init : M Globals :=
  ps <- construct_pixels (Z.to_nat PIXEL_COUNT) ;;
  ret {| strip := {| buffer := repeat 0 (Z.to_nat PIXEL_COUNT);
                     lit := repeat 0 (Z.to_nat PIXEL_COUNT) |};
         loopCount := 0;
         pixels := ps |}.

(** The body of [setup]'s loop over [pixels], from index [i] on. *)
Fixpoint setup_pixels (i : Z) (ps : list ChristmasPixel) : M (list ChristmasPixel) :=
  match ps with
  | [] => ret []
  | p :: ps' =>
    let p := set_Id (to_uint8 i) p in
    p <- RandomizeColor libc_random p ;;
    p <- RandomizeSpeedFactor libc_random p ;;
    p <- RandomizeBlinkability libc_random p ;;
    p <- RandomizeZeroBrightnessDelay libc_random p ;;
    p <- RandomizeFullBrightnessDelay libc_random p ;;
    delay 1 ;;;
    ps'' <- setup_pixels (i + 1) ps' ;;
    ret (p :: ps'')
  end.

Definition setup (g : Globals) : M Globals :=
  let s := strip_begin (strip g) in
  ps <- setup_pixels 0 (pixels g) ;;
  ret {| strip := strip_show s; loopCount := loopCount g; pixels := ps |}.

(** The body of [loop]'s loop over [pixels], from index [i] on. *)
Fixpoint frame (i : Z) (ps : list ChristmasPixel) (s : Strip)
  : M (list ChristmasPixel * Strip) :=
  match ps with
  | [] => ret ([], s)
  | p :: ps' =>
    cp <- GetColor tgt libc_random p ;;
    let s := setPixelColor i (fst cp) s in
    r <- frame (i + 1) ps' s ;;
    ret (snd cp :: fst r, snd r)
  end.

Definition loop (g : Globals) : M Globals :=
  r <- frame 0 (pixels g) (strip g) ;;
  let s := strip_show (snd r) in
  if loopCount g <? MAIN_LOOP_DELAY_COUNT then
    ret {| strip := s; loopCount := to_uint8 (loopCount g + 1); pixels := fst r |}
  else
    delay 1 ;;;
    ret {| strip := s; loopCount := 0; pixels := fst r |}.

(** [n] iterations of [loop]. *)
Fixpoint loops (n : nat) (g : Globals) : M Globals :=
  match n with
  | O => ret g
  | S n' => g' <- loop g ;; loops n' g'
  end.

(** The world after one draw with a bound other than 0, reseeded from a
    clock reading other than 0. *)
Definition drawn (bound : Z) (w : World) : World :=
  {| clock := clock w; ticks := S (ticks w);
     seed := snd (libc_random (reading w 0));
     rolls := rolls w ++ [bound] |}.

End Program.


(** A pixel with every field within its type and a valid hue. *)
Definition good_pixel (p : ChristmasPixel) : Prop := wf p /\ valid_hue p.

(** What the frame loop relies on between two iterations. *)
Definition sketch_invariant (g : Globals) : Prop :=
  Forall good_pixel (pixels g) /\
  length (buffer (strip g)) = length (pixels g) /\
  0 <= loopCount g <= 255.

(** The colour [GetColor] returns for a pixel's hue and brightness. *)
Definition colour_of (tgt : target) (p : ChristmasPixel) : Z :=
  match hueColor tgt (_hue p) (_brightness p) with Ok c => c | UB _ => 0 end.

(** [q] is [p] as [setup] leaves it at index [i]: randomized, a blinker, its
    phase, brightness and stamps untouched. *)
Definition set_up (i : Z) (p q : ChristmasPixel) : Prop :=
  Id q = i /\ _shouldBlink q = true /\ valid_hue q /\
  0 <= _blinkSpeedFactor q <= 3 /\
  500 <= _zeroBrightnessDelayInMilliseconds q <= 5499 /\
  500 <= _fullBrightnessDelayInMilliseconds q <= 15499 /\
  _direction q = _direction p /\ _brightness q = _brightness p /\
  _setTime q = _setTime p /\
  _timeZeroBrightnessWasEncountered q = _timeZeroBrightnessWasEncountered p /\
  _timeFullBrightnessWasEncountered q = _timeFullBrightnessWasEncountered p.

(** [set_up] along two arrays, from index [i] on. *)
Fixpoint all_set_up (i : Z) (ps qs : list ChristmasPixel) : Prop :=
  match ps, qs with
  | [], [] => True
  | p :: ps', q :: qs' => set_up i p q /\ all_set_up (i + 1) ps' qs'
  | _, _ => False
  end.

(** A pixel as its constructor leaves it at static initialisation. *)
Definition constructed (p : ChristmasPixel) : Prop :=
  _direction p = down /\ _brightness p = 255 /\ _shouldBlink p = false /\
  _hue p = red /\ wf p.

(** A small instance of the globals: two pixels, [loopCount] at its maximum. *)
Definition two_pixels : Globals :=
  {| strip := {| buffer := [0; 0]; lit := [0; 0] |};
     loopCount := 255;
     pixels := [blinker red down 255 0 0 0; blinker green up 0 3 0 0] |}.

(** * Values of floats, for the proofs *)

Definition bpow (e : Z) : R := powerRZ 2 e.
Definition F2R (m e : Z) : R := (IZR m * bpow e)%R.

Definition inbetween (x : R) (m e : Z) (l : location) : Prop :=
  match l with
  | loc_Exact => x = F2R m e
  | loc_Inexact Lt => (F2R m e < x < (IZR m + /2) * bpow e)%R
  | loc_Inexact Eq => x = ((IZR m + /2) * bpow e)%R
  | loc_Inexact Gt => ((IZR m + /2) * bpow e < x < (IZR m + 1) * bpow e)%R
  end.

Definition rounded (x : R) (mz ez : Z) : Prop :=
  2 ^ 23 <= mz < 2 ^ 24 /\
  (x <= (IZR mz + /2) * bpow ez)%R /\
  ((IZR mz - /2) * bpow ez <= x)%R /\
  (mz = 2 ^ 23 -> ((IZR mz - /4) * bpow ez <= x)%R).

Definition SF2R (f : f32) : R :=
  match f with
  | S754_finite s m e => F2R (cond_Zopp s (Zpos m)) e
  | _ => 0%R
  end.

(** * Rounding to single precision *)


Lemma bpow_gt_0 e : (0 < bpow e)%R.
Proof. apply powerRZ_lt; lra. Qed.

Lemma bpow_plus a b : bpow (a + b) = (bpow a * bpow b)%R.
Proof. apply powerRZ_add; lra. Qed.

Lemma bpow_1 : bpow 1 = 2%R.
Proof. unfold bpow; simpl; lra. Qed.

Lemma bpow_succ e : bpow (e + 1) = (2 * bpow e)%R.
Proof. rewrite bpow_plus, bpow_1; lra. Qed.

Lemma bpow_IZR k : 0 <= k -> bpow k = IZR (2 ^ k).
Proof.
  intros Hk. destruct k as [|p|p]; try lia.
  - reflexivity.
  - unfold bpow. change (2 ^ Z.pos p) with (Z.pow_pos 2 p).
    now rewrite Zpower_pos_powerRZ.
Qed.

Lemma bpow_ge_1 k : 0 <= k -> (1 <= bpow k)%R.
Proof.
  intros Hk. rewrite bpow_IZR by assumption. apply IZR_le.
  assert (0 < 2 ^ k) by (apply Z.pow_pos_nonneg; lia). lia.
Qed.

Lemma bpow_le a b : a <= b -> (bpow a <= bpow b)%R.
Proof.
  intros H. replace b with (a + (b - a)) by lia. rewrite bpow_plus.
  pose proof (bpow_gt_0 a). pose proof (bpow_ge_1 (b - a) ltac:(lia)). nra.
Qed.

Lemma bpow_lt a b : a < b -> (bpow a < bpow b)%R.
Proof.
  intros H. replace b with (a + 1 + (b - a - 1)) by lia.
  rewrite bpow_plus, bpow_succ.
  pose proof (bpow_gt_0 a). pose proof (bpow_ge_1 (b - a - 1) ltac:(lia)). nra.
Qed.

Lemma digits2_pos_spec p :
  2 ^ (Zpos (digits2_pos p) - 1) <= Zpos p < 2 ^ Zpos (digits2_pos p).
Proof.
  induction p as [p IH|p IH|]; simpl digits2_pos.
  - rewrite Pos2Z.inj_succ.
    replace (Z.succ (Z.pos (digits2_pos p)) - 1) with (Z.succ (Z.pos (digits2_pos p) - 1)) by lia.
    rewrite !Z.pow_succ_r by lia. lia.
  - rewrite Pos2Z.inj_succ.
    replace (Z.succ (Z.pos (digits2_pos p)) - 1) with (Z.succ (Z.pos (digits2_pos p) - 1)) by lia.
    rewrite !Z.pow_succ_r by lia. lia.
  - simpl. lia.
Qed.

Lemma IZR_xO p : IZR (Zpos p~0) = (2 * IZR (Zpos p))%R.
Proof. rewrite Pos2Z.inj_xO, mult_IZR. reflexivity. Qed.
Lemma IZR_xI p : IZR (Zpos p~1) = (2 * IZR (Zpos p) + 1)%R.
Proof. rewrite Pos2Z.inj_xI, plus_IZR, mult_IZR. reflexivity. Qed.

Lemma shr_1_inbetween x mrs e :
  0 <= shr_m mrs ->
  inbetween x (shr_m mrs) e (loc_of_shr_record mrs) ->
  0 <= shr_m (shr_1 mrs) /\
  inbetween x (shr_m (shr_1 mrs)) (e + 1) (loc_of_shr_record (shr_1 mrs)).
Proof.
  destruct mrs as [m r s]; cbn [shr_m]. intros Hm.
  pose proof (bpow_gt_0 e) as He.
  destruct m as [|[p|p|]|p]; try lia;
    destruct r, s; cbn [shr_1 shr_m loc_of_shr_record orb];
    unfold inbetween, F2R; rewrite bpow_succ;
    try rewrite (IZR_xO p); try rewrite (IZR_xI p);
    generalize dependent (bpow e); intros B HB H; (split; [lia|]); lra.
Qed.

Lemma iter_shr_1_inbetween x p : forall mrs e,
  0 <= shr_m mrs ->
  inbetween x (shr_m mrs) e (loc_of_shr_record mrs) ->
  0 <= shr_m (iter_pos shr_1 p mrs) /\
  inbetween x (shr_m (iter_pos shr_1 p mrs)) (e + Zpos p)
            (loc_of_shr_record (iter_pos shr_1 p mrs)).
Proof.
  induction p as [p IH|p IH|]; intros mrs e Hm Hx; cbn [iter_pos].
  - destruct (shr_1_inbetween x mrs e Hm Hx) as [H1 H2].
    destruct (IH _ _ H1 H2) as [H3 H4].
    destruct (IH _ _ H3 H4) as [H5 H6].
    split; [assumption|].
    replace (e + Z.pos p~1) with (e + 1 + Z.pos p + Z.pos p) by lia. assumption.
  - destruct (IH _ _ Hm Hx) as [H3 H4].
    destruct (IH _ _ H3 H4) as [H5 H6].
    split; [assumption|].
    replace (e + Z.pos p~0) with (e + Z.pos p + Z.pos p) by lia. assumption.
  - apply shr_1_inbetween; assumption.
Qed.


Lemma inbetween_bounds x m e l :
  inbetween x m e l -> (F2R m e <= x < F2R (m + 1) e)%R.
Proof.
  unfold inbetween, F2R. rewrite plus_IZR.
  pose proof (bpow_gt_0 e). generalize dependent (bpow e); intros B HB.
  destruct l as [|[| |]]; intros; nra.
Qed.

Lemma shr_record_of_loc_m m l : shr_m (shr_record_of_loc m l) = m.
Proof. now destruct l as [|[| |]]. Qed.

Lemma loc_of_shr_record_of_loc m l :
  loc_of_shr_record (shr_record_of_loc m l) = l.
Proof. now destruct l as [|[| |]]. Qed.

Lemma digits2_pos_unique p n :
  2 ^ (n - 1) <= Zpos p < 2 ^ n -> Zpos (digits2_pos p) = n.
Proof.
  intros [H1 H2]. pose proof (digits2_pos_spec p) as [H3 H4].
  set (d := Zpos (digits2_pos p)) in *.
  assert (0 < n).
  { destruct (Z_lt_le_dec 0 n); [assumption|].
    rewrite (Z.pow_neg_r 2 (n-1)) in H1 by lia.
    destruct (Z.eq_dec n 0) as [->|]; [simpl in H2; lia|].
    rewrite (Z.pow_neg_r 2 n) in H2 by lia. lia. }
  destruct (Z.lt_trichotomy d n) as [Hlt|[Heq|Hgt]]; [|assumption|].
  - assert (2 ^ d <= 2 ^ (n - 1)) by (apply Z.pow_le_mono_r; lia). lia.
  - assert (2 ^ n <= 2 ^ (d - 1)) by (apply Z.pow_le_mono_r; lia). lia.
Qed.

Lemma fexp32_normal d : -125 <= d -> fexp 24 128 d = d - 24.
Proof. unfold fexp, emin. lia. Qed.

Lemma shr_fexp_inbetween x m e l :
  inbetween x m e l -> 2 ^ 23 <= m -> -149 <= e ->
  let e' := Zdigits2 m + e - 24 in
  exists mrs, shr_fexp 24 128 m e l = (mrs, e') /\
    2 ^ 23 <= shr_m mrs < 2 ^ 24 /\
    inbetween x (shr_m mrs) e' (loc_of_shr_record mrs).
Proof.
  intros Hx Hm He e'.
  destruct m as [|p|p]; try lia.
  pose proof (digits2_pos_spec p) as [Hd1 Hd2].
  assert (Hd : 24 <= Zdigits2 (Zpos p)).
  { cbn [Zdigits2]. destruct (Z_lt_le_dec (Zpos (digits2_pos p)) 24) as [Hlt|]; [|assumption].
    assert (2 ^ Zpos (digits2_pos p) <= 2 ^ 23) by (apply Z.pow_le_mono_r; lia). lia. }
  unfold shr_fexp. rewrite fexp32_normal by lia.
  assert (Hmrs : exists mrs, shr (shr_record_of_loc (Zpos p) l) e
                       (Zdigits2 (Zpos p) + e - 24 - e) = (mrs, e') /\
            0 <= shr_m mrs /\ inbetween x (shr_m mrs) e' (loc_of_shr_record mrs)).
  { unfold shr. remember (Zdigits2 (Zpos p) + e - 24 - e) as n eqn:Hn.
    destruct n as [|q|q]; try lia.
    - exists (shr_record_of_loc (Zpos p) l). split.
      + f_equal. unfold e'. lia.
      + rewrite shr_record_of_loc_m, loc_of_shr_record_of_loc.
        split; [lia|]. replace e' with e by (unfold e'; lia). assumption.
    - exists (iter_pos shr_1 q (shr_record_of_loc (Zpos p) l)). split.
      + f_equal. unfold e'. lia.
      + replace e' with (e + Zpos q) by (unfold e'; lia).
        apply iter_shr_1_inbetween.
        * rewrite shr_record_of_loc_m; lia.
        * rewrite shr_record_of_loc_m, loc_of_shr_record_of_loc. assumption. }
  destruct Hmrs as (mrs & Heq & Hnn & Hin). exists mrs.
  split; [assumption|]. split; [|assumption].
  apply inbetween_bounds in Hx, Hin. unfold F2R in *.
  set (d := Zdigits2 (Zpos p)) in *. cbn [Zdigits2] in d.
  assert (HB1 : bpow (d - 1 + e) = (IZR (2 ^ 23) * bpow e')%R).
  { rewrite <- bpow_IZR by lia. rewrite <- bpow_plus. f_equal. unfold e'. lia. }
  assert (HB2 : bpow (d + e) = (IZR (2 ^ 24) * bpow e')%R).
  { rewrite <- bpow_IZR by lia. rewrite <- bpow_plus. f_equal. unfold e'. lia. }
  rewrite bpow_plus in HB1, HB2. rewrite !bpow_IZR in HB1, HB2 by (unfold d; lia).
  assert (H1 : (IZR (2 ^ (d - 1)) <= IZR (Zpos p))%R) by (apply IZR_le; unfold d; lia).
  assert (H2 : (IZR (Zpos p + 1) <= IZR (2 ^ d))%R) by (apply IZR_le; unfold d; lia).
  pose proof (bpow_gt_0 e) as He0. pose proof (bpow_gt_0 e') as He'0.
  rewrite plus_IZR in *.
  split.
  - assert (IZR (2 ^ 23) < IZR (shr_m mrs) + 1)%R by nra.
    rewrite <- plus_IZR in H. apply lt_IZR in H. lia.
  - apply lt_IZR. nra.
Qed.

Lemma round_nearest_even_spec x m e l :
  inbetween x m e l ->
  let k := round_nearest_even m l in
  (k = m \/ k = m + 1) /\
  ((IZR k - /2) * bpow e <= x <= (IZR k + /2) * bpow e)%R /\
  (k = m -> (IZR k * bpow e <= x)%R).
Proof.
  intros Hx k. subst k. unfold inbetween, F2R in Hx.
  pose proof (bpow_gt_0 e). generalize dependent (bpow e); intros B Hx HB.
  destruct l as [|[| |]]; cbn [round_nearest_even].
  - split; [now left|]. split; [nra|]. intros _; nra.
  - destruct (Z.even m).
    + split; [now left|]. split; [nra|]. intros _; nra.
    + split; [now right|]. rewrite plus_IZR. split; [nra|]. intros; lia.
  - split; [now left|]. split; [nra|]. intros _; nra.
  - split; [now right|]. rewrite plus_IZR. split; [nra|]. intros; lia.
Qed.

Lemma Zdigits2_24 k : 2 ^ 23 <= k < 2 ^ 24 -> Zdigits2 k = 24.
Proof.
  intros H. destruct k as [|p|p]; try lia.
  cbn [Zdigits2]. apply digits2_pos_unique. assumption.
Qed.

Lemma shr_fexp_canonical k e :
  2 ^ 23 <= k < 2 ^ 24 -> -149 <= e ->
  shr_fexp 24 128 k e loc_Exact = (Build_shr_record k false false, e).
Proof.
  intros Hk He. unfold shr_fexp. rewrite (Zdigits2_24 k Hk).
  rewrite fexp32_normal by lia.
  replace (24 + e - 24 - e) with 0 by lia. reflexivity.
Qed.

Theorem binary_round_aux_spec sx x m e l :
  inbetween x m e l -> 2 ^ 23 <= m -> -149 <= e -> Zdigits2 m + e <= 127 ->
  exists mz ez,
    binary_round_aux 24 128 sx m e l = S754_finite sx mz ez /\
    rounded x (Zpos mz) ez /\
    Zdigits2 m + e - 24 <= ez <= Zdigits2 m + e - 23.
Proof.
  intros Hx Hm He Hov.
  destruct (shr_fexp_inbetween x m e l Hx Hm He) as (mrs & Heq & Hb & Hin).
  assert (Hd : 24 <= Zdigits2 m).
  { destruct m as [|p|p]; try lia. cbn [Zdigits2].
    pose proof (digits2_pos_spec p) as [_ Hd2].
    destruct (Z_lt_le_dec (Zpos (digits2_pos p)) 24) as [Hlt|]; [|assumption].
    assert (2 ^ Zpos (digits2_pos p) <= 2 ^ 23) by (apply Z.pow_le_mono_r; lia). lia. }
  set (e' := Zdigits2 m + e - 24) in *.
  unfold binary_round_aux. rewrite Heq.
  destruct (round_nearest_even_spec x _ _ _ Hin) as (Hk & Hkx & Hkm).
  set (k := round_nearest_even (shr_m mrs) (loc_of_shr_record mrs)) in *.
  pose proof (bpow_gt_0 e') as HB.
  destruct (Z.eq_dec k (2 ^ 24)) as [Hcarry|Hnc].
  - (* the mantissa rounded up to 2^24: one more shift *)
    rewrite Hcarry. unfold shr_fexp.
    change (Zdigits2 (2 ^ 24)) with 25. rewrite fexp32_normal by lia.
    replace (25 + e' - 24 - e') with 1 by lia.
    cbn [shr shr_record_of_loc iter_pos shr_1 shr_m]. cbv beta iota.
    change (shr_m (shr_1 {| shr_m := 2 ^ 24; shr_r := false; shr_s := false |}))
      with (Zpos (2 ^ 23)).
    cbv beta iota.
    replace (e' + 1 <=? 128 - 24) with true by (symmetry; apply Z.leb_le; lia).
    exists (2 ^ 23)%positive, (e' + 1). split; [reflexivity|]. split; [|lia].
    rewrite Hcarry in Hkx.
    unfold rounded. rewrite bpow_succ. change (Zpos (2 ^ 23)) with (2 ^ 23).
    change (IZR (2 ^ 23)) with 8388608%R. change (IZR (2 ^ 24)) with 16777216%R in Hkx.
    split; [lia|]. split; [nra|]. split; [nra|]. intros _. nra.
  - assert (Hkb : 2 ^ 23 <= k < 2 ^ 24) by lia.
    rewrite (shr_fexp_canonical k e' Hkb) by lia.
    cbn [shr_m]. destruct k as [|pk|pk]; try lia.
    replace (e' <=? 128 - 24) with true by (symmetry; apply Z.leb_le; lia).
    exists pk, e'. split; [reflexivity|]. split; [|lia].
    unfold rounded. split; [assumption|]. split; [nra|]. split; [nra|].
    intros Hk23. assert (Hkeq : Zpos pk = shr_m mrs) by lia.
    specialize (Hkm Hkeq). nra.
Qed.

Lemma bpow_double_le a b : a < b -> (2 * bpow a <= bpow b)%R.
Proof. intros H. rewrite <- bpow_succ. apply bpow_le. lia. Qed.

Lemma canon_IZR m : 2 ^ 23 <= m < 2 ^ 24 -> (8388608 <= IZR m <= 16777215)%R.
Proof.
  intros [H1 H2]. split.
  - apply (IZR_le 8388608). lia.
  - apply (IZR_le _ 16777215). lia.
Qed.

Lemma F2R_lt_same_exp m1 m2 e : (F2R m1 e < F2R m2 e)%R -> m1 < m2.
Proof.
  unfold F2R. intros H. pose proof (bpow_gt_0 e). apply lt_IZR. nra.
Qed.

Lemma grid_succ m1 e1 m2 e2 :
  2 ^ 23 <= m1 < 2 ^ 24 -> 2 ^ 23 <= m2 < 2 ^ 24 ->
  (F2R m1 e1 < F2R m2 e2)%R -> (F2R m1 e1 + bpow e1 <= F2R m2 e2)%R.
Proof.
  intros H1 H2 Hlt.
  pose proof (canon_IZR _ H1). pose proof (canon_IZR _ H2).
  pose proof (bpow_gt_0 e1). pose proof (bpow_gt_0 e2).
  destruct (Z.lt_trichotomy e1 e2) as [Hl|[He|Hg]].
  - pose proof (bpow_double_le _ _ Hl). unfold F2R in *. nra.
  - subst e2. apply F2R_lt_same_exp in Hlt.
    assert (IZR m1 + 1 <= IZR m2)%R by (rewrite <- plus_IZR; apply IZR_le; lia).
    unfold F2R. nra.
  - pose proof (bpow_double_le _ _ Hg). unfold F2R in *. nra.
Qed.

Lemma grid_pred m1 e1 m2 e2 :
  2 ^ 23 <= m1 < 2 ^ 24 -> 2 ^ 23 <= m2 < 2 ^ 24 ->
  (F2R m1 e1 < F2R m2 e2)%R ->
  (F2R m1 e1 <= F2R m2 e2 - bpow e2 / 2)%R /\
  (m2 <> 2 ^ 23 -> (F2R m1 e1 <= F2R m2 e2 - bpow e2)%R).
Proof.
  intros H1 H2 Hlt.
  pose proof (canon_IZR _ H1). pose proof (canon_IZR _ H2).
  pose proof (bpow_gt_0 e1). pose proof (bpow_gt_0 e2).
  destruct (Z.lt_trichotomy e1 e2) as [Hl|[He|Hg]].
  - pose proof (bpow_double_le _ _ Hl). unfold F2R in *. split.
    + nra.
    + intros Hne. assert (8388609 <= IZR m2)%R by (apply (IZR_le 8388609); lia). nra.
  - subst e2. apply F2R_lt_same_exp in Hlt.
    assert (IZR m1 + 1 <= IZR m2)%R by (rewrite <- plus_IZR; apply IZR_le; lia).
    unfold F2R. split; [nra|]. intros _. nra.
  - pose proof (bpow_double_le _ _ Hg). unfold F2R in *. nra.
Qed.

(** Rounding never crosses a representable number. *)
Lemma rounded_le x mz ez my ey :
  rounded x mz ez -> 2 ^ 23 <= my < 2 ^ 24 ->
  (x <= F2R my ey)%R -> (F2R mz ez <= F2R my ey)%R.
Proof.
  intros (Hmz & Hup & Hlo & Hlo') Hmy Hx.
  destruct (Rle_or_lt (F2R mz ez) (F2R my ey)) as [|Hlt]; [assumption|exfalso].
  destruct (grid_pred _ _ _ _ Hmy Hmz Hlt) as [Hp1 Hp2].
  pose proof (bpow_gt_0 ez). unfold F2R in *.
  destruct (Z.eq_dec mz (2 ^ 23)) as [Heq|Hne].
  - specialize (Hlo' Heq). nra.
  - specialize (Hp2 Hne). nra.
Qed.

Lemma rounded_ge x mz ez my ey :
  rounded x mz ez -> 2 ^ 23 <= my < 2 ^ 24 ->
  (F2R my ey <= x)%R -> (F2R my ey <= F2R mz ez)%R.
Proof.
  intros (Hmz & Hup & Hlo & Hlo') Hmy Hx.
  destruct (Rle_or_lt (F2R my ey) (F2R mz ez)) as [|Hlt]; [assumption|exfalso].
  pose proof (grid_succ _ _ _ _ Hmz Hmy Hlt).
  pose proof (bpow_gt_0 ez). unfold F2R in *. nra.
Qed.

(** Relative error of rounding: half an ulp is at most 2^-24 of the result. *)
Lemma rounded_err x mz ez :
  rounded x mz ez -> (Rabs (F2R mz ez - x) <= F2R mz ez / 16777216)%R.
Proof.
  intros (Hmz & Hup & Hlo & _). pose proof (canon_IZR _ Hmz).
  pose proof (bpow_gt_0 ez). unfold F2R in *.
  apply Rabs_le. split; nra.
Qed.

Lemma rounded_exact m e : 2 ^ 23 <= m < 2 ^ 24 -> rounded (F2R m e) m e.
Proof.
  intros H. pose proof (bpow_gt_0 e). unfold rounded, F2R.
  split; [assumption|]. split; [nra|]. split; [nra|]. intros _; nra.
Qed.

Lemma binary_round_aux_exact sx m e :
  2 ^ 23 <= Zpos m < 2 ^ 24 -> -149 <= e <= 104 ->
  binary_round_aux 24 128 sx (Zpos m) e loc_Exact = S754_finite sx m e.
Proof.
  intros Hm He. unfold binary_round_aux.
  rewrite (shr_fexp_canonical _ _ Hm) by lia.
  cbn [shr_m loc_of_shr_record round_nearest_even].
  rewrite (shr_fexp_canonical _ _ Hm) by lia. cbn [shr_m].
  replace (e <=? 128 - 24) with true by (symmetry; apply Z.leb_le; lia).
  reflexivity.
Qed.

Lemma iter_xO_spec k p : Zpos (Pos.iter xO p k) = Zpos p * 2 ^ Zpos k.
Proof.
  change (Pos.iter xO p k) with (shift_pos k p).
  rewrite shift_pos_correct. change (Zpower_pos 2 k) with (2 ^ Zpos k). lia.
Qed.

Lemma F2R_shift m k e : 0 <= k -> F2R (m * 2 ^ k) (e - k) = F2R m e.
Proof.
  intros Hk. unfold F2R. rewrite mult_IZR, <- bpow_IZR by assumption.
  rewrite Rmult_assoc, <- bpow_plus. do 2 f_equal. lia.
Qed.

Theorem binary_round_spec sx p e :
  -149 <= e -> -125 <= Zpos (digits2_pos p) + e <= 127 ->
  exists mz ez,
    binary_round 24 128 sx p e = S754_finite sx mz ez /\
    rounded (F2R (Zpos p) e) (Zpos mz) ez /\
    Zpos (digits2_pos p) + e - 24 <= ez <= Zpos (digits2_pos p) + e - 23 /\
    (Zpos p < 2 ^ 24 -> F2R (Zpos mz) ez = F2R (Zpos p) e).
Proof.
  intros He Hd. pose proof (digits2_pos_spec p) as [Hp1 Hp2].
  set (d := Zpos (digits2_pos p)) in *.
  unfold binary_round. fold d. rewrite fexp32_normal by lia.
  unfold shl_align. remember (d + e - 24 - e) as n eqn:Hn.
  destruct n as [|k|k].
  - (* exactly 24 digits *)
    assert (d = 24) by lia.
    assert (Hm : 2 ^ 23 <= Zpos p < 2 ^ 24) by (replace 23 with (d - 1) by lia; replace 24 with d by lia; lia).
    rewrite binary_round_aux_exact by (assumption || lia).
    exists p, e. split; [reflexivity|]. split; [apply rounded_exact; assumption|].
    split; [lia|reflexivity].
  - (* more than 24 digits: the mantissa is rounded *)
    assert (Hm : 2 ^ 24 <= Zpos p).
    { assert (2 ^ 24 <= 2 ^ (d - 1)) by (apply Z.pow_le_mono_r; lia). lia. }
    destruct (binary_round_aux_spec sx (F2R (Zpos p) e) (Zpos p) e loc_Exact)
      as (mz & ez & Heq & Hr & Hez); try (cbn [Zdigits2]; fold d; lia).
    { reflexivity. }
    exists mz, ez. split; [assumption|]. split; [assumption|].
    cbn [Zdigits2] in Hez. fold d in Hez. split; [lia|]. intros; lia.
  - (* fewer than 24 digits: the mantissa is shifted left, exactly *)
    assert (Hk : Zpos k = 24 - d) by lia.
    assert (Hm : 2 ^ 23 <= Zpos (Pos.iter xO p k) < 2 ^ 24).
    { rewrite iter_xO_spec, Hk.
      replace (2 ^ 23) with (2 ^ (d - 1) * 2 ^ (24 - d))
        by (rewrite <- Z.pow_add_r by lia; f_equal; lia).
      replace (2 ^ 24) with (2 ^ d * 2 ^ (24 - d))
        by (rewrite <- Z.pow_add_r by lia; f_equal; lia).
      assert (0 < 2 ^ (24 - d)) by (apply Z.pow_pos_nonneg; lia). nia. }
    rewrite binary_round_aux_exact by (assumption || lia).
    assert (Hv : F2R (Zpos (Pos.iter xO p k)) (d + e - 24) = F2R (Zpos p) e).
    { rewrite iter_xO_spec. replace (d + e - 24) with (e - Zpos k) by lia.
      apply F2R_shift. lia. }
    exists (Pos.iter xO p k), (d + e - 24). split; [reflexivity|].
    split; [rewrite <- Hv; apply rounded_exact; assumption|].
    split; [lia|]. intros _. assumption.
Qed.

Lemma new_location_inbetween q r d e x :
  0 < d -> 0 <= r < d ->
  (x * IZR d = (IZR q * IZR d + IZR r) * bpow e)%R ->
  inbetween x q e (new_location d r).
Proof.
  intros Hd Hr Hx.
  pose proof (bpow_gt_0 e) as HB.
  assert (Hd' : (0 < IZR d)%R) by (apply (IZR_lt 0); assumption).
  assert (Hr0 : (0 <= IZR r)%R) by (apply (IZR_le 0); lia).
  assert (Hrd : (IZR r < IZR d)%R) by (apply IZR_lt; lia).
  unfold new_location.
  destruct (Z.even d) eqn:Hev.
  - unfold new_location_even. destruct (Z.eqb_spec r 0) as [->|Hne].
    + unfold inbetween, F2R. nra.
    + assert (1 <= IZR r)%R by (apply (IZR_le 1); lia).
      destruct (Z.compare_spec (2 * r) d) as [Heq|Hlt|Hgt]; unfold inbetween, F2R.
      * assert (2 * IZR r = IZR d)%R by (rewrite <- Heq, mult_IZR; reflexivity). nra.
      * assert (2 * IZR r < IZR d)%R by (rewrite <- (mult_IZR 2); apply IZR_lt; lia). split; nra.
      * assert (IZR d < 2 * IZR r)%R by (rewrite <- (mult_IZR 2); apply IZR_lt; lia). split; nra.
  - unfold new_location_odd. destruct (Z.eqb_spec r 0) as [->|Hne].
    + unfold inbetween, F2R. nra.
    + assert (1 <= IZR r)%R by (apply (IZR_le 1); lia).
      assert (Hodd : Z.odd d = true) by (rewrite <- Z.negb_even, Hev; reflexivity).
      apply Z.odd_spec in Hodd. destruct Hodd as [c Hc].
      destruct (Z.compare_spec (2 * r + 1) d) as [Heq|Hlt|Hgt]; unfold inbetween, F2R.
      * assert (2 * IZR r < IZR d)%R by (rewrite <- (mult_IZR 2); apply IZR_lt; lia). split; nra.
      * assert (2 * IZR r < IZR d)%R by (rewrite <- (mult_IZR 2); apply IZR_lt; lia). split; nra.
      * assert (IZR d < 2 * IZR r)%R by (rewrite <- (mult_IZR 2); apply IZR_lt; lia). split; nra.
Qed.


Lemma digits2_pos_le p n : 0 <= n -> Zpos p < 2 ^ n -> Zpos (digits2_pos p) <= n.
Proof.
  intros Hn Hp. pose proof (digits2_pos_spec p) as [H1 _].
  destruct (Z_le_gt_dec (Zpos (digits2_pos p)) n) as [|Hgt]; [assumption|].
  assert (2 ^ n <= 2 ^ (Zpos (digits2_pos p) - 1)) by (apply Z.pow_le_mono_r; lia).
  lia.
Qed.

Lemma F2R_0 m : F2R m 0 = IZR m.
Proof. unfold F2R, bpow. simpl. lra. Qed.

(** Conversion of a positive 32-bit integer *)
Lemma f32_of_Z_spec n :
  0 < n < 2 ^ 32 ->
  exists m e, f32_of_Z n = S754_finite false m e /\
    rounded (IZR n) (Zpos m) e /\ -23 <= e <= 9 /\
    (n < 2 ^ 24 -> F2R (Zpos m) e = IZR n /\ e <= 0).
Proof.
  intros Hn. destruct n as [|p|p]; try lia.
  unfold f32_of_Z, binary_normalize.
  pose proof (digits2_pos_le p 32 ltac:(lia) ltac:(lia)) as Hd.
  assert (0 < Zpos (digits2_pos p)) by lia.
  destruct (binary_round_spec false p 0) as (m & e & Heq & Hr & He & Hex); try lia.
  exists m, e. split; [assumption|]. rewrite F2R_0 in *.
  split; [assumption|]. split; [lia|]. intros Hlt. split; [auto|].
  pose proof (digits2_pos_le p 24 ltac:(lia) Hlt).
  destruct Hr as (Hm & _). specialize (Hex Hlt).
  (* exact and canonical: the exponent is digits - 24 *)
  destruct (Z_le_gt_dec e 0) as [|Hgt]; [assumption|exfalso].
  assert (IZR (Zpos m) * bpow e = IZR (Zpos p))%R by exact Hex.
  pose proof (canon_IZR _ Hm). pose proof (bpow_le 1 e ltac:(lia)) as Hb.
  rewrite bpow_1 in Hb.
  assert (IZR (Zpos p) < 16777216)%R by (apply (IZR_lt _ 16777216); lia).
  nra.
Qed.

Lemma f32_of_Z_0 : f32_of_Z 0 = S754_zero false.
Proof. reflexivity. Qed.

Lemma F2R_pos m e : 0 < m -> (0 < F2R m e)%R.
Proof.
  intros H. unfold F2R. pose proof (bpow_gt_0 e).
  assert (0 < IZR m)%R by (apply (IZR_lt 0); assumption). nra.
Qed.

(** Division of two positive normal floats *)
Lemma f32_div_spec ma ea mb eb :
  2 ^ 23 <= Zpos ma < 2 ^ 24 -> 2 ^ 23 <= Zpos mb < 2 ^ 24 ->
  -125 <= ea - eb <= 120 ->
  exists mq eq,
    f32_div (S754_finite false ma ea) (S754_finite false mb eb)
      = S754_finite false mq eq /\
    rounded (F2R (Zpos ma) ea / F2R (Zpos mb) eb) (Zpos mq) eq /\
    ea - eb - 24 <= eq <= ea - eb - 22.
Proof.
  intros Ha Hb He.
  unfold f32_div, SFdiv, SFdiv_core_binary. cbn [Zdigits2 xorb].
  rewrite (digits2_pos_unique ma 24), (digits2_pos_unique mb 24) by assumption.
  replace (24 + ea - (24 + eb)) with (ea - eb) by lia.
  rewrite fexp32_normal by lia.
  rewrite Z.min_l by lia.
  replace (ea - eb - (ea - eb - 24)) with 24 by lia.
  cbv beta iota zeta.
  rewrite Z.shiftl_mul_pow2 by lia.
  pose proof (Z_div_mod (Zpos ma * 2 ^ 24) (Zpos mb) ltac:(lia)) as Hdm.
  destruct (Z.div_eucl (Zpos ma * 2 ^ 24) (Zpos mb)) as [q r].
  destruct Hdm as [Hqr Hr].
  set (x := (F2R (Zpos ma) ea / F2R (Zpos mb) eb)%R).
  assert (Hq : 2 ^ 23 <= q < 2 ^ 25) by nia.
  assert (Hdq : Zdigits2 q <= 25).
  { destruct q as [|pq|pq]; try lia. cbn [Zdigits2]. apply digits2_pos_le; lia. }
  destruct (binary_round_aux_spec false x q (ea - eb - 24) (new_location (Zpos mb) r))
    as (mz & ez & Heq & Hrz & Hez); try lia.
  { apply new_location_inbetween; try lia.
    unfold x, F2R.
    pose proof (bpow_gt_0 ea). pose proof (bpow_gt_0 eb).
    pose proof (bpow_gt_0 (ea - eb - 24)).
    assert (Hmb : (0 < IZR (Zpos mb))%R) by (apply (IZR_lt 0); lia).
    assert (Hpow : (bpow ea = IZR (2 ^ 24) * bpow (ea - eb - 24) * bpow eb)%R).
    { rewrite <- bpow_IZR by lia. rewrite <- !bpow_plus. f_equal. lia. }
    assert (Hint : (IZR (Zpos ma) * IZR (2 ^ 24) = IZR (Zpos mb) * IZR q + IZR r)%R).
    { rewrite <- !mult_IZR, <- plus_IZR. f_equal. exact Hqr. }
    rewrite Hpow. field_simplify; [|nra]. nra. }
  exists mz, ez. split; [exact Heq|]. split; [exact Hrz|].
  assert (24 <= Zdigits2 q).
  { destruct q as [|pq|pq]; try lia. cbn [Zdigits2].
    pose proof (digits2_pos_spec pq) as [_ Hd2].
    destruct (Z_lt_le_dec (Zpos (digits2_pos pq)) 24) as [Hlt|]; [|assumption].
    assert (2 ^ Zpos (digits2_pos pq) <= 2 ^ 23) by (apply Z.pow_le_mono_r; lia). lia. }
  lia.
Qed.

Lemma bpow_opp k : (bpow (- k) * bpow k = 1)%R.
Proof. rewrite <- bpow_plus. replace (- k + k) with 0 by lia. reflexivity. Qed.

Lemma bpow_m23 : (bpow (-23) * 8388608 = 1)%R.
Proof. pose proof (bpow_opp 23) as H. rewrite (bpow_IZR 23) in H by lia. exact H. Qed.

Lemma bpow_m16 : (bpow (-16) * 65536 = 1)%R.
Proof. pose proof (bpow_opp 16) as H. rewrite (bpow_IZR 16) in H by lia. exact H. Qed.

Lemma F2R_one : F2R 8388608 (-23) = 1%R.
Proof. unfold F2R. pose proof bpow_m23. lra. Qed.

Lemma F2R_255 : F2R 16711680 (-16) = 255%R.
Proof. unfold F2R. pose proof bpow_m16. lra. Qed.

Lemma f32_255 : f32_of_Z 255 = S754_finite false 16711680 (-16).
Proof. reflexivity. Qed.

(** [elapsedTimePercent > 1.0] on a positive normal float *)
Lemma f32_gt_one_spec m e :
  2 ^ 23 <= Zpos m < 2 ^ 24 ->
  (f32_gt (S754_finite false m e) f32_one = true -> (1 < F2R (Zpos m) e)%R) /\
  (f32_gt (S754_finite false m e) f32_one = false ->
     (F2R (Zpos m) e <= 1)%R /\
     ((1 <= F2R (Zpos m) e)%R -> S754_finite false m e = f32_one)).
Proof.
  intros Hm. pose proof (canon_IZR _ Hm) as Hr.
  unfold f32_gt, f32_one, SFltb, SFcompare.
  pose proof bpow_m23 as H23. pose proof (bpow_gt_0 e) as He0.
  destruct (Z.compare_spec (-23) e) as [Heq|Hlt|Hgt].
  - subst e. change (Pos.compare_cont Eq 8388608 m) with (Pos.compare 8388608 m).
    destruct (Pos.compare_spec 8388608 m) as [Hme|Hml|Hmg].
    + subst m. split; [discriminate|]. intros _. rewrite F2R_one. split; [lra|reflexivity].
    + split; [|discriminate]. intros _.
      assert (8388609 <= IZR (Zpos m))%R by (apply (IZR_le 8388609); lia).
      unfold F2R. nra.
    + lia.
  - split; [|discriminate]. intros _.
    pose proof (bpow_le (-22) e ltac:(lia)) as Hb.
    assert (bpow (-22) = 2 * bpow (-23))%R by (rewrite <- bpow_succ; reflexivity).
    unfold F2R. nra.
  - split; [discriminate|]. intros _.
    pose proof (bpow_le e (-24) ltac:(lia)) as Hb.
    assert (bpow (-23) = 2 * bpow (-24))%R by (rewrite <- bpow_succ; reflexivity).
    unfold F2R. split; [nra|]. intros H1. exfalso. nra.
Qed.

(** Multiplication by the constant 255 *)
Lemma f32_mul_255_spec mr er :
  2 ^ 23 <= Zpos mr < 2 ^ 24 -> -133 <= er <= 50 ->
  exists mp ep,
    f32_mul (S754_finite false mr er) (f32_of_Z 255) = S754_finite false mp ep /\
    rounded (F2R (Zpos mr) er * 255) (Zpos mp) ep /\
    er + 7 <= ep <= er + 9.
Proof.
  intros Hm He. rewrite f32_255. unfold f32_mul, SFmul. cbn [xorb].
  set (x := (F2R (Zpos mr) er * 255)%R).
  assert (Hp : 2 ^ 46 <= Zpos (mr * 16711680) < 2 ^ 48) by (rewrite Pos2Z.inj_mul; lia).
  assert (Hd : 47 <= Zdigits2 (Zpos (mr * 16711680)) <= 48).
  { cbn [Zdigits2]. split.
    - pose proof (digits2_pos_spec (mr * 16711680)) as [_ H2].
      destruct (Z_lt_le_dec (Zpos (digits2_pos (mr * 16711680))) 47) as [Hlt|]; [|assumption].
      assert (2 ^ Zpos (digits2_pos (mr * 16711680)) <= 2 ^ 46)
        by (apply Z.pow_le_mono_r; lia). lia.
    - apply digits2_pos_le; lia. }
  destruct (binary_round_aux_spec false x (Zpos (mr * 16711680)) (er + -16) loc_Exact)
    as (mz & ez & Heq & Hrz & Hez); try lia.
  { unfold inbetween, x, F2R. rewrite Pos2Z.inj_mul, mult_IZR, bpow_plus.
    pose proof bpow_m16. nra. }
  exists mz, ez. split; [exact Heq|]. split; [exact Hrz|]. lia.
Qed.

(** Truncation of a positive finite float *)
Lemma shiftl_trunc m e :
  (IZR (Z.shiftl (Zpos m) e) <= F2R (Zpos m) e < IZR (Z.shiftl (Zpos m) e) + 1)%R.
Proof.
  destruct (Z_le_gt_dec 0 e) as [He|He].
  - rewrite Z.shiftl_mul_pow2 by assumption.
    unfold F2R. rewrite mult_IZR, <- bpow_IZR by assumption. lra.
  - rewrite Z.shiftl_div_pow2 by lia.
    set (k := - e). assert (Hk : 0 < k) by (unfold k; lia).
    assert (H2 : 0 < 2 ^ k) by (apply Z.pow_pos_nonneg; lia).
    pose proof (Z_div_mod_eq_full (Zpos m) (2 ^ k)) as Hdm.
    pose proof (Z.mod_pos_bound (Zpos m) (2 ^ k) H2) as Hmod.
    set (q := Zpos m / 2 ^ k) in *. set (r := Zpos m mod 2 ^ k) in *.
    assert (HR : IZR (Zpos m) = (IZR (2 ^ k) * IZR q + IZR r)%R)
      by (rewrite <- mult_IZR, <- plus_IZR; f_equal; exact Hdm).
    unfold F2R. replace e with (- k) by (unfold k; lia).
    pose proof (bpow_opp k) as Ho. rewrite (bpow_IZR k) in Ho by lia.
    pose proof (bpow_gt_0 (- k)) as Hb.
    assert (0 <= IZR r)%R by (apply (IZR_le 0); lia).
    assert (IZR r + 1 <= IZR (2 ^ k))%R by (rewrite <- plus_IZR; apply IZR_le; lia).
    rewrite HR.
    replace ((IZR (2 ^ k) * IZR q + IZR r) * bpow (- k))%R
      with (IZR q * (bpow (- k) * IZR (2 ^ k)) + IZR r * bpow (- k))%R by ring.
    rewrite Ho. split; nra.
Qed.

Lemma f32_to_uint8_spec m e :
  (F2R (Zpos m) e <= 255)%R ->
  exists b, f32_to_uint8 (S754_finite false m e) = Ok b /\ 0 <= b <= 255 /\
    (IZR b <= F2R (Zpos m) e < IZR b + 1)%R.
Proof.
  intros Hle. pose proof (shiftl_trunc m e) as [H1 H2].
  pose proof (F2R_pos (Zpos m) e ltac:(lia)) as Hpos.
  set (z := Z.shiftl (Zpos m) e) in *.
  assert (Hz0 : 0 <= z).
  { apply Z.lt_succ_r. apply lt_IZR. unfold Z.succ. rewrite plus_IZR. lra. }
  assert (Hz1 : z <= 255) by (apply le_IZR; lra).
  exists z. unfold f32_to_uint8, f32_trunc. cbn [cond_Zopp]. fold z.
  replace ((0 <=? z) && (z <=? 255)) with true
    by (symmetry; apply andb_true_iff; split; apply Z.leb_le; lia).
  split; [reflexivity|]. split; [lia|]. split; assumption.
Qed.

Lemma shl_align_fst mx ex ez :
  ez <= ex -> Zpos (fst (shl_align mx ex ez)) = Zpos mx * 2 ^ (ex - ez).
Proof.
  intros H. unfold shl_align. remember (ez - ex) as n eqn:Hn.
  destruct n as [|k|k]; try lia; cbn [fst].
  - replace (ex - ez) with 0 by lia. lia.
  - rewrite iter_xO_spec. f_equal. f_equal. lia.
Qed.

(** Subtraction from the constant 255 *)
Lemma f32_sub_255_spec mp ep :
  2 ^ 23 <= Zpos mp < 2 ^ 24 -> -120 <= ep <= 0 ->
  (F2R (Zpos mp) ep <= 255)%R ->
  (F2R (Zpos mp) ep = 255%R /\
   f32_sub (f32_of_Z 255) (S754_finite false mp ep) = S754_zero false) \/
  (exists md ed,
     f32_sub (f32_of_Z 255) (S754_finite false mp ep) = S754_finite false md ed /\
     rounded (255 - F2R (Zpos mp) ep) (Zpos md) ed).
Proof.
  intros Hm He HP. rewrite f32_255. unfold f32_sub, SFsub. cbv zeta.
  set (ez := Z.min (-16) ep).
  assert (Hez1 : ez <= -16) by (unfold ez; lia).
  assert (Hez2 : ez <= ep) by (unfold ez; lia).
  assert (Hez3 : -120 <= ez) by (unfold ez; lia).
  cbn [cond_Zopp]. rewrite !shl_align_fst by assumption.
  set (D := 16711680 * 2 ^ (-16 - ez) - Zpos mp * 2 ^ (ep - ez)).
  assert (HD : F2R D ez = (255 - F2R (Zpos mp) ep)%R).
  { assert (H1 : F2R (16711680 * 2 ^ (-16 - ez)) ez = F2R 16711680 (-16)).
    { rewrite <- (F2R_shift 16711680 (-16 - ez) (-16)) by lia. f_equal. lia. }
    assert (H2 : F2R (Zpos mp * 2 ^ (ep - ez)) ez = F2R (Zpos mp) ep).
    { rewrite <- (F2R_shift (Zpos mp) (ep - ez) ep) by lia. f_equal. lia. }
    rewrite <- H2, <- F2R_255, <- H1. unfold D, F2R. rewrite minus_IZR. ring. }
  pose proof (bpow_gt_0 ez) as Hb.
  unfold binary_normalize. destruct D as [|pd|pd] eqn:HDeq.
  - left. split; [|reflexivity]. unfold F2R in HD at 1. lra.
  - right.
    assert (Hdig : Zpos (digits2_pos pd) <= 8 - ez).
    { apply digits2_pos_le; [lia|]. apply lt_IZR.
      rewrite <- bpow_IZR by lia.
      pose proof (F2R_pos (Zpos mp) ep ltac:(lia)).
      assert (IZR (Zpos pd) * bpow ez < 256)%R by (unfold F2R in HD at 1; lra).
      replace (8 - ez) with (8 + - ez) by lia. rewrite bpow_plus.
      pose proof (bpow_opp ez) as Ho. rewrite (bpow_IZR 8) by lia.
      change (IZR (2 ^ 8)) with 256%R. pose proof (bpow_gt_0 (- ez)). nra. }
    destruct (binary_round_spec false pd ez) as (md & ed & Heq & Hr & _); try lia.
    exists md, ed. split; [exact Heq|]. rewrite <- HD. exact Hr.
  - exfalso. unfold F2R in HD at 1.
    assert (IZR (Z.neg pd) < 0)%R by (apply (IZR_lt _ 0); lia). nra.
Qed.

Lemma F2R_2p24 : F2R 8388608 1 = 16777216%R.
Proof. unfold F2R. rewrite bpow_1. lra. Qed.

Lemma canon_exp_le_1 m e :
  2 ^ 23 <= m < 2 ^ 24 -> (F2R m e <= 1)%R -> e <= -23.
Proof.
  intros Hm H. destruct (Z_le_gt_dec e (-23)) as [|Hgt]; [assumption|exfalso].
  pose proof (canon_IZR _ Hm). pose proof (bpow_le (-22) e ltac:(lia)) as Hb.
  assert (bpow (-22) = 2 * bpow (-23))%R by (rewrite <- bpow_succ; reflexivity).
  pose proof bpow_m23. unfold F2R in H. nra.
Qed.

Lemma elapsedTimePercent_spec ms speed :
  0 <= ms < 2 ^ 32 -> 0 < speed < 2 ^ 24 ->
  (ms = 0 /\ elapsedTimePercent ms speed = S754_zero false) \/
  (speed <= ms /\ elapsedTimePercent ms speed = f32_one) \/
  (0 < ms < speed /\ exists mr er,
     elapsedTimePercent ms speed = S754_finite false mr er /\
     rounded (IZR ms / IZR speed) (Zpos mr) er /\
     2 ^ 23 <= Zpos mr < 2 ^ 24 /\ -47 <= er <= -23 /\
     (F2R (Zpos mr) er <= 1)%R).
Proof.
  intros Hms Hsp. unfold elapsedTimePercent.
  destruct (f32_of_Z_spec speed ltac:(lia)) as (mb & eb & Hb & Hrb & Heb & Hexb).
  destruct (Hexb ltac:(lia)) as [HS Heb0]. clear Hexb.
  assert (Hmb : 2 ^ 23 <= Zpos mb < 2 ^ 24) by (destruct Hrb; assumption).
  assert (HSpos : (0 < IZR speed)%R) by (apply (IZR_lt 0); lia).
  destruct (Z.eq_dec ms 0) as [->|Hne].
  - left. split; [reflexivity|]. rewrite f32_of_Z_0, Hb. reflexivity.
  - right.
    destruct (f32_of_Z_spec ms ltac:(lia)) as (ma & ea & Ha & Hra & Hea & Hexa).
    assert (Hma : 2 ^ 23 <= Zpos ma < 2 ^ 24) by (destruct Hra; assumption).
    rewrite Ha, Hb.
    destruct (f32_div_spec ma ea mb eb Hma Hmb ltac:(lia)) as (mq & eq & Hq & Hrq & Heq).
    rewrite Hq. cbv zeta. rewrite HS in Hrq.
    assert (Hmq : 2 ^ 23 <= Zpos mq < 2 ^ 24) by (destruct Hrq; assumption).
    destruct (f32_gt_one_spec mq eq Hmq) as [Hgt Hngt].
    destruct (Z_le_gt_dec speed ms) as [Hle|Hlt].
    + left. split; [assumption|].
      assert (HA : (IZR speed <= F2R (Zpos ma) ea)%R).
      { destruct (Z_lt_le_dec ms (2 ^ 24)) as [Hsmall|Hbig].
        - destruct (Hexa Hsmall) as [-> _]. apply IZR_le. assumption.
        - assert (16777216 <= F2R (Zpos ma) ea)%R.
          { rewrite <- F2R_2p24. apply (rounded_ge (IZR ms)); [assumption|lia|].
            rewrite F2R_2p24. apply (IZR_le 16777216). lia. }
          assert (IZR speed <= 16777216)%R by (apply (IZR_le _ 16777216); lia). lra. }
      assert (Hx : (1 <= F2R (Zpos ma) ea / IZR speed)%R).
      { apply (Rmult_le_reg_r (IZR speed)); [assumption|].
        unfold Rdiv. rewrite Rmult_assoc, Rinv_l by lra. lra. }
      assert (HQ : (1 <= F2R (Zpos mq) eq)%R).
      { rewrite <- F2R_one. apply (rounded_ge _ _ _ _ _ Hrq); [lia|].
        rewrite F2R_one. exact Hx. }
      destruct (f32_gt (S754_finite false mq eq) f32_one) eqn:Hc; [reflexivity|].
      apply Hngt; [reflexivity|assumption].
    + right. assert (Hsmall : ms < 2 ^ 24) by lia.
      destruct (Hexa Hsmall) as [HA Hea0]. rewrite HA in Hrq.
      split; [lia|].
      assert (Hx : (IZR ms / IZR speed <= 1)%R).
      { apply (Rmult_le_reg_r (IZR speed)); [assumption|].
        unfold Rdiv. rewrite Rmult_assoc, Rinv_l by lra.
        assert (IZR ms <= IZR speed)%R by (apply IZR_le; lia). lra. }
      assert (HQ : (F2R (Zpos mq) eq <= 1)%R).
      { rewrite <- F2R_one. apply (rounded_le _ _ _ _ _ Hrq); [lia|].
        rewrite F2R_one. exact Hx. }
      destruct (f32_gt (S754_finite false mq eq) f32_one) eqn:Hc.
      * specialize (Hgt eq_refl). lra.
      * exists mq, eq. split; [reflexivity|]. split; [assumption|].
        split; [assumption|]. split; [|assumption].
        pose proof (canon_exp_le_1 _ _ Hmq HQ). lia.
Qed.

Lemma rounded_err2 x mz ez :
  rounded x mz ez ->
  (F2R mz ez * (1 - / 16777216) <= x <= F2R mz ez * (1 + / 16777216))%R.
Proof.
  intros (Hmz & Hup & Hlo & _). pose proof (canon_IZR _ Hmz).
  pose proof (bpow_gt_0 ez). unfold F2R in *. split; nra.
Qed.

Lemma rounded_pos x mz ez : rounded x mz ez -> (0 < x)%R.
Proof.
  intros (Hmz & Hup & Hlo & _). pose proof (canon_IZR _ Hmz).
  pose proof (bpow_gt_0 ez). nra.
Qed.

Lemma f32_to_uint8_zero : f32_to_uint8 (S754_zero false) = Ok 0.
Proof. reflexivity. Qed.

Lemma f32_to_uint8_255 : f32_to_uint8 (f32_of_Z 255) = Ok 255.
Proof. reflexivity. Qed.

Lemma Rdiv_same x : (0 < x)%R -> (x / x = 1)%R.
Proof. intros H. unfold Rdiv. apply Rinv_r. lra. Qed.

(** The brightening ramp: [elapsedTimePercent * 255] stored in a [uint8_t]. *)
Theorem brightened_spec ms speed :
  0 <= ms < 2 ^ 32 -> 0 < speed < 2 ^ 24 ->
  exists b, f32_to_uint8 (brightened ms speed) = Ok b /\ 0 <= b <= 255 /\
    (speed <= ms -> b = 255) /\ (ms = 0 -> b = 0) /\
    (ms <= speed ->
       (255 * (IZR ms / IZR speed) - 1 - / 16384 < IZR b
          <= 255 * (IZR ms / IZR speed) + / 16384)%R).
Proof.
  intros Hms Hsp. unfold brightened.
  assert (HSpos : (0 < IZR speed)%R) by (apply (IZR_lt 0); lia).
  destruct (elapsedTimePercent_spec ms speed Hms Hsp)
    as [[H0 He]|[[Hle He]|[Hlt (mr & er & He & Hr & Hmr & Her & HQ)]]]; rewrite He.
  - exists 0. split; [reflexivity|]. split; [lia|]. split; [lia|]. split; [reflexivity|].
    intros _. subst ms. unfold Rdiv. rewrite Rmult_0_l. lra.
  - exists 255. split; [reflexivity|]. split; [lia|]. split; [reflexivity|].
    split; [lia|]. intros Hle'. assert (ms = speed) by lia. subst ms.
    rewrite Rdiv_same by assumption. lra.
  - destruct (f32_mul_255_spec mr er Hmr ltac:(lia)) as (mp & ep & Hp & Hrp & Hep).
    rewrite Hp.
    assert (HP : (F2R (Zpos mp) ep <= 255)%R).
    { rewrite <- F2R_255. apply (rounded_le _ _ _ _ _ Hrp); [lia|]. rewrite F2R_255. lra. }
    destruct (f32_to_uint8_spec mp ep HP) as (b & Hb & Hb255 & Hfl).
    exists b. split; [assumption|]. split; [assumption|]. split; [lia|]. split; [lia|].
    intros _. pose proof (rounded_err2 _ _ _ Hr). pose proof (rounded_err2 _ _ _ Hrp).
    pose proof (rounded_pos _ _ _ Hr). pose proof (F2R_pos (Zpos mr) er ltac:(lia)).
    pose proof (F2R_pos (Zpos mp) ep ltac:(lia)).
    set (x0 := (IZR ms / IZR speed)%R) in *. split; nra.
Qed.

(** The dimming ramp: [255 - elapsedTimePercent * 255] stored in a [uint8_t]. *)
Theorem dimmed_spec ms speed :
  0 <= ms < 2 ^ 32 -> 0 < speed < 2 ^ 24 ->
  exists b, f32_to_uint8 (dimmed ms speed) = Ok b /\ 0 <= b <= 255 /\
    (speed <= ms -> b = 0) /\ (ms = 0 -> b = 255) /\
    (ms <= speed ->
       (255 * (1 - IZR ms / IZR speed) - 1 - / 16384 < IZR b
          <= 255 * (1 - IZR ms / IZR speed) + / 16384)%R).
Proof.
  intros Hms Hsp. unfold dimmed.
  assert (HSpos : (0 < IZR speed)%R) by (apply (IZR_lt 0); lia).
  destruct (elapsedTimePercent_spec ms speed Hms Hsp)
    as [[H0 He]|[[Hle He]|[Hlt (mr & er & He & Hr & Hmr & Her & HQ)]]]; rewrite He.
  - exists 255. split; [reflexivity|]. split; [lia|]. split; [lia|]. split; [reflexivity|].
    intros _. subst ms. unfold Rdiv. rewrite Rmult_0_l. lra.
  - exists 0. split; [reflexivity|]. split; [lia|]. split; [reflexivity|].
    split; [lia|]. intros Hle'. assert (ms = speed) by lia. subst ms.
    rewrite Rdiv_same by assumption. lra.
  - destruct (f32_mul_255_spec mr er Hmr ltac:(lia)) as (mp & ep & Hp & Hrp & Hep).
    rewrite Hp.
    assert (Hmp : 2 ^ 23 <= Zpos mp < 2 ^ 24) by (destruct Hrp; assumption).
    assert (HP : (F2R (Zpos mp) ep <= 255)%R).
    { rewrite <- F2R_255. apply (rounded_le _ _ _ _ _ Hrp); [lia|]. rewrite F2R_255. lra. }
    pose proof (rounded_err2 _ _ _ Hr). pose proof (rounded_err2 _ _ _ Hrp).
    pose proof (rounded_pos _ _ _ Hr). pose proof (F2R_pos (Zpos mr) er ltac:(lia)).
    pose proof (F2R_pos (Zpos mp) ep ltac:(lia)).
    destruct (f32_sub_255_spec mp ep Hmp ltac:(lia) HP)
      as [[HP255 Hd]|(md & ed & Hd & Hrd)]; rewrite Hd.
    + exists 0. split; [reflexivity|]. split; [lia|]. split; [lia|]. split; [lia|].
      intros _. set (x0 := (IZR ms / IZR speed)%R) in *. split; nra.
    + assert (HD : (F2R (Zpos md) ed <= 255)%R).
      { rewrite <- F2R_255. apply (rounded_le _ _ _ _ _ Hrd); [lia|]. rewrite F2R_255. lra. }
      destruct (f32_to_uint8_spec md ed HD) as (b & Hb & Hb255 & Hfl).
      exists b. split; [assumption|]. split; [assumption|]. split; [lia|]. split; [lia|].
      intros _. pose proof (rounded_err2 _ _ _ Hrd).
      pose proof (F2R_pos (Zpos md) ed ltac:(lia)).
      set (x0 := (IZR ms / IZR speed)%R) in *. split; nra.
Qed.

(** * The methods of [ChristmasPixel] *)

Lemma in_int_ok t z : -32768 <= z <= 32767 -> in_int t z = Ok z.
Proof.
  intros H. unfold in_int, INT_MIN.
  replace ((- INT_MAX t - 1 <=? z) && (z <=? INT_MAX t)) with true; [reflexivity|].
  symmetry. apply andb_true_iff. destruct t; cbn [INT_MAX]; split; apply Z.leb_le; lia.
Qed.

Lemma to_ulong_range z : 0 <= to_ulong z < 2 ^ 32.
Proof. unfold to_ulong. apply Z.mod_pos_bound. lia. Qed.

Lemma to_uint16_range z : 0 <= to_uint16 z < 2 ^ 16.
Proof. unfold to_uint16. apply Z.mod_pos_bound. lia. Qed.

Lemma to_uint8_range z : 0 <= to_uint8 z <= 255.
Proof. unfold to_uint8. pose proof (Z.mod_pos_bound z (2 ^ 8) ltac:(lia)). lia. Qed.

Lemma millis_eq w : millis w = Ok (reading w 0, advance 1 w).
Proof. reflexivity. Qed.

Lemma advance_advance n k w : advance n (advance k w) = advance (n + k) w.
Proof. unfold advance. cbn. f_equal. lia. Qed.

Lemma reading_advance w k i : reading (advance k w) i = reading w (i + k).
Proof. unfold reading, advance. cbn. do 2 f_equal. lia. Qed.

Section Paths.
Variable tgt : target.
Variable libc_random : Z -> N * Z.

Lemma _CalculateBlinkSpeed_ok p :
  0 <= _blinkSpeedFactor p <= 255 ->
  _CalculateBlinkSpeed tgt p = Ok (blinkSpeedOf p) /\ 70 <= blinkSpeedOf p <= 25570.
Proof.
  intros H. unfold _CalculateBlinkSpeed, blinkSpeedOf, int_mul, int_add,
    BLINK_SPEED_FACTOR_MULTIPLIER_IN_MILLISECONDS, BLINK_SPEED_MINIMUM_IN_MILLISECONDS.
  rewrite in_int_ok by lia. cbn [rbind]. rewrite in_int_ok by lia. cbn [rbind].
  unfold to_uint16. rewrite Z.mod_small by lia. split; [reflexivity|lia].
Qed.

(** ** The five paths of [_CalculateBlinkAnimationParameters] *)

Lemma calc_static p w :
  _shouldBlink p = false ->
  _CalculateBlinkAnimationParameters tgt libc_random p w = Ok (p, w).
Proof.
  intros H. unfold _CalculateBlinkAnimationParameters. rewrite H. reflexivity.
Qed.

Lemma calc_dimming p w :
  _shouldBlink p = true -> _direction p = down -> _brightness p <> 0 ->
  0 <= _blinkSpeedFactor p <= 255 ->
  exists b,
    f32_to_uint8 (dimmed (to_ulong (reading w 0 - _setTime p)) (blinkSpeedOf p)) = Ok b /\
    0 <= b <= 255 /\
    _CalculateBlinkAnimationParameters tgt libc_random p w =
      if b =? 0 then Ok (set_timeZero (reading w 1) (set_brightness 0 p), advance 2 w)
      else Ok (set_brightness b p, advance 1 w).
Proof.
  intros Hb Hd Hne Hf.
  destruct (_CalculateBlinkSpeed_ok p Hf) as [Hs Hsr].
  destruct (dimmed_spec (to_ulong (reading w 0 - _setTime p)) (blinkSpeedOf p)
              (to_ulong_range _) ltac:(lia)) as (b & Hbv & Hbr & _).
  exists b. split; [assumption|]. split; [assumption|].
  unfold _CalculateBlinkAnimationParameters. rewrite Hb, Hd.
  destruct (Z.eqb_spec (_brightness p) 0) as [|_]; [contradiction|].
  rewrite Hs. unfold bind, lift, ret. rewrite millis_eq. rewrite Hbv.
  cbn [_brightness set_brightness].
  destruct (Z.ltb_spec b 0) as [|_]; [lia|].
  cbn [_brightness set_brightness].
  destruct (Z.eqb_spec b 0) as [->|Hb0].
  - rewrite millis_eq, reading_advance, advance_advance. reflexivity.
  - reflexivity.
Qed.

Lemma calc_brightening p w :
  _shouldBlink p = true -> _direction p = up -> _brightness p <> 255 ->
  0 <= _blinkSpeedFactor p <= 255 ->
  exists b,
    f32_to_uint8 (brightened (to_ulong (reading w 0 - _setTime p)) (blinkSpeedOf p)) = Ok b /\
    0 <= b <= 255 /\
    _CalculateBlinkAnimationParameters tgt libc_random p w =
      if b =? 255 then Ok (set_timeFull (reading w 1) (set_brightness 255 p), advance 2 w)
      else Ok (set_brightness b p, advance 1 w).
Proof.
  intros Hb Hd Hne Hf.
  destruct (_CalculateBlinkSpeed_ok p Hf) as [Hs Hsr].
  destruct (brightened_spec (to_ulong (reading w 0 - _setTime p)) (blinkSpeedOf p)
              (to_ulong_range _) ltac:(lia)) as (b & Hbv & Hbr & _).
  exists b. split; [assumption|]. split; [assumption|].
  unfold _CalculateBlinkAnimationParameters. rewrite Hb, Hd.
  destruct (Z.eqb_spec (_brightness p) 255) as [|_]; [contradiction|].
  rewrite Hs. unfold bind, lift, ret. rewrite millis_eq. rewrite Hbv.
  cbn [_brightness set_brightness].
  destruct (Z.gtb_spec b 255) as [|_]; [lia|].
  cbn [_brightness set_brightness].
  destruct (Z.eqb_spec b 255) as [->|Hb0].
  - rewrite millis_eq, reading_advance, advance_advance. reflexivity.
  - reflexivity.
Qed.

Lemma calc_full_hold p w :
  _shouldBlink p = true -> _direction p = up -> _brightness p = 255 ->
  _CalculateBlinkAnimationParameters tgt libc_random p w =
    if to_ulong (reading w 0 - _timeFullBrightnessWasEncountered p)
         >? _fullBrightnessDelayInMilliseconds p
    then Ok (set_setTime (reading w 1) (set_brightness 255 (set_direction down p)),
             advance 2 w)
    else Ok (p, advance 1 w).
Proof.
  intros Hb Hd He. unfold _CalculateBlinkAnimationParameters. rewrite Hb, Hd, He.
  cbn [Z.eqb Pos.eqb]. unfold bind, ret. rewrite millis_eq.
  destruct (_ >? _); [|reflexivity].
  rewrite millis_eq, reading_advance, advance_advance. reflexivity.
Qed.
End Paths.

Lemma bind_Ok {A B} (m : M A) (k : A -> M B) w a w' :
  m w = Ok (a, w') -> bind m k w = k a w'.
Proof. intros H. unfold bind. rewrite H. reflexivity. Qed.

Section Randomizing.
Variable tgt : target.
Variable libc_random : Z -> N * Z.


Lemma randomize_pattern {A} (bound : Z) (f : Z -> A) w :
  0 <= bound ->
  exists r w',
    bind millis (fun systemUptime =>
      bind (randomSeed systemUptime) (fun _ =>
        bind (random libc_random bound) (fun r => ret (f r)))) w = Ok (f r, w') /\
    (0 < bound -> 0 <= r < bound) /\ (bound = 0 -> r = 0) /\
    one_draw bound w w'.
Proof.
  intros Hb. unfold bind, millis, randomSeed, random, ret, one_draw.
  destruct (Z.eqb_spec bound 0) as [->|Hne].
  - destruct (to_ulong (clock w (ticks w)) =? 0);
      (eexists; eexists; split; [reflexivity|]); cbn; repeat split; lia.
  - destruct (to_ulong (clock w (ticks w)) =? 0); cbn [seed clock ticks rolls];
      destruct (libc_random _) as [v s];
      (eexists; eexists; split; [reflexivity|]); cbn [seed clock ticks rolls];
      (split; [intros; apply Z.rem_bound_pos; lia|]); repeat split; lia.
Qed.

Lemma RandomizeColor_run p w :
  exists r w', RandomizeColor libc_random p w = Ok (set_hue r p, w') /\
    0 <= r <= 5 /\ one_draw 6 w w'.
Proof.
  destruct (randomize_pattern 6 (fun r => set_hue r p) w ltac:(lia))
    as (r & w' & H & Hr & _ & Hw).
  exists r, w'. split; [exact H|]. split; [lia|assumption].
Qed.

Lemma RandomizeSpeedFactor_run p w :
  exists r w', RandomizeSpeedFactor libc_random p w = Ok (set_blinkSpeedFactor r p, w') /\
    0 <= r <= 3 /\ one_draw BLINK_SPEED_FACTOR_PROBABILITY w w'.
Proof.
  destruct (randomize_pattern BLINK_SPEED_FACTOR_PROBABILITY
              (fun r => set_blinkSpeedFactor (to_uint8 r) p) w ltac:(unfold BLINK_SPEED_FACTOR_PROBABILITY; lia))
    as (r & w' & H & Hr & _ & Hw).
  unfold BLINK_SPEED_FACTOR_PROBABILITY in Hr at 1 2. specialize (Hr ltac:(lia)).
  exists (to_uint8 r), w'. split; [exact H|].
  unfold to_uint8. rewrite Z.mod_small by lia. split; [lia|assumption].
Qed.

Lemma RandomizeBlinkability_run p w :
  exists w', RandomizeBlinkability libc_random p w = Ok (set_shouldBlink true p, w') /\
    one_draw BLINK_PROBABILITY w w'.
Proof.
  destruct (randomize_pattern BLINK_PROBABILITY
              (fun r => set_shouldBlink (r =? 0) p) w ltac:(unfold BLINK_PROBABILITY; lia))
    as (r & w' & H & _ & Hr & Hw).
  rewrite (Hr eq_refl) in H. exists w'. split; [exact H|assumption].
Qed.

Lemma RandomizeZeroBrightnessDelay_run p w :
  exists r w', RandomizeZeroBrightnessDelay libc_random p w = Ok (set_zeroDelay r p, w') /\
    500 <= r <= 5499 /\
    one_draw BLINK_ZERO_BRIGHTNESS_DELAY_PROBABILITY_IN_MILLISECONDS w w'.
Proof.
  destruct (randomize_pattern BLINK_ZERO_BRIGHTNESS_DELAY_PROBABILITY_IN_MILLISECONDS
              (fun r => set_zeroDelay
                 (to_uint16 (r + BLINK_ZERO_BRIGHTNESS_DELAY_MINIMUM_IN_MILLISECONDS)) p) w
              ltac:(unfold BLINK_ZERO_BRIGHTNESS_DELAY_PROBABILITY_IN_MILLISECONDS; lia))
    as (r & w' & H & Hr & _ & Hw).
  unfold BLINK_ZERO_BRIGHTNESS_DELAY_PROBABILITY_IN_MILLISECONDS in Hr at 1 2.
  specialize (Hr ltac:(lia)).
  exists (to_uint16 (r + BLINK_ZERO_BRIGHTNESS_DELAY_MINIMUM_IN_MILLISECONDS)), w'.
  split; [exact H|].
  unfold to_uint16, BLINK_ZERO_BRIGHTNESS_DELAY_MINIMUM_IN_MILLISECONDS.
  rewrite Z.mod_small by lia. split; [lia|assumption].
Qed.

Lemma RandomizeFullBrightnessDelay_run p w :
  exists r w', RandomizeFullBrightnessDelay libc_random p w = Ok (set_fullDelay r p, w') /\
    500 <= r <= 15499 /\
    one_draw BLINK_FULL_BRIGHTNESS_DELAY_PROBABILITY_IN_MILLISECONDS w w'.
Proof.
  destruct (randomize_pattern BLINK_FULL_BRIGHTNESS_DELAY_PROBABILITY_IN_MILLISECONDS
              (fun r => set_fullDelay
                 (to_uint16 (r + BLINK_FULL_BRIGHTNESS_DELAY_MINIMUM_IN_MILLISECONDS)) p) w
              ltac:(unfold BLINK_FULL_BRIGHTNESS_DELAY_PROBABILITY_IN_MILLISECONDS; lia))
    as (r & w' & H & Hr & _ & Hw).
  unfold BLINK_FULL_BRIGHTNESS_DELAY_PROBABILITY_IN_MILLISECONDS in Hr at 1 2.
  specialize (Hr ltac:(lia)).
  exists (to_uint16 (r + BLINK_FULL_BRIGHTNESS_DELAY_MINIMUM_IN_MILLISECONDS)), w'.
  split; [exact H|].
  unfold to_uint16, BLINK_FULL_BRIGHTNESS_DELAY_MINIMUM_IN_MILLISECONDS.
  rewrite Z.mod_small by lia. split; [lia|assumption].
Qed.

Lemma calc_zero_hold p w :
  _shouldBlink p = true -> _direction p = down -> _brightness p = 0 ->
  if to_ulong (reading w 0 - _timeZeroBrightnessWasEncountered p)
       >? _zeroBrightnessDelayInMilliseconds p
  then
    exists h f z fl w',
      _CalculateBlinkAnimationParameters tgt libc_random p w =
        Ok (set_setTime (reading w 5)
              (set_fullDelay fl (set_zeroDelay z (set_blinkSpeedFactor f
                 (set_hue h (set_direction up p))))), w') /\
      0 <= h <= 5 /\ 0 <= f <= 3 /\ 500 <= z <= 5499 /\ 500 <= fl <= 15499 /\
      clock w' = clock w /\ ticks w' = (6 + ticks w)%nat /\
      rolls w' = rolls w ++ [6; 4; 5000; 15000]
  else
    _CalculateBlinkAnimationParameters tgt libc_random p w = Ok (p, advance 1 w).
Proof.
  intros Hb Hd He. unfold _CalculateBlinkAnimationParameters. rewrite Hb, Hd, He.
  cbn [Z.eqb]. rewrite (bind_Ok _ _ _ _ _ (millis_eq w)).
  destruct (_ >? _); [|reflexivity].
  destruct (RandomizeColor_run (set_direction up p) (advance 1 w))
    as (h & w1 & H1 & Hh & Hc1 & Ht1 & Hr1).
  destruct (RandomizeSpeedFactor_run (set_hue h (set_direction up p)) w1)
    as (f & w2 & H2 & Hf & Hc2 & Ht2 & Hr2).
  destruct (RandomizeZeroBrightnessDelay_run
              (set_blinkSpeedFactor f (set_hue h (set_direction up p))) w2)
    as (z & w3 & H3 & Hz & Hc3 & Ht3 & Hr3).
  destruct (RandomizeFullBrightnessDelay_run
              (set_zeroDelay z (set_blinkSpeedFactor f (set_hue h (set_direction up p)))) w3)
    as (fl & w4 & H4 & Hfl & Hc4 & Ht4 & Hr4).
  exists h, f, z, fl, (advance 1 w4).
  rewrite (bind_Ok _ _ _ _ _ H1), (bind_Ok _ _ _ _ _ H2),
          (bind_Ok _ _ _ _ _ H3), (bind_Ok _ _ _ _ _ H4),
          (bind_Ok _ _ _ _ _ (millis_eq w4)).
  unfold ret.
  assert (Hrd : reading w4 0 = reading w 5).
  { unfold reading. rewrite Hc4, Hc3, Hc2, Hc1, Ht4, Ht3, Ht2, Ht1. reflexivity. }
  rewrite Hrd. split; [reflexivity|]. repeat (split; [assumption|]).
  cbn [advance clock ticks rolls]. rewrite Hc4, Hc3, Hc2, Hc1, Ht4, Ht3, Ht2, Ht1.
  rewrite Hr4, Hr3, Hr2, Hr1. cbn [advance clock ticks rolls].
  rewrite <- !app_assoc. split; [reflexivity|]. split; reflexivity.
Qed.
(** Each method with the value it stores and the world it leaves. *)
Lemma randomize_exact {A} (bound : Z) (f : Z -> A) w :
  bound <> 0 ->
  bind millis (fun systemUptime =>
    bind (randomSeed systemUptime) (fun _ =>
      bind (random libc_random bound) (fun r => ret (f r)))) w
  = Ok (f (Z.rem (Z.of_N (fst (libc_random (seed_in_force (reading w 0) (seed w))))) bound),
        {| clock := clock w; ticks := S (ticks w);
           seed := snd (libc_random (seed_in_force (reading w 0) (seed w)));
           rolls := rolls w ++ [bound] |}).
Proof.
  intros Hb. unfold bind, millis, randomSeed, random, ret, seed_in_force.
  change (to_ulong (clock w (ticks w))) with (reading w 0).
  destruct (Z.eqb_spec bound 0) as [|_]; [contradiction|].
  destruct (reading w 0 =? 0); cbn [seed clock ticks rolls];
    destruct (libc_random _) as [v s]; reflexivity.
Qed.

Lemma RandomizeColor_exact p w :
  RandomizeColor libc_random p w
  = Ok (set_hue (Z.rem (Z.of_N (fst (libc_random (seed_in_force (reading w 0) (seed w))))) 6) p,
        {| clock := clock w; ticks := S (ticks w);
           seed := snd (libc_random (seed_in_force (reading w 0) (seed w)));
           rolls := rolls w ++ [6] |}).
Proof. apply (randomize_exact 6 (fun r => set_hue r p)). lia. Qed.

Lemma RandomizeSpeedFactor_exact p w :
  RandomizeSpeedFactor libc_random p w
  = Ok (set_blinkSpeedFactor
          (to_uint8 (Z.rem (Z.of_N (fst (libc_random (seed_in_force (reading w 0) (seed w))))) 4)) p,
        {| clock := clock w; ticks := S (ticks w);
           seed := snd (libc_random (seed_in_force (reading w 0) (seed w)));
           rolls := rolls w ++ [4] |}).
Proof.
  apply (randomize_exact 4 (fun r => set_blinkSpeedFactor (to_uint8 r) p)). lia.
Qed.

Lemma RandomizeZeroBrightnessDelay_exact p w :
  RandomizeZeroBrightnessDelay libc_random p w
  = Ok (set_zeroDelay
          (to_uint16 (Z.rem (Z.of_N (fst (libc_random (seed_in_force (reading w 0) (seed w)))))
                            5000 + 500)) p,
        {| clock := clock w; ticks := S (ticks w);
           seed := snd (libc_random (seed_in_force (reading w 0) (seed w)));
           rolls := rolls w ++ [5000] |}).
Proof.
  apply (randomize_exact 5000 (fun r => set_zeroDelay (to_uint16 (r + 500)) p)). lia.
Qed.

Lemma RandomizeFullBrightnessDelay_exact p w :
  RandomizeFullBrightnessDelay libc_random p w
  = Ok (set_fullDelay
          (to_uint16 (Z.rem (Z.of_N (fst (libc_random (seed_in_force (reading w 0) (seed w)))))
                            15000 + 500)) p,
        {| clock := clock w; ticks := S (ticks w);
           seed := snd (libc_random (seed_in_force (reading w 0) (seed w)));
           rolls := rolls w ++ [15000] |}).
Proof.
  apply (randomize_exact 15000 (fun r => set_fullDelay (to_uint16 (r + 500)) p)). lia.
Qed.

Lemma rem_small v b : 0 < b -> 0 <= Z.rem (Z.of_N v) b < b.
Proof. intros H. apply Z.rem_bound_pos; lia. Qed.

(** The transition out of the zero hold, with every value it stores. *)
Lemma calc_zero_hold_exact p w :
  _shouldBlink p = true -> _direction p = down -> _brightness p = 0 ->
  to_ulong (reading w 0 - _timeZeroBrightnessWasEncountered p)
    > _zeroBrightnessDelayInMilliseconds p ->
  let s1 := seed_in_force (reading w 1) (seed w) in
  let s2 := seed_in_force (reading w 2) (snd (libc_random s1)) in
  let s3 := seed_in_force (reading w 3) (snd (libc_random s2)) in
  let s4 := seed_in_force (reading w 4) (snd (libc_random s3)) in
  _CalculateBlinkAnimationParameters tgt libc_random p w =
    Ok (set_setTime (reading w 5)
          (set_fullDelay (Z.rem (Z.of_N (fst (libc_random s4))) 15000 + 500)
             (set_zeroDelay (Z.rem (Z.of_N (fst (libc_random s3))) 5000 + 500)
                (set_blinkSpeedFactor (Z.rem (Z.of_N (fst (libc_random s2))) 4)
                   (set_hue (Z.rem (Z.of_N (fst (libc_random s1))) 6)
                      (set_direction up p))))),
        {| clock := clock w; ticks := (6 + ticks w)%nat;
           seed := snd (libc_random s4);
           rolls := rolls w ++ [6; 4; 5000; 15000] |}).
Proof.
  intros Hblink Hdir Hb Hgt s1 s2 s3 s4.
  unfold _CalculateBlinkAnimationParameters. rewrite Hblink, Hdir, Hb. cbn [Z.eqb].
  rewrite (bind_Ok _ _ _ _ _ (millis_eq w)).
  destruct (Z.gtb_spec (to_ulong (reading w 0 - _timeZeroBrightnessWasEncountered p))
                       (_zeroBrightnessDelayInMilliseconds p)); [|lia].
  rewrite (bind_Ok _ _ _ _ _ (RandomizeColor_exact (set_direction up p) (advance 1 w))).
  change (reading (advance 1 w) 0) with (reading w 1).
  cbn [seed advance clock ticks rolls]. fold s1.
  match goal with |- bind _ _ ?w1 = _ =>
    rewrite (bind_Ok _ _ _ _ _ (RandomizeSpeedFactor_exact _ w1));
    change (reading w1 0) with (reading w 2) end.
  cbn [seed clock ticks rolls]. fold s2.
  match goal with |- bind _ _ ?w1 = _ =>
    rewrite (bind_Ok _ _ _ _ _ (RandomizeZeroBrightnessDelay_exact _ w1));
    change (reading w1 0) with (reading w 3) end.
  cbn [seed clock ticks rolls]. fold s3.
  match goal with |- bind _ _ ?w1 = _ =>
    rewrite (bind_Ok _ _ _ _ _ (RandomizeFullBrightnessDelay_exact _ w1));
    change (reading w1 0) with (reading w 4) end.
  cbn [seed clock ticks rolls]. fold s4.
  match goal with |- bind _ _ ?w1 = _ =>
    rewrite (bind_Ok _ _ _ _ _ (millis_eq w1));
    change (reading w1 0) with (reading w 5) end.
  unfold ret, advance. cbn [seed clock ticks rolls].
  unfold to_uint8, to_uint16.
  pose proof (rem_small (fst (libc_random s2)) 4 ltac:(lia)).
  pose proof (rem_small (fst (libc_random s3)) 5000 ltac:(lia)).
  pose proof (rem_small (fst (libc_random s4)) 15000 ltac:(lia)).
  rewrite !Z.mod_small by lia.
  rewrite <- !app_assoc. reflexivity.
Qed.
End Randomizing.

Lemma reading_range w i : 0 <= reading w i < 2 ^ 32.
Proof. apply to_ulong_range. Qed.

Section Invariant.
Variable tgt : target.
Variable libc_random : Z -> N * Z.

Local Abbreviation calc := (_CalculateBlinkAnimationParameters tgt libc_random).

(** The update always returns, keeps every field within its type, and keeps
    a valid hue valid. *)
Lemma calc_total p w :
  wf p ->
  exists p' w', calc p w = Ok (p', w') /\ wf p' /\ (valid_hue p -> valid_hue p').
Proof.
  intros Hwf. pose proof Hwf as (Hb & Hf & Hz & Hfl & Hs & Htz & Htf).
  destruct (_shouldBlink p) eqn:Hblink.
  2:{ exists p, w. split; [apply calc_static; assumption|]. split; [assumption|auto]. }
  destruct (_direction p) eqn:Hdir.
  - (* up *)
    destruct (Z.eq_dec (_brightness p) 255) as [H255|Hn255].
    + rewrite (calc_full_hold tgt libc_random p w Hblink Hdir H255).
      destruct (_ >? _); eexists; eexists; (split; [reflexivity|]).
      * pose proof (reading_range w 1).
        unfold wf, valid_hue. cbn. repeat split; auto; lia.
      * split; auto.
    + destruct (calc_brightening tgt libc_random p w Hblink Hdir Hn255 Hf)
        as (b & _ & Hbr & Heq).
      rewrite Heq. pose proof (reading_range w 1).
      destruct (b =? 255); eexists; eexists; (split; [reflexivity|]);
        unfold wf, valid_hue; cbn; repeat split; auto; lia.
  - (* down *)
    destruct (Z.eq_dec (_brightness p) 0) as [H0|Hn0].
    + pose proof (calc_zero_hold tgt libc_random p w Hblink Hdir H0) as Hc.
      destruct (_ >? _).
      * destruct Hc as (h & f & z & fl & w' & Heq & Hh & Hff & Hzz & Hffl & _).
        rewrite Heq. eexists; eexists; (split; [reflexivity|]).
        pose proof (reading_range w 5).
        unfold wf, valid_hue; cbn; repeat split; auto; lia.
      * rewrite Hc. eexists; eexists; (split; [reflexivity|]). split; auto.
    + destruct (calc_dimming tgt libc_random p w Hblink Hdir Hn0 Hf)
        as (b & _ & Hbr & Heq).
      rewrite Heq. pose proof (reading_range w 1).
      destruct (b =? 0); eexists; eexists; (split; [reflexivity|]);
        unfold wf, valid_hue; cbn; repeat split; auto; lia.
Qed.

Lemma GetColor_eq p w :
  GetColor tgt libc_random p w =
  match calc p w with
  | Ok (p', w') =>
    match hueColor tgt (_hue p') (_brightness p') with
    | Ok c => Ok ((c, p'), w')
    | UB u => UB u
    end
  | UB u => UB u
  end.
Proof.
  unfold GetColor, bind, lift, ret.
  destruct (calc p w) as [[p' w']|u]; [|reflexivity].
  destruct (hueColor tgt (_hue p') (_brightness p')); reflexivity.
Qed.

Lemma elapsedTimePercent_clamped ms speed :
  0 <= ms < 2 ^ 32 -> 0 < speed < 2 ^ 24 ->
  (0 <= SF2R (elapsedTimePercent ms speed) <= 1)%R.
Proof.
  intros Hms Hsp.
  destruct (elapsedTimePercent_spec ms speed Hms Hsp)
    as [[_ He]|[[_ He]|[_ (mr & er & He & _ & Hmr & _ & HQ)]]]; rewrite He.
  - cbn. lra.
  - cbn [SF2R f32_one cond_Zopp]. rewrite F2R_one. lra.
  - cbn [SF2R cond_Zopp]. pose proof (F2R_pos (Zpos mr) er ltac:(lia)). lra.
Qed.

(** C1. After every [GetColor] call the brightness is an integer in [0,255]:
    the update always returns with every field in range; the clamped
    elapsed-time ratio lies in [0,1]; and both ramp values convert to a
    [uint8_t] without leaving the range 0..255. *)
Theorem brightness_stays_in_range p w :
  wf p ->
  (exists p' w', calc p w = Ok (p', w') /\ wf p' /\ 0 <= _brightness p' <= 255) /\
  (forall c p' w', GetColor tgt libc_random p w = Ok ((c, p'), w') ->
     0 <= _brightness p' <= 255) /\
  (forall ms, 0 <= ms < 2 ^ 32 ->
     (0 <= SF2R (elapsedTimePercent ms (blinkSpeedOf p)) <= 1)%R /\
     (exists b, f32_to_uint8 (dimmed ms (blinkSpeedOf p)) = Ok b /\ 0 <= b <= 255) /\
     (exists b, f32_to_uint8 (brightened ms (blinkSpeedOf p)) = Ok b /\ 0 <= b <= 255)).
Proof.
  intros Hwf. destruct (calc_total p w Hwf) as (p' & w' & Heq & Hwf' & _).
  split; [|split].
  - exists p', w'. split; [assumption|]. split; [assumption|]. apply Hwf'.
  - intros c p'' w'' HG. rewrite GetColor_eq, Heq in HG.
    destruct (hueColor tgt (_hue p') (_brightness p')); [|discriminate].
    injection HG as _ <- _. apply Hwf'.
  - intros ms Hms. destruct Hwf as (_ & Hf & _).
    destruct (_CalculateBlinkSpeed_ok tgt p Hf) as [_ Hs].
    split; [apply elapsedTimePercent_clamped; lia|]. split.
    + destruct (dimmed_spec ms (blinkSpeedOf p) Hms ltac:(lia)) as (b & Hb & Hr & _).
      exists b; auto.
    + destruct (brightened_spec ms (blinkSpeedOf p) Hms ltac:(lia)) as (b & Hb & Hr & _).
      exists b; auto.
Qed.
End Invariant.

Lemma ratio_le_1 ms speed : 0 < speed -> ms <= speed -> (IZR ms / IZR speed <= 1)%R.
Proof.
  intros Hs Hle. assert (0 < IZR speed)%R by (apply (IZR_lt 0); assumption).
  apply (Rmult_le_reg_r (IZR speed)); [assumption|].
  unfold Rdiv. rewrite Rmult_assoc, Rinv_l by lra.
  assert (IZR ms <= IZR speed)%R by (apply IZR_le; assumption). lra.
Qed.

Lemma ratio_ge_1 ms speed : 0 < speed -> speed <= ms -> (1 <= IZR ms / IZR speed)%R.
Proof.
  intros Hs Hle. assert (0 < IZR speed)%R by (apply (IZR_lt 0); assumption).
  apply (Rmult_le_reg_r (IZR speed)); [assumption|].
  unfold Rdiv. rewrite Rmult_assoc, Rinv_l by lra.
  assert (IZR speed <= IZR ms)%R by (apply IZR_le; assumption). lra.
Qed.

Lemma dimmed_linear ms speed :
  0 <= ms < 2 ^ 32 -> 0 < speed < 2 ^ 24 ->
  exists b, f32_to_uint8 (dimmed ms speed) = Ok b /\ 0 <= b <= 255 /\
    (speed <= ms -> b = 0) /\
    (spec_dimming ms speed - 1 - / 16384 < IZR b <= spec_dimming ms speed + / 16384)%R.
Proof.
  intros Hms Hsp. destruct (dimmed_spec ms speed Hms Hsp) as (b & Hb & Hr & H0 & _ & Hlin).
  exists b. split; [assumption|]. split; [assumption|]. split; [assumption|].
  unfold spec_dimming. destruct (Z_le_gt_dec ms speed) as [Hle|Hgt].
  - rewrite Rmin_left by (apply ratio_le_1; lia). apply Hlin. assumption.
  - rewrite Rmin_right by (apply ratio_ge_1; lia). rewrite (H0 ltac:(lia)). lra.
Qed.

Lemma brightened_linear ms speed :
  0 <= ms < 2 ^ 32 -> 0 < speed < 2 ^ 24 ->
  exists b, f32_to_uint8 (brightened ms speed) = Ok b /\ 0 <= b <= 255 /\
    (speed <= ms -> b = 255) /\
    (spec_brightening ms speed - 1 - / 16384 < IZR b
       <= spec_brightening ms speed + / 16384)%R.
Proof.
  intros Hms Hsp.
  destruct (brightened_spec ms speed Hms Hsp) as (b & Hb & Hr & H0 & _ & Hlin).
  exists b. split; [assumption|]. split; [assumption|]. split; [assumption|].
  unfold spec_brightening. destruct (Z_le_gt_dec ms speed) as [Hle|Hgt].
  - rewrite Rmin_left by (apply ratio_le_1; lia). apply Hlin. assumption.
  - rewrite Rmin_right by (apply ratio_ge_1; lia). rewrite (H0 ltac:(lia)). lra.
Qed.

Section Ramps.
Variable tgt : target.
Variable libc_random : Z -> N * Z.

Local Abbreviation calc := (_CalculateBlinkAnimationParameters tgt libc_random).

(** One call on a pixel that is mid-ramp, in either phase. *)
Lemma ramp_step p w :
  wf p -> _shouldBlink p = true ->
  let elapsed := to_ulong (reading w 0 - _setTime p) in
  (_direction p = down -> _brightness p <> 0 ->
     exists p' w', calc p w = Ok (p', w') /\
       f32_to_uint8 (dimmed elapsed (blinkSpeedOf p)) = Ok (_brightness p') /\
       (spec_dimming elapsed (blinkSpeedOf p) - 1 - / 16384 < IZR (_brightness p')
          <= spec_dimming elapsed (blinkSpeedOf p) + / 16384)%R /\
       (blinkSpeedOf p <= elapsed -> _brightness p' = 0) /\
       (_brightness p' = 0 ->
          _timeZeroBrightnessWasEncountered p' = reading w 1) /\
       _direction p' = down) /\
  (_direction p = up -> _brightness p <> 255 ->
     exists p' w', calc p w = Ok (p', w') /\
       f32_to_uint8 (brightened elapsed (blinkSpeedOf p)) = Ok (_brightness p') /\
       (spec_brightening elapsed (blinkSpeedOf p) - 1 - / 16384 < IZR (_brightness p')
          <= spec_brightening elapsed (blinkSpeedOf p) + / 16384)%R /\
       (blinkSpeedOf p <= elapsed -> _brightness p' = 255) /\
       (_brightness p' = 255 ->
          _timeFullBrightnessWasEncountered p' = reading w 1) /\
       _direction p' = up).
Proof.
  intros Hwf Hblink elapsed. pose proof Hwf as (_ & Hf & _).
  destruct (_CalculateBlinkSpeed_ok tgt p Hf) as [_ Hs].
  assert (He : 0 <= elapsed < 2 ^ 32) by apply to_ulong_range.
  split.
  - intros Hdir Hne.
    destruct (calc_dimming tgt libc_random p w Hblink Hdir Hne Hf) as (b & Hb & Hbr & Heq).
    destruct (dimmed_linear elapsed (blinkSpeedOf p) He ltac:(lia))
      as (b' & Hb' & _ & Hzero & Hlin).
    fold elapsed in Hb. rewrite Hb in Hb'. injection Hb' as <-.
    rewrite Heq. destruct (Z.eqb_spec b 0) as [->|Hn0].
    + eexists; eexists. split; [reflexivity|]. cbn.
      split; [assumption|]. split; [assumption|]. auto.
    + eexists; eexists. split; [reflexivity|]. cbn.
      split; [assumption|]. split; [assumption|]. split; [assumption|].
      split; [intros; contradiction|assumption].
  - intros Hdir Hne.
    destruct (calc_brightening tgt libc_random p w Hblink Hdir Hne Hf)
      as (b & Hb & Hbr & Heq).
    destruct (brightened_linear elapsed (blinkSpeedOf p) He ltac:(lia))
      as (b' & Hb' & _ & Hfull & Hlin).
    fold elapsed in Hb. rewrite Hb in Hb'. injection Hb' as <-.
    rewrite Heq. destruct (Z.eqb_spec b 255) as [->|Hn0].
    + eexists; eexists. split; [reflexivity|]. cbn.
      split; [assumption|]. split; [assumption|]. auto.
    + eexists; eexists. split; [reflexivity|]. cbn.
      split; [assumption|]. split; [assumption|]. split; [assumption|].
      split; [intros; contradiction|assumption].
Qed.

(** C2. Mid-ramp, the new brightness is the truncated single-precision value
    of 255 * (1 - min(elapsed/ramp, 1)) when dimming and of
    255 * min(elapsed/ramp, 1) when brightening: within one unit (and the
    rounding error of the three float operations) of the real-valued ramp.
    Reaching 0 records the time of zero brightness.  With a ramp of 1000 ms
    the ramp value is 127 after 500 ms and 0 after 1000 ms. *)
Theorem ramp_is_linear p w :
  wf p -> _shouldBlink p = true ->
  let elapsed := to_ulong (reading w 0 - _setTime p) in
  (_direction p = down -> _brightness p <> 0 ->
     exists p' w', calc p w = Ok (p', w') /\
       f32_to_uint8 (dimmed elapsed (blinkSpeedOf p)) = Ok (_brightness p') /\
       (spec_dimming elapsed (blinkSpeedOf p) - 1 - / 16384 < IZR (_brightness p')
          <= spec_dimming elapsed (blinkSpeedOf p) + / 16384)%R /\
       (blinkSpeedOf p <= elapsed -> _brightness p' = 0) /\
       (_brightness p' = 0 ->
          _timeZeroBrightnessWasEncountered p' = reading w 1) /\
       _direction p' = down) /\
  (_direction p = up -> _brightness p <> 255 ->
     exists p' w', calc p w = Ok (p', w') /\
       f32_to_uint8 (brightened elapsed (blinkSpeedOf p)) = Ok (_brightness p') /\
       (spec_brightening elapsed (blinkSpeedOf p) - 1 - / 16384 < IZR (_brightness p')
          <= spec_brightening elapsed (blinkSpeedOf p) + / 16384)%R /\
       (blinkSpeedOf p <= elapsed -> _brightness p' = 255) /\
       (_brightness p' = 255 ->
          _timeFullBrightnessWasEncountered p' = reading w 1) /\
       _direction p' = up) /\
  f32_to_uint8 (dimmed 500 1000) = Ok 127 /\
  f32_to_uint8 (dimmed 1000 1000) = Ok 0.
Proof.
  intros Hwf Hblink elapsed.
  destruct (ramp_step p w Hwf Hblink) as [Hd Hu].
  split; [exact Hd|]. split; [exact Hu|]. split; reflexivity.
Qed.
End Ramps.

Lemma to_ulong_elapsed T0 T1 :
  T0 <= T1 < T0 + 2 ^ 32 -> to_ulong (to_ulong T1 - to_ulong T0) = T1 - T0.
Proof.
  intros H. unfold to_ulong. rewrite <- Zminus_mod. apply Z.mod_small. lia.
Qed.

Section Transitions.
Variable tgt : target.
Variable libc_random : Z -> N * Z.

Local Abbreviation calc := (_CalculateBlinkAnimationParameters tgt libc_random).

Ltac pixel_fields := cbn [_hue _direction _brightness _shouldBlink _setTime
  _timeZeroBrightnessWasEncountered _timeFullBrightnessWasEncountered
  _blinkSpeedFactor _zeroBrightnessDelayInMilliseconds
  _fullBrightnessDelayInMilliseconds Id
  set_hue set_direction set_brightness set_setTime set_fullDelay set_zeroDelay
  set_blinkSpeedFactor seed clock ticks rolls].

(** One call on a pixel that is dark and dimming. *)
Lemma zero_hold_step p w :
  _shouldBlink p = true -> _direction p = down -> _brightness p = 0 ->
  let elapsed := to_ulong (reading w 0 - _timeZeroBrightnessWasEncountered p) in
  exists p' w', calc p w = Ok (p', w') /\
    (_direction p' = up <-> elapsed > _zeroBrightnessDelayInMilliseconds p) /\
    (elapsed <= _zeroBrightnessDelayInMilliseconds p -> p' = p) /\
    (elapsed > _zeroBrightnessDelayInMilliseconds p ->
       calc p w =
         (this <- RandomizeColor libc_random (set_direction up p) ;;
          this <- RandomizeSpeedFactor libc_random this ;;
          this <- RandomizeZeroBrightnessDelay libc_random this ;;
          this <- RandomizeFullBrightnessDelay libc_random this ;;
          now <- millis ;;
          ret (set_setTime now this)) (advance 1 w) /\
       rolls w' = rolls w ++ [6; 4; 5000; 15000] /\
       0 <= _hue p' <= 5 /\ 0 <= _blinkSpeedFactor p' <= 3 /\
       500 <= _zeroBrightnessDelayInMilliseconds p' <= 5499 /\
       500 <= _fullBrightnessDelayInMilliseconds p' <= 15499 /\
       _setTime p' = reading w 5 /\
       _brightness p' = 0 /\ _shouldBlink p' = true /\
       (let s1 := seed_in_force (reading w 1) (seed w) in
        let s2 := seed_in_force (reading w 2) (snd (libc_random s1)) in
        let s3 := seed_in_force (reading w 3) (snd (libc_random s2)) in
        let s4 := seed_in_force (reading w 4) (snd (libc_random s3)) in
        _hue p' = Z.rem (Z.of_N (fst (libc_random s1))) 6 /\
        _blinkSpeedFactor p' = Z.rem (Z.of_N (fst (libc_random s2))) 4 /\
        _zeroBrightnessDelayInMilliseconds p'
          = Z.rem (Z.of_N (fst (libc_random s3))) 5000 + 500 /\
        _fullBrightnessDelayInMilliseconds p'
          = Z.rem (Z.of_N (fst (libc_random s4))) 15000 + 500 /\
        seed w' = snd (libc_random s4)) /\
       _timeZeroBrightnessWasEncountered p' = _timeZeroBrightnessWasEncountered p /\
       _timeFullBrightnessWasEncountered p' = _timeFullBrightnessWasEncountered p /\
       Id p' = Id p).
Proof.
  intros Hblink Hdir Hb elapsed.
  destruct (Z.gtb_spec elapsed (_zeroBrightnessDelayInMilliseconds p)) as [Hgt|Hle].
  - assert (Hgt' : elapsed > _zeroBrightnessDelayInMilliseconds p) by lia.
    pose proof (calc_zero_hold_exact tgt libc_random p w Hblink Hdir Hb Hgt') as Hx.
    cbv zeta in Hx.
    eexists; eexists. split; [exact Hx|]. pixel_fields.
    split; [split; [intros; lia|reflexivity]|]. split; [intros; lia|]. intros _.
    split.
    { rewrite Hx. symmetry. rewrite <- Hx.
      unfold _CalculateBlinkAnimationParameters. rewrite Hblink, Hdir, Hb.
      cbn [Z.eqb]. rewrite (bind_Ok _ _ _ _ _ (millis_eq w)).
      fold elapsed. destruct (Z.gtb_spec elapsed (_zeroBrightnessDelayInMilliseconds p));
        [reflexivity|lia]. }
    split; [reflexivity|].
    pose proof (rem_small (fst (libc_random (seed_in_force (reading w 1) (seed w)))) 6
                  ltac:(lia)).
    match goal with |- _ /\ 0 <= Z.rem (Z.of_N ?v) 4 <= 3 /\ _ =>
      pose proof (rem_small v 4 ltac:(lia)) end.
    match goal with |- _ /\ _ /\ 500 <= Z.rem (Z.of_N ?v) 5000 + 500 <= _ /\ _ =>
      pose proof (rem_small v 5000 ltac:(lia)) end.
    match goal with |- _ /\ _ /\ _ /\ 500 <= Z.rem (Z.of_N ?v) 15000 + 500 <= _ /\ _ =>
      pose proof (rem_small v 15000 ltac:(lia)) end.
    split; [lia|]. split; [lia|]. split; [lia|]. split; [lia|].
    split; [reflexivity|]. split; [exact Hb|]. split; [exact Hblink|].
    repeat split; reflexivity.
  - pose proof (calc_zero_hold tgt libc_random p w Hblink Hdir Hb) as Hc.
    fold elapsed in Hc.
    destruct (Z.gtb_spec elapsed (_zeroBrightnessDelayInMilliseconds p)); [lia|].
    eexists; eexists. split; [exact Hc|].
    split; [split; [intros Hup; rewrite Hdir in Hup; discriminate|intros; lia]|].
    split; [reflexivity|]. intros; lia.
Qed.

(** C3. At zero brightness while dimming, the phase becomes Brightening
    exactly when the time since zero brightness exceeds the zero dwell; the
    transition is the four calls RandomizeColor, RandomizeSpeedFactor,
    RandomizeZeroBrightnessDelay, RandomizeFullBrightnessDelay followed by a
    fresh clock reading stored as the phase start. Each call reseeds the
    generator from the clock reading it makes (readings 1 to 4 of the call)
    and stores the generator's output at that seed, reduced by the
    parameter's bound: the new hue is the output modulo 6, the new speed
    factor the output modulo 4, the new dwell times 500 plus the output
    modulo 5000 and modulo 15000. The two brightness stamps and the Id are
    left as they were. *)
Theorem zero_hold_transition p w :
  _shouldBlink p = true -> _direction p = down -> _brightness p = 0 ->
  let elapsed := to_ulong (reading w 0 - _timeZeroBrightnessWasEncountered p) in
  exists p' w', calc p w = Ok (p', w') /\
    (_direction p' = up <-> elapsed > _zeroBrightnessDelayInMilliseconds p) /\
    (elapsed <= _zeroBrightnessDelayInMilliseconds p -> p' = p) /\
    (elapsed > _zeroBrightnessDelayInMilliseconds p ->
       calc p w =
         (this <- RandomizeColor libc_random (set_direction up p) ;;
          this <- RandomizeSpeedFactor libc_random this ;;
          this <- RandomizeZeroBrightnessDelay libc_random this ;;
          this <- RandomizeFullBrightnessDelay libc_random this ;;
          now <- millis ;;
          ret (set_setTime now this)) (advance 1 w) /\
       rolls w' = rolls w ++ [6; 4; 5000; 15000] /\
       0 <= _hue p' <= 5 /\ 0 <= _blinkSpeedFactor p' <= 3 /\
       500 <= _zeroBrightnessDelayInMilliseconds p' <= 5499 /\
       500 <= _fullBrightnessDelayInMilliseconds p' <= 15499 /\
       _setTime p' = reading w 5 /\
       _brightness p' = 0 /\ _shouldBlink p' = true /\
       (let s1 := seed_in_force (reading w 1) (seed w) in
        let s2 := seed_in_force (reading w 2) (snd (libc_random s1)) in
        let s3 := seed_in_force (reading w 3) (snd (libc_random s2)) in
        let s4 := seed_in_force (reading w 4) (snd (libc_random s3)) in
        _hue p' = Z.rem (Z.of_N (fst (libc_random s1))) 6 /\
        _blinkSpeedFactor p' = Z.rem (Z.of_N (fst (libc_random s2))) 4 /\
        _zeroBrightnessDelayInMilliseconds p'
          = Z.rem (Z.of_N (fst (libc_random s3))) 5000 + 500 /\
        _fullBrightnessDelayInMilliseconds p'
          = Z.rem (Z.of_N (fst (libc_random s4))) 15000 + 500 /\
        seed w' = snd (libc_random s4)) /\
       _timeZeroBrightnessWasEncountered p' = _timeZeroBrightnessWasEncountered p /\
       _timeFullBrightnessWasEncountered p' = _timeFullBrightnessWasEncountered p /\
       Id p' = Id p).
Proof. exact (zero_hold_step p w). Qed.

(** C4. At full brightness while brightening, once the time since full
    brightness exceeds the full dwell, the call sets the phase to Dimming,
    the brightness to 255 and the phase start to a fresh clock reading; no
    other field changes and nothing is drawn from the random generator. *)
Theorem full_hold_transition p w :
  _shouldBlink p = true -> _direction p = up -> _brightness p = 255 ->
  to_ulong (reading w 0 - _timeFullBrightnessWasEncountered p)
    > _fullBrightnessDelayInMilliseconds p ->
  exists p', calc p w = Ok (p', advance 2 w) /\
    _direction p' = down /\ _brightness p' = 255 /\ _setTime p' = reading w 1 /\
    _hue p' = _hue p /\ _blinkSpeedFactor p' = _blinkSpeedFactor p /\
    _zeroBrightnessDelayInMilliseconds p' = _zeroBrightnessDelayInMilliseconds p /\
    _fullBrightnessDelayInMilliseconds p' = _fullBrightnessDelayInMilliseconds p /\
    _shouldBlink p' = _shouldBlink p /\
    _timeZeroBrightnessWasEncountered p' = _timeZeroBrightnessWasEncountered p /\
    _timeFullBrightnessWasEncountered p' = _timeFullBrightnessWasEncountered p /\
    Id p' = Id p /\
    rolls (advance 2 w) = rolls w /\ seed (advance 2 w) = seed w.
Proof.
  intros Hblink Hdir Hb Hgt.
  rewrite (calc_full_hold tgt libc_random p w Hblink Hdir Hb).
  destruct (Z.gtb_spec (to_ulong (reading w 0 - _timeFullBrightnessWasEncountered p))
                       (_fullBrightnessDelayInMilliseconds p)); [|lia].
  eexists. split; [reflexivity|]. cbn. repeat split; reflexivity.
Qed.

(** C5 (as amended). The Zero-to-Brightening transition re-rolls exactly four
    parameters: it draws with the bounds of hue, speed factor, zero dwell and
    full dwell, in that order, each draw made at the seed the method's own
    clock reading sets, and the pixel's hue, speed factor, zero dwell and
    full dwell become the values drawn (the dwell times with their minimum
    added). The blink-enabled flag is not drawn again and keeps its value. *)
Theorem transition_rerolls_four p w :
  _shouldBlink p = true -> _direction p = down -> _brightness p = 0 ->
  to_ulong (reading w 0 - _timeZeroBrightnessWasEncountered p)
    > _zeroBrightnessDelayInMilliseconds p ->
  exists p' w', calc p w = Ok (p', w') /\ _direction p' = up /\
    rolls w' = rolls w ++ [6; BLINK_SPEED_FACTOR_PROBABILITY;
                           BLINK_ZERO_BRIGHTNESS_DELAY_PROBABILITY_IN_MILLISECONDS;
                           BLINK_FULL_BRIGHTNESS_DELAY_PROBABILITY_IN_MILLISECONDS] /\
    rerolled w w' 6 /\
    rerolled w w' BLINK_SPEED_FACTOR_PROBABILITY /\
    rerolled w w' BLINK_ZERO_BRIGHTNESS_DELAY_PROBABILITY_IN_MILLISECONDS /\
    rerolled w w' BLINK_FULL_BRIGHTNESS_DELAY_PROBABILITY_IN_MILLISECONDS /\
    ~ rerolled w w' BLINK_PROBABILITY /\
    _shouldBlink p' = _shouldBlink p /\
    (let s1 := seed_in_force (reading w 1) (seed w) in
     let s2 := seed_in_force (reading w 2) (snd (libc_random s1)) in
     let s3 := seed_in_force (reading w 3) (snd (libc_random s2)) in
     let s4 := seed_in_force (reading w 4) (snd (libc_random s3)) in
     _hue p' = Z.rem (Z.of_N (fst (libc_random s1))) 6 /\
     _blinkSpeedFactor p'
       = Z.rem (Z.of_N (fst (libc_random s2))) BLINK_SPEED_FACTOR_PROBABILITY /\
     _zeroBrightnessDelayInMilliseconds p'
       = Z.rem (Z.of_N (fst (libc_random s3)))
               BLINK_ZERO_BRIGHTNESS_DELAY_PROBABILITY_IN_MILLISECONDS
         + BLINK_ZERO_BRIGHTNESS_DELAY_MINIMUM_IN_MILLISECONDS /\
     _fullBrightnessDelayInMilliseconds p'
       = Z.rem (Z.of_N (fst (libc_random s4)))
               BLINK_FULL_BRIGHTNESS_DELAY_PROBABILITY_IN_MILLISECONDS
         + BLINK_FULL_BRIGHTNESS_DELAY_MINIMUM_IN_MILLISECONDS /\
     seed w' = snd (libc_random s4)).
Proof.
  intros Hblink Hdir Hb Hgt.
  pose proof (calc_zero_hold_exact tgt libc_random p w Hblink Hdir Hb Hgt) as Hx.
  cbv zeta in Hx.
  eexists; eexists. split; [exact Hx|]. pixel_fields. split; [reflexivity|].
  split; [reflexivity|].
  match goal with |- rerolled w ?w1 _ /\ _ =>
    assert (Hin : forall b, In b [6; 4; 5000; 15000] -> rerolled w w1 b)
      by (intros b Hb'; exists [6; 4; 5000; 15000]; split; [reflexivity|assumption]) end.
  repeat (split; [apply Hin; cbn; auto|]).
  split; [|split; [reflexivity|repeat split; reflexivity]].
  intros (l & Hl & Hin'). cbn [rolls] in Hl. apply app_inv_head in Hl. subst l.
  cbn in Hin'. unfold BLINK_PROBABILITY in Hin'. intuition discriminate.
Qed.
(** C9. Elapsed times are differences modulo 2^32 of wrapped clock values:
    when the stored stamp was taken at uptime [T0] and the call reads uptime
    [T1], less than 2^32 ms later, each path works with the true elapsed time
    [T1 - T0], also when the 32-bit clock wrapped in between. *)
Theorem elapsed_survives_wraparound p w T0 :
  wf p -> _shouldBlink p = true ->
  let T1 := clock w (ticks w) in
  T0 <= T1 < T0 + 2 ^ 32 ->
  to_ulong (reading w 0 - to_ulong T0) = T1 - T0 /\
  (_direction p = down -> _brightness p = 0 ->
   _timeZeroBrightnessWasEncountered p = to_ulong T0 ->
     exists p' w', calc p w = Ok (p', w') /\
       (_direction p' = up <-> T1 - T0 > _zeroBrightnessDelayInMilliseconds p)) /\
  (_direction p = up -> _brightness p = 255 ->
   _timeFullBrightnessWasEncountered p = to_ulong T0 ->
     exists p' w', calc p w = Ok (p', w') /\
       (_direction p' = down <-> T1 - T0 > _fullBrightnessDelayInMilliseconds p)) /\
  (_direction p = down -> _brightness p <> 0 -> _setTime p = to_ulong T0 ->
     exists p' w', calc p w = Ok (p', w') /\
       f32_to_uint8 (dimmed (T1 - T0) (blinkSpeedOf p)) = Ok (_brightness p')) /\
  (_direction p = up -> _brightness p <> 255 -> _setTime p = to_ulong T0 ->
     exists p' w', calc p w = Ok (p', w') /\
       f32_to_uint8 (brightened (T1 - T0) (blinkSpeedOf p)) = Ok (_brightness p')).
Proof.
  intros Hwf Hblink T1 HT.
  assert (He : to_ulong (reading w 0 - to_ulong T0) = T1 - T0)
    by (apply to_ulong_elapsed; assumption).
  split; [exact He|]. split; [|split; [|split]].
  - intros Hdir Hb Hst.
    destruct (zero_hold_step p w Hblink Hdir Hb) as (p' & w' & Heq & Hiff & _).
    rewrite Hst, He in Hiff. exists p', w'. split; assumption.
  - intros Hdir Hb Hst.
    rewrite (calc_full_hold tgt libc_random p w Hblink Hdir Hb), Hst, He.
    destruct (Z.gtb_spec (T1 - T0) (_fullBrightnessDelayInMilliseconds p)).
    + eexists; eexists. split; [reflexivity|]. cbn. split; [intros; lia|reflexivity].
    + eexists; eexists. split; [reflexivity|].
      split; [intros Hd; rewrite Hdir in Hd; discriminate|intros; lia].
  - intros Hdir Hb Hst.
    destruct (ramp_step tgt libc_random p w Hwf Hblink) as (H & _).
    destruct (H Hdir Hb) as (p' & w' & Heq & Hv & _).
    rewrite Hst, He in Hv. exists p', w'. split; assumption.
  - intros Hdir Hb Hst.
    destruct (ramp_step tgt libc_random p w Hwf Hblink) as (_ & H).
    destruct (H Hdir Hb) as (p' & w' & Heq & Hv & _).
    rewrite Hst, He in Hv. exists p', w'. split; assumption.
Qed.
End Transitions.

Lemma in_int_range t z : INT_MIN t <= z <= INT_MAX t -> in_int t z = Ok z.
Proof.
  intros H. unfold in_int.
  replace ((INT_MIN t <=? z) && (z <=? INT_MAX t)) with true; [reflexivity|].
  symmetry. apply andb_true_iff. split; apply Z.leb_le; lia.
Qed.

Lemma INT_MAX_pos t : 32767 <= INT_MAX t.
Proof. destruct t; cbn; lia. Qed.

Lemma channel_ok t b w :
  0 <= b -> 0 <= w -> b * w <= INT_MAX t -> channel t b w = Ok (b * w / 255).
Proof.
  intros Hb Hw Hle. unfold channel, int_mul, int_div.
  pose proof (INT_MAX_pos t). assert (0 <= b * w) by nia.
  rewrite in_int_range by (unfold INT_MIN; lia). cbn [rbind].
  rewrite Z.quot_div_nonneg by lia.
  assert (0 <= b * w / 255 <= b * w).
  { split; [apply Z.div_pos; lia|]. apply Z.div_le_upper_bound; lia. }
  apply in_int_range. unfold INT_MIN. lia.
Qed.

Lemma valid_hue_cases h :
  0 <= h <= 5 ->
  h = red \/ h = green \/ h = blue \/ h = yellow \/ h = purple \/ h = orange.
Proof. unfold red, green, blue, yellow, purple, orange. lia. Qed.

(** Without overflow, each channel is weight * brightness / 255. *)
Lemma hueColor_table t h b :
  0 <= h <= 5 -> 0 <= b -> b * 255 <= INT_MAX t ->
  hueColor t h b =
    let '(wr, wg, wb) := hue_weights h in
    Ok (Color (b * wr / 255) (b * wg / 255) (b * wb / 255)).
Proof.
  intros Hh Hb Hmax.
  assert (H255 : channel t b 255 = Ok (b * 255 / 255)) by (apply channel_ok; lia).
  assert (H200 : channel t b 200 = Ok (b * 200 / 255)) by (apply channel_ok; lia).
  assert (H100 : channel t b 100 = Ok (b * 100 / 255)) by (apply channel_ok; lia).
  assert (H30 : channel t b 30 = Ok (b * 30 / 255)) by (apply channel_ok; lia).
  assert (H0 : b * 0 / 255 = 0) by (rewrite Z.mul_0_r; reflexivity).
  destruct (valid_hue_cases h Hh) as [->|[->|[->|[->|[->| ->]]]]];
    unfold hueColor, hue_weights; cbn [Z.eqb Pos.eqb red green blue yellow purple orange];
    rewrite ?H255, ?H200, ?H100, ?H30, ?H0; reflexivity.
Qed.

Lemma in_int_cases t z : in_int t z = Ok z \/ in_int t z = UB SignedOverflow.
Proof. unfold in_int. destruct (_ && _); auto. Qed.

Lemma channel_cases t b w :
  (exists c, channel t b w = Ok c) \/ channel t b w = UB SignedOverflow.
Proof.
  unfold channel, int_mul, int_div.
  destruct (in_int_cases t (b * w)) as [-> | ->]; cbn [rbind]; [|auto].
  destruct (in_int_cases t (Z.quot (b * w) 255)) as [-> | ->]; eauto.
Qed.

(** With a valid hue the switch always takes one of its six cases. *)
Lemma hueColor_returns t h b :
  0 <= h <= 5 -> hueColor t h b <> UB NoReturnValue.
Proof.
  intros Hh.
  destruct (valid_hue_cases h Hh) as [->|[->|[->|[->|[->| ->]]]]];
    unfold hueColor; cbn [Z.eqb Pos.eqb red green blue yellow purple orange];
    repeat match goal with
    | |- context [channel t b ?w] =>
        destruct (channel_cases t b w) as [[? ->]| ->]; cbn [rbind]
    end; discriminate.
Qed.

Lemma hueColor_dark t h : 0 <= h <= 5 -> hueColor t h 0 = Ok 0.
Proof.
  intros Hh. pose proof (INT_MAX_pos t).
  rewrite hueColor_table by lia.
  destruct (valid_hue_cases h Hh) as [->|[->|[->|[->|[->| ->]]]]]; reflexivity.
Qed.

Section Colours.
Variable tgt : target.
Variable libc_random : Z -> N * Z.

Local Abbreviation calc := (_CalculateBlinkAnimationParameters tgt libc_random).

Lemma GetColor_seq_static p :
  _shouldBlink p = false ->
  forall ws,
    GetColor_seq tgt libc_random ws p =
    match hueColor tgt (_hue p) (_brightness p) with
    | Ok c => Ok (repeat c (length ws), p)
    | UB u => match ws with [] => Ok ([], p) | _ => UB u end
    end.
Proof.
  intros Hs ws. induction ws as [|w ws IH]; cbn [GetColor_seq].
  - destruct (hueColor _ _ _); reflexivity.
  - rewrite GetColor_eq, (calc_static tgt libc_random p w Hs).
    destruct (hueColor tgt (_hue p) (_brightness p)) as [c|u]; [|reflexivity].
    rewrite IH. reflexivity.
Qed.

(** C8. A pixel whose blink flag is false is never modified: the update
    returns the same pixel and the same world, and any sequence of GetColor
    calls, whatever the clock, leaves the pixel as it is and returns the same
    colour each time. *)
Theorem static_pixel_is_constant p :
  _shouldBlink p = false ->
  (forall w, calc p w = Ok (p, w)) /\
  (forall ws cs p', GetColor_seq tgt libc_random ws p = Ok (cs, p') ->
     p' = p /\ _brightness p' = _brightness p /\ length cs = length ws /\
     forall c, In c cs -> hueColor tgt (_hue p) (_brightness p) = Ok c) /\
  (forall c, hueColor tgt (_hue p) (_brightness p) = Ok c ->
     forall ws, GetColor_seq tgt libc_random ws p = Ok (repeat c (length ws), p)).
Proof.
  intros Hs. split; [intros w; apply calc_static; assumption|]. split.
  - intros ws cs p' H. rewrite (GetColor_seq_static p Hs) in H.
    destruct (hueColor tgt (_hue p) (_brightness p)) as [c|u].
    + injection H as <- <-. split; [reflexivity|]. split; [reflexivity|].
      split; [apply repeat_length|]. intros c' Hin.
      apply repeat_spec in Hin. subst; reflexivity.
    + destruct ws; [|discriminate]. injection H as <- <-.
      split; [reflexivity|]. split; [reflexivity|]. split; [reflexivity|].
      intros c' [].
  - intros c Hc ws. rewrite (GetColor_seq_static p Hs), Hc. reflexivity.
Qed.

Lemma ChristmasPixel_ctor_run p w :
  ChristmasPixel_ctor p w =
    Ok (set_direction down (set_brightness 255 (set_setTime (reading w 0) p)),
        advance 1 w).
Proof. reflexivity. Qed.

(** C10. RandomizeColor leaves one of the six enumerators in the hue field,
    every other method keeps a valid hue valid, and with a valid hue GetColor
    never falls off the end of its switch. *)
Theorem hue_stays_valid p w :
  (exists p' w', RandomizeColor libc_random p w = Ok (p', w') /\ valid_hue p') /\
  (valid_hue p ->
     (exists p' w', RandomizeSpeedFactor libc_random p w = Ok (p', w') /\ valid_hue p') /\
     (exists p' w', RandomizeBlinkability libc_random p w = Ok (p', w') /\ valid_hue p') /\
     (exists p' w', RandomizeZeroBrightnessDelay libc_random p w = Ok (p', w')
                    /\ valid_hue p') /\
     (exists p' w', RandomizeFullBrightnessDelay libc_random p w = Ok (p', w')
                    /\ valid_hue p') /\
     (exists p' w', ChristmasPixel_ctor p w = Ok (p', w') /\ valid_hue p') /\
     (wf p -> exists p' w', calc p w = Ok (p', w') /\ valid_hue p') /\
     (wf p -> GetColor tgt libc_random p w <> UB NoReturnValue) /\
     (forall b, hueColor tgt (_hue p) b <> UB NoReturnValue)).
Proof.
  split.
  - destruct (RandomizeColor_run libc_random p w) as (r & w' & H & Hr & _).
    exists (set_hue r p), w'. split; [assumption|]. exact Hr.
  - intros Hv. repeat split.
    + destruct (RandomizeSpeedFactor_run libc_random p w) as (r & w' & H & _).
      exists (set_blinkSpeedFactor r p), w'. split; [assumption|exact Hv].
    + destruct (RandomizeBlinkability_run libc_random p w) as (w' & H & _).
      exists (set_shouldBlink true p), w'. split; [assumption|exact Hv].
    + destruct (RandomizeZeroBrightnessDelay_run libc_random p w) as (r & w' & H & _).
      exists (set_zeroDelay r p), w'. split; [assumption|exact Hv].
    + destruct (RandomizeFullBrightnessDelay_run libc_random p w) as (r & w' & H & _).
      exists (set_fullDelay r p), w'. split; [assumption|exact Hv].
    + eexists; eexists. split; [apply ChristmasPixel_ctor_run|exact Hv].
    + intros Hwf. destruct (calc_total tgt libc_random p w Hwf) as (p' & w' & H & _ & Hv').
      exists p', w'. split; [assumption|auto].
    + intros Hwf. destruct (calc_total tgt libc_random p w Hwf) as (p' & w' & H & _ & Hv').
      rewrite GetColor_eq, H.
      pose proof (hueColor_returns tgt (_hue p') (_brightness p') (Hv' Hv)) as Hn.
      destruct (hueColor tgt (_hue p') (_brightness p')) as [c|u]; [discriminate|].
      intros Heq. apply Hn. injection Heq as ->. reflexivity.
    + intros b. apply hueColor_returns. exact Hv.
Qed.
End Colours.

Lemma frozen_reading T w i : frozen T w -> reading w i = to_ulong T.
Proof. intros H. unfold reading. rewrite H. reflexivity. Qed.

Lemma to_ulong_idem z : to_ulong (to_ulong z) = to_ulong z.
Proof. unfold to_ulong. apply Z.mod_mod. lia. Qed.

Section Boundary.
Variable tgt : target.
Variable libc_random : Z -> N * Z.

Local Abbreviation calc := (_CalculateBlinkAnimationParameters tgt libc_random).

(** C7 (as amended). With no zero dwell, a call whose clock stands at least
    one ramp length after the phase start brings the brightness to 0 and
    records that time, still in phase Dimming; a second call at the same
    clock value changes nothing and returns the same colour; the phase
    becomes Brightening at the first call whose clock reads later. *)
Theorem dimming_ends_in_zero_hold p w T :
  wf p -> valid_hue p ->
  _shouldBlink p = true -> _direction p = down -> _brightness p <> 0 ->
  _zeroBrightnessDelayInMilliseconds p = 0 ->
  frozen T w -> blinkSpeedOf p <= to_ulong (to_ulong T - _setTime p) ->
  let p1 := set_timeZero (to_ulong T) (set_brightness 0 p) in
  GetColor tgt libc_random p w = Ok ((0, p1), advance 2 w) /\
  _direction p1 = down /\ _brightness p1 = 0 /\
  (forall w2, frozen T w2 ->
     GetColor tgt libc_random p1 w2 = Ok ((0, p1), advance 1 w2)) /\
  (forall w2, 0 < to_ulong (reading w2 0 - to_ulong T) ->
     exists p2 w3, GetColor tgt libc_random p1 w2 = Ok ((0, p2), w3) /\
       _direction p2 = up).
Proof.
  intros Hwf Hv Hblink Hdir Hne Hz Hfr Hel p1.
  pose proof Hwf as (_ & Hf & _).
  destruct (_CalculateBlinkSpeed_ok tgt p Hf) as [_ Hs].
  assert (Hp1 : _shouldBlink p1 = true /\ _direction p1 = down /\ _brightness p1 = 0)
    by (unfold p1; cbn; auto).
  destruct Hp1 as (Hblink1 & Hdir1 & Hb1).
  split; [|split; [assumption|split; [assumption|split]]].
  - destruct (calc_dimming tgt libc_random p w Hblink Hdir Hne Hf) as (b & Hb & _ & Heq).
    rewrite (frozen_reading T w 0 Hfr) in Hb.
    destruct (dimmed_spec (to_ulong (to_ulong T - _setTime p)) (blinkSpeedOf p)
                (to_ulong_range _) ltac:(lia)) as (b' & Hb' & _ & H0 & _).
    rewrite Hb in Hb'. injection Hb' as <-. rewrite (H0 Hel) in Heq. cbn [Z.eqb] in Heq.
    rewrite (frozen_reading T w 1 Hfr) in Heq. fold p1 in Heq.
    rewrite GetColor_eq, Heq. unfold p1 at 1 2. cbn [_hue _brightness set_timeZero set_brightness].
    rewrite hueColor_dark by exact Hv. reflexivity.
  - intros w2 Hfr2.
    pose proof (calc_zero_hold tgt libc_random p1 w2 Hblink1 Hdir1 Hb1) as Hc.
    rewrite (frozen_reading T w2 0 Hfr2) in Hc.
    assert (He : to_ulong (to_ulong T - _timeZeroBrightnessWasEncountered p1) = 0).
    { unfold p1. cbn [_timeZeroBrightnessWasEncountered set_timeZero].
      rewrite Z.sub_diag. reflexivity. }
    rewrite He in Hc.
    assert (Hz1 : _zeroBrightnessDelayInMilliseconds p1 = 0) by (unfold p1; cbn; assumption).
    rewrite Hz1 in Hc. cbn [Z.gtb Z.compare] in Hc.
    rewrite GetColor_eq, Hc, Hb1. rewrite hueColor_dark by (unfold p1; cbn; exact Hv).
    reflexivity.
  - intros w2 Hlater.
    pose proof (calc_zero_hold tgt libc_random p1 w2 Hblink1 Hdir1 Hb1) as Hc.
    assert (Hz1 : _zeroBrightnessDelayInMilliseconds p1 = 0) by (unfold p1; cbn; assumption).
    assert (Ht1 : _timeZeroBrightnessWasEncountered p1 = to_ulong T) by reflexivity.
    rewrite Hz1, Ht1 in Hc.
    destruct (Z.gtb_spec (to_ulong (reading w2 0 - to_ulong T)) 0); [|lia].
    destruct Hc as (h & f & z & fl & w' & Heq & Hh & _).
    eexists; eexists. rewrite GetColor_eq, Heq.
    cbn [_hue _brightness set_setTime set_fullDelay set_zeroDelay set_blinkSpeedFactor
         set_hue set_direction _direction].
    rewrite Hb1, hueColor_dark by exact Hh. split; reflexivity.
Qed.
End Boundary.

(** C6. The colour returned is a function of the hue and brightness after
    the update, each channel being weight * brightness / 255 in [int]
    arithmetic whenever the products fit an [int]; they do on 32-bit targets.
    On AVR, where [int] has 16 bits, the products of brightness 255 overflow:
    every hue at full brightness is undefined there, as is [GetColor] on a
    purple pixel called at the very start of its dimming ramp. *)
Theorem color_channels :
  (forall tgt rnd p w,
     GetColor tgt rnd p w =
     match _CalculateBlinkAnimationParameters tgt rnd p w with
     | Ok (p', w') =>
       match hueColor tgt (_hue p') (_brightness p') with
       | Ok c => Ok ((c, p'), w')
       | UB u => UB u
       end
     | UB u => UB u
     end) /\
  (forall tgt h b, 0 <= h <= 5 -> 0 <= b -> b * 255 <= INT_MAX tgt ->
     hueColor tgt h b =
       let '(wr, wg, wb) := hue_weights h in
       Ok (Color (b * wr / 255) (b * wg / 255) (b * wb / 255))) /\
  hueColor ARM32 red 128 = Ok (Color 128 0 0) /\
  hueColor ARM32 yellow 255 = Ok (Color 255 100 0) /\
  hueColor ARM32 purple 255 = Ok (Color 200 0 200) /\
  hueColor ARM32 orange 255 = Ok (Color 255 30 0) /\
  hueColor AVR red 128 = Ok (Color 128 0 0) /\
  hueColor AVR yellow 255 = UB SignedOverflow /\
  hueColor AVR purple 255 = UB SignedOverflow /\
  hueColor AVR orange 255 = UB SignedOverflow /\
  GetColor AVR park_miller (blinker purple down 255 0 1000 0) (world_at 1000)
    = UB SignedOverflow /\
  GetColor ARM32 park_miller (blinker purple down 255 0 1000 0) (world_at 1000)
    = Ok ((Color 200 0 200, blinker purple down 255 0 1000 0),
          advance 1 (world_at 1000)).
Proof.
  split; [intros; apply GetColor_eq|]. split; [intros; apply hueColor_table; assumption|].
  repeat split; reflexivity.
Qed.

Lemma wf_blinker h d b f st tz :
  0 <= b <= 255 -> 0 <= f <= 255 -> 0 <= st < 2 ^ 32 -> 0 <= tz < 2 ^ 32 ->
  wf (blinker h d b f st tz).
Proof. intros. unfold wf. cbn. lia. Qed.

(** C1, at a red pixel half way down a 1070 ms ramp. *)
Lemma brightness_stays_in_range_witness :
  exists p' w',
    _CalculateBlinkAnimationParameters AVR park_miller
      (blinker red down 255 10 5000 0) (world_at 5535) = Ok (p', w') /\
    wf p' /\ 0 <= _brightness p' <= 255.
Proof.
  apply (brightness_stays_in_range AVR park_miller (blinker red down 255 10 5000 0)
           (world_at 5535)).
  apply wf_blinker; lia.
Defined.

(** C2, on a run: ramp 1070 ms started at 5000; at 5535 the brightness is
    127, and at 6070 it is 0 with the zero-brightness time recorded. *)
Lemma ramp_is_linear_witness :
  (exists p' w',
     _CalculateBlinkAnimationParameters AVR park_miller
       (blinker red down 255 10 5000 0) (world_at 5535) = Ok (p', w') /\
     _brightness p' = 127) /\
  (exists p' w',
     _CalculateBlinkAnimationParameters AVR park_miller
       (blinker red down 127 10 5000 0) (world_at 6070) = Ok (p', w') /\
     _brightness p' = 0 /\ _timeZeroBrightnessWasEncountered p' = 6070).
Proof.
  split.
  - assert (Hwf : wf (blinker red down 255 10 5000 0)) by (apply wf_blinker; lia).
    destruct (ramp_is_linear AVR park_miller (blinker red down 255 10 5000 0)
                (world_at 5535) Hwf eq_refl) as (H & _).
    destruct (H eq_refl ltac:(discriminate)) as (p' & w' & Heq & Hv & _).
    exists p', w'. split; [exact Heq|].
    vm_compute in Hv. injection Hv as Hv. symmetry. exact Hv.
  - assert (Hwf : wf (blinker red down 127 10 5000 0)) by (apply wf_blinker; lia).
    destruct (ramp_is_linear AVR park_miller (blinker red down 127 10 5000 0)
                (world_at 6070) Hwf eq_refl) as (H & _).
    destruct (H eq_refl ltac:(discriminate)) as (p' & w' & Heq & Hv & _ & _ & Hz & _).
    exists p', w'. split; [exact Heq|].
    vm_compute in Hv. injection Hv as Hv. split; [symmetry; exact Hv|].
    apply Hz. symmetry. exact Hv.
Defined.

(** The generator on a state of 2^31 or more, which it reads as negative. *)
Example park_miller_signed_state :
  park_miller 3000000000 = (231418473%N, 231418473) /\
  park_miller 1001 = (16823807%N, 16823807) /\
  park_miller 0 = park_miller 123459876.
Proof. repeat split; vm_compute; reflexivity. Qed.

(** C3, at a pixel that reached zero at 1000 and is called at 1001: the red
    pixel becomes orange, with speed factor 3 and dwell times 4307 and
    9307 ms, all four from the generator's output 16823807 at seed 1001. *)
Lemma zero_hold_transition_witness :
  exists p' w',
    _CalculateBlinkAnimationParameters AVR park_miller
      (blinker red down 0 0 0 1000) (world_at 1001) = Ok (p', w') /\
    _direction p' = up /\ rolls w' = [6; 4; 5000; 15000] /\ _setTime p' = 1001 /\
    _hue p' = orange /\ _blinkSpeedFactor p' = 3 /\
    _zeroBrightnessDelayInMilliseconds p' = 4307 /\
    _fullBrightnessDelayInMilliseconds p' = 9307.
Proof.
  destruct (zero_hold_transition AVR park_miller (blinker red down 0 0 0 1000)
              (world_at 1001) eq_refl eq_refl eq_refl)
    as (p' & w' & Heq & Hiff & _ & Ht).
  exists p', w'. split; [exact Heq|].
  assert (Hgt : to_ulong (reading (world_at 1001) 0 - 1000) > 0) by (vm_compute; reflexivity).
  split; [apply Hiff; exact Hgt|].
  destruct (Ht Hgt) as (_ & Hr & _ & _ & _ & _ & Hs & _ & _ & Hd & _).
  split; [exact Hr|]. split; [exact Hs|].
  cbv zeta in Hd. destruct Hd as (Hh & Hf & Hz & Hfl & _).
  rewrite Hh, Hf, Hz, Hfl. repeat split; vm_compute; reflexivity.
Defined.

(** C4, at a pixel that reached full brightness at 0 and is called at 9. *)
Lemma full_hold_transition_witness :
  exists p',
    _CalculateBlinkAnimationParameters AVR park_miller
      (blinker purple up 255 2 0 0) (world_at 9) = Ok (p', advance 2 (world_at 9)) /\
    _direction p' = down /\ _brightness p' = 255 /\ _hue p' = purple /\
    _blinkSpeedFactor p' = 2.
Proof.
  destruct (full_hold_transition AVR park_miller (blinker purple up 255 2 0 0)
              (world_at 9) eq_refl eq_refl eq_refl ltac:(vm_compute; reflexivity))
    as (p' & Heq & Hd & Hb & _ & Hh & Hf & _).
  exists p'. repeat (split; [assumption|]). assumption.
Defined.

(** C5: the transition at clock 1001 of a pixel dark since 1000 draws four
    values; the bound of the blink flag is not among them. *)
Lemma five_rerolls_counterexample :
  exists p' w',
    _CalculateBlinkAnimationParameters AVR park_miller
      (blinker red down 0 0 0 1000) (world_at 1001) = Ok (p', w') /\
    _direction p' = up /\
    rolls w' = [6; 4; 5000; 15000] /\
    ~ rerolled (world_at 1001) w' BLINK_PROBABILITY.
Proof.
  eexists; eexists. split; [vm_compute; reflexivity|]. split; [reflexivity|].
  split; [reflexivity|].
  intros (l & Hl & Hin). cbn in Hl. subst l. cbn in Hin.
  unfold BLINK_PROBABILITY in Hin. intuition discriminate.
Qed.

(** C5 as amended, on the same call: the four parameters take the values
    drawn at seed 1001 and the blink flag is as before. *)
Lemma transition_rerolls_four_witness :
  exists p' w',
    _CalculateBlinkAnimationParameters AVR park_miller
      (blinker red down 0 0 0 1000) (world_at 1001) = Ok (p', w') /\
    _direction p' = up /\ ~ rerolled (world_at 1001) w' BLINK_PROBABILITY /\
    _shouldBlink p' = true /\
    _hue p' = orange /\ _blinkSpeedFactor p' = 3 /\
    _zeroBrightnessDelayInMilliseconds p' = 4307 /\
    _fullBrightnessDelayInMilliseconds p' = 9307.
Proof.
  destruct (transition_rerolls_four AVR park_miller (blinker red down 0 0 0 1000)
              (world_at 1001) eq_refl eq_refl eq_refl ltac:(vm_compute; reflexivity))
    as (p' & w' & Heq & Hd & _ & _ & _ & _ & _ & Hn & Hs & Hv).
  exists p', w'. split; [exact Heq|]. split; [exact Hd|]. split; [exact Hn|].
  split; [exact Hs|]. cbv zeta in Hv. destruct Hv as (Hh & Hf & Hz & Hfl & _).
  rewrite Hh, Hf, Hz, Hfl. repeat split; vm_compute; reflexivity.
Defined.

(** C7: ramp of 70 ms started at 1000, no dwell. The call at 1070 leaves the
    pixel dark and still Dimming, and so does a second call at 1070. *)
Lemma boundary_counterexample :
  exists c p1 w1 c2 p2 w2,
    GetColor AVR park_miller (blinker red down 255 0 1000 0) (world_at 1070)
      = Ok ((c, p1), w1) /\
    _brightness p1 = 0 /\ _direction p1 = down /\
    GetColor AVR park_miller p1 (world_at 1070) = Ok ((c2, p2), w2) /\
    _direction p2 = down /\ c2 = c.
Proof.
  do 6 eexists. split; [vm_compute; reflexivity|]. split; [reflexivity|].
  split; [reflexivity|]. split; [vm_compute; reflexivity|]. split; reflexivity.
Qed.

Lemma frozen_world_at t : frozen t (world_at t).
Proof. intros n. reflexivity. Qed.

Lemma dimming_ends_in_zero_hold_witness :
  GetColor AVR park_miller (blinker red down 255 0 1000 0) (world_at 1070)
    = Ok ((0, set_timeZero 1070 (set_brightness 0 (blinker red down 255 0 1000 0))),
          advance 2 (world_at 1070)).
Proof.
  apply (dimming_ends_in_zero_hold AVR park_miller (blinker red down 255 0 1000 0)
           (world_at 1070) 1070).
  - apply wf_blinker; lia.
  - unfold valid_hue, red. cbn. lia.
  - reflexivity.
  - reflexivity.
  - discriminate.
  - reflexivity.
  - apply frozen_world_at.
  - vm_compute. discriminate.
Defined.

(** C8, at a static green pixel over three frames at different times. *)
Lemma static_pixel_is_constant_witness :
  GetColor_seq ARM32 park_miller [world_at 5; world_at 70000; world_at 1]
    (set_shouldBlink false (blinker green down 255 0 0 0))
  = Ok ([Color 0 255 0; Color 0 255 0; Color 0 255 0],
        set_shouldBlink false (blinker green down 255 0 0 0)).
Proof.
  destruct (static_pixel_is_constant ARM32 park_miller
              (set_shouldBlink false (blinker green down 255 0 0 0)) eq_refl)
    as (_ & _ & H).
  apply (H (Color 0 255 0) eq_refl [world_at 5; world_at 70000; world_at 1]).
Defined.

(** C9, across the wrap: the phase started 100 ms before the 32-bit clock
    overflowed and the call comes 435 ms after it. *)
Lemma elapsed_survives_wraparound_witness :
  to_ulong (reading (world_at 4294967731) 0 - to_ulong 4294967196) = 535 /\
  exists p' w',
    _CalculateBlinkAnimationParameters AVR park_miller
      (blinker red down 255 10 4294967196 0) (world_at 4294967731) = Ok (p', w') /\
    f32_to_uint8 (dimmed 535 1070) = Ok (_brightness p').
Proof.
  assert (Hwf : wf (blinker red down 255 10 4294967196 0)) by (apply wf_blinker; lia).
  assert (HT : 4294967196 <= clock (world_at 4294967731) (ticks (world_at 4294967731))
               < 4294967196 + 2 ^ 32) by (cbn; lia).
  destruct (elapsed_survives_wraparound AVR park_miller
              (blinker red down 255 10 4294967196 0) (world_at 4294967731) 4294967196
              Hwf eq_refl HT)
    as (He & _ & _ & Hd & _).
  split; [exact He|].
  apply (Hd eq_refl ltac:(discriminate) eq_refl).
Defined.

(** * Further properties of the sketch *)

Section Drawing.
Variable tgt : target.
Variable libc_random : Z -> N * Z.

Local Abbreviation calc := (_CalculateBlinkAnimationParameters tgt libc_random).

(** X1. With BLINK_PROBABILITY 0 every pixel is made a blinker:
    [random(0)] returns 0 without advancing the generator, so
    RandomizeBlinkability always stores [true]; it touches no other field and
    changes the generator only through the reseed. *)
Theorem every_pixel_blinks p w :
  exists w', RandomizeBlinkability libc_random p w = Ok (set_shouldBlink true p, w') /\
    seed w' = (if reading w 0 =? 0 then seed w else reading w 0) /\
    rolls w' = rolls w ++ [BLINK_PROBABILITY] /\
    ticks w' = S (ticks w).
Proof.
  unfold RandomizeBlinkability, bind, millis, randomSeed, random, ret, BLINK_PROBABILITY.
  cbn [Z.eqb]. change (to_ulong (clock w (ticks w))) with (reading w 0).
  destruct (reading w 0 =? 0); eexists; (split; [reflexivity|]); cbn; auto.
Qed.

(** X2. RandomizeSpeedFactor leaves a factor of 0..3, and on either target
    the ramp length computed from it is 70, 170, 270 or 370 ms; for any
    factor a [uint8_t] can hold, [_CalculateBlinkSpeed] neither overflows
    [int] nor loses bits in its [uint16_t] result. *)
Theorem ramp_lengths p w :
  (exists f w', RandomizeSpeedFactor libc_random p w = Ok (set_blinkSpeedFactor f p, w') /\
     0 <= f <= 3 /\
     _CalculateBlinkSpeed tgt (set_blinkSpeedFactor f p) = Ok (70 + 100 * f)) /\
  (0 <= _blinkSpeedFactor p <= 255 ->
     _CalculateBlinkSpeed tgt p = Ok (100 * _blinkSpeedFactor p + 70)).
Proof.
  split.
  - destruct (RandomizeSpeedFactor_run libc_random p w) as (f & w' & H & Hf & _).
    exists f, w'. split; [exact H|]. split; [exact Hf|].
    destruct (_CalculateBlinkSpeed_ok tgt (set_blinkSpeedFactor f p)) as [He _].
    { cbn. lia. }
    rewrite He. unfold blinkSpeedOf. cbn [_blinkSpeedFactor set_blinkSpeedFactor]. f_equal.
    unfold BLINK_SPEED_FACTOR_MULTIPLIER_IN_MILLISECONDS,
      BLINK_SPEED_MINIMUM_IN_MILLISECONDS. lia.
  - intros Hf. destruct (_CalculateBlinkSpeed_ok tgt p Hf) as [He _].
    rewrite He. unfold blinkSpeedOf. f_equal.
    unfold BLINK_SPEED_FACTOR_MULTIPLIER_IN_MILLISECONDS,
      BLINK_SPEED_MINIMUM_IN_MILLISECONDS. lia.
Qed.

(** X3. The dwell times drawn are 500..5499 ms at zero brightness and
    500..15499 ms at full brightness; both fit their [uint16_t] fields, and
    each method writes its own field only. *)
Theorem dwell_ranges p w :
  (exists z w', RandomizeZeroBrightnessDelay libc_random p w = Ok (set_zeroDelay z p, w') /\
     500 <= z <= 5499) /\
  (exists f w', RandomizeFullBrightnessDelay libc_random p w = Ok (set_fullDelay f p, w') /\
     500 <= f <= 15499).
Proof.
  split.
  - destruct (RandomizeZeroBrightnessDelay_run libc_random p w) as (z & w' & H & Hz & _).
    exists z, w'. split; assumption.
  - destruct (RandomizeFullBrightnessDelay_run libc_random p w) as (f & w' & H & Hf & _).
    exists f, w'. split; assumption.
Qed.
End Drawing.

Section Changes.
Variable tgt : target.
Variable libc_random : Z -> N * Z.

Local Abbreviation calc := (_CalculateBlinkAnimationParameters tgt libc_random).

(** X4. The phase changes only at an extreme of the brightness, after the
    dwell there has been exceeded; hue, speed factor and the two dwell times
    change only on the change from Dimming to Brightening; the blink flag
    and the Id never change. *)
Theorem changes_only_at_extremes p w p' w' :
  wf p -> calc p w = Ok (p', w') ->
  (_direction p' <> _direction p ->
     (_direction p = down /\ _brightness p = 0 /\ _direction p' = up /\
      to_ulong (reading w 0 - _timeZeroBrightnessWasEncountered p)
        > _zeroBrightnessDelayInMilliseconds p) \/
     (_direction p = up /\ _brightness p = 255 /\ _direction p' = down /\
      to_ulong (reading w 0 - _timeFullBrightnessWasEncountered p)
        > _fullBrightnessDelayInMilliseconds p)) /\
  (_hue p' <> _hue p \/ _blinkSpeedFactor p' <> _blinkSpeedFactor p \/
   _zeroBrightnessDelayInMilliseconds p' <> _zeroBrightnessDelayInMilliseconds p \/
   _fullBrightnessDelayInMilliseconds p' <> _fullBrightnessDelayInMilliseconds p ->
     _direction p = down /\ _brightness p = 0 /\ _direction p' = up) /\
  _shouldBlink p' = _shouldBlink p /\ Id p' = Id p.
Proof.
  intros Hwf Heq. pose proof Hwf as (_ & Hf & _).
  destruct (_shouldBlink p) eqn:Hblink.
  2:{ rewrite (calc_static tgt libc_random p w Hblink) in Heq. injection Heq as <- <-.
      rewrite Hblink. split; [intros Hx; contradiction|]. split; [|auto].
      intros [Hx|[Hx|[Hx|Hx]]]; contradiction. }
  destruct (_direction p) eqn:Hdir.
  - destruct (Z.eq_dec (_brightness p) 255) as [H255|Hn255].
    + rewrite (calc_full_hold tgt libc_random p w Hblink Hdir H255) in Heq.
      destruct (Z.gtb_spec (to_ulong (reading w 0 - _timeFullBrightnessWasEncountered p))
                           (_fullBrightnessDelayInMilliseconds p));
        injection Heq as <- <-; cbn.
      * split; [intros _; right; repeat split; auto; lia|]. split; [|auto].
        intros [Hx|[Hx|[Hx|Hx]]]; contradiction.
      * rewrite Hdir, Hblink. split; [intros Hx; contradiction|]. split; [|auto].
        intros [Hx|[Hx|[Hx|Hx]]]; contradiction.
    + destruct (calc_brightening tgt libc_random p w Hblink Hdir Hn255 Hf)
        as (b & _ & _ & Hc).
      rewrite Hc in Heq.
      destruct (b =? 255); injection Heq as <- <-; cbn; rewrite ?Hdir;
        (split; [intros Hx; contradiction|]); (split; [|auto]);
        intros [Hx|[Hx|[Hx|Hx]]]; contradiction.
  - destruct (Z.eq_dec (_brightness p) 0) as [H0|Hn0].
    + pose proof (calc_zero_hold tgt libc_random p w Hblink Hdir H0) as Hc.
      destruct (Z.gtb_spec (to_ulong (reading w 0 - _timeZeroBrightnessWasEncountered p))
                           (_zeroBrightnessDelayInMilliseconds p)).
      * destruct Hc as (h & f & z & fl & w'' & Hc & _).
        rewrite Hc in Heq. injection Heq as <- <-. cbn.
        split; [intros _; left; repeat split; auto; lia|]. split; auto.
      * rewrite Hc in Heq. injection Heq as <- <-. rewrite Hdir, Hblink.
        split; [intros Hx; contradiction|]. split; [|auto].
        intros [Hx|[Hx|[Hx|Hx]]]; contradiction.
    + destruct (calc_dimming tgt libc_random p w Hblink Hdir Hn0 Hf)
        as (b & _ & _ & Hc).
      rewrite Hc in Heq.
      destruct (b =? 0); injection Heq as <- <-; cbn; rewrite ?Hdir;
        (split; [intros Hx; contradiction|]); (split; [|auto]);
        intros [Hx|[Hx|[Hx|Hx]]]; contradiction.
Qed.

Lemma randomize_pattern_frozen {A} (bound : Z) (f : Z -> A) w :
  bound <> 0 -> reading w 0 <> 0 ->
  bind millis (fun systemUptime =>
    bind (randomSeed systemUptime) (fun _ =>
      bind (random libc_random bound) (fun r => ret (f r)))) w
  = Ok (f (Z.rem (Z.of_N (fst (libc_random (reading w 0)))) bound),
        {| clock := clock w; ticks := S (ticks w);
           seed := snd (libc_random (reading w 0));
           rolls := rolls w ++ [bound] |}).
Proof.
  intros Hb Hr. unfold bind, millis, randomSeed, random, ret.
  change (to_ulong (clock w (ticks w))) with (reading w 0).
  destruct (Z.eqb_spec (reading w 0) 0) as [|_]; [contradiction|].
  destruct (Z.eqb_spec bound 0) as [|_]; [contradiction|].
  cbn [seed clock ticks rolls].
  destruct (libc_random (reading w 0)) as [v s]. reflexivity.
Qed.


Lemma RandomizeColor_frozen p w :
  reading w 0 <> 0 ->
  RandomizeColor libc_random p w
  = Ok (set_hue (Z.rem (Z.of_N (fst (libc_random (reading w 0)))) 6) p, drawn libc_random 6 w).
Proof. intros H. apply (randomize_pattern_frozen 6 (fun r => set_hue r p)); [lia|exact H]. Qed.

Lemma RandomizeSpeedFactor_frozen p w :
  reading w 0 <> 0 ->
  RandomizeSpeedFactor libc_random p w
  = Ok (set_blinkSpeedFactor
          (to_uint8 (Z.rem (Z.of_N (fst (libc_random (reading w 0)))) 4)) p, drawn libc_random 4 w).
Proof.
  intros H.
  apply (randomize_pattern_frozen 4 (fun r => set_blinkSpeedFactor (to_uint8 r) p));
    [lia|exact H].
Qed.

Lemma RandomizeZeroBrightnessDelay_frozen p w :
  reading w 0 <> 0 ->
  RandomizeZeroBrightnessDelay libc_random p w
  = Ok (set_zeroDelay
          (to_uint16 (Z.rem (Z.of_N (fst (libc_random (reading w 0)))) 5000 + 500)) p,
        drawn libc_random 5000 w).
Proof.
  intros H.
  apply (randomize_pattern_frozen 5000
           (fun r => set_zeroDelay (to_uint16 (r + 500)) p)); [lia|exact H].
Qed.

Lemma RandomizeFullBrightnessDelay_frozen p w :
  reading w 0 <> 0 ->
  RandomizeFullBrightnessDelay libc_random p w
  = Ok (set_fullDelay
          (to_uint16 (Z.rem (Z.of_N (fst (libc_random (reading w 0)))) 15000 + 500)) p,
        drawn libc_random 15000 w).
Proof.
  intros H.
  apply (randomize_pattern_frozen 15000
           (fun r => set_fullDelay (to_uint16 (r + 500)) p)); [lia|exact H].
Qed.

(** X5. Draws made within one millisecond coincide. When the clock stands at
    a non-zero value during a Zero-to-Brightening transition, every draw
    reseeds the generator with that value, so hue, speed factor and both
    dwell times are the remainders of one and the same generator output; in
    particular hue and speed factor have the same parity. *)
Theorem same_millisecond_draws_coincide p w T :
  _shouldBlink p = true -> _direction p = down -> _brightness p = 0 ->
  frozen T w -> to_ulong T <> 0 ->
  to_ulong (to_ulong T - _timeZeroBrightnessWasEncountered p)
    > _zeroBrightnessDelayInMilliseconds p ->
  let v := Z.of_N (fst (libc_random (to_ulong T))) in
  exists p' w', calc p w = Ok (p', w') /\
    _hue p' = Z.rem v 6 /\
    _blinkSpeedFactor p' = Z.rem v 4 /\
    _zeroBrightnessDelayInMilliseconds p' = Z.rem v 5000 + 500 /\
    _fullBrightnessDelayInMilliseconds p' = Z.rem v 15000 + 500 /\
    _hue p' mod 2 = _blinkSpeedFactor p' mod 2.
Proof.
  intros Hblink Hdir Hb Hfr HT Hgt v.
  assert (Hv : 0 <= v) by (unfold v; lia).
  unfold _CalculateBlinkAnimationParameters. rewrite Hblink, Hdir, Hb. cbn [Z.eqb].
  rewrite (bind_Ok _ _ _ _ _ (millis_eq w)).
  rewrite (frozen_reading T w 0 Hfr).
  destruct (Z.gtb_spec (to_ulong (to_ulong T - _timeZeroBrightnessWasEncountered p))
                       (_zeroBrightnessDelayInMilliseconds p)); [|lia].
  assert (Hrd : forall w0, clock w0 = clock w -> reading w0 0 = to_ulong T).
  { intros w0 Hc. unfold reading. rewrite Hc, Hfr. reflexivity. }
  assert (Hnz : forall w0, clock w0 = clock w -> reading w0 0 <> 0).
  { intros w0 Hc. rewrite (Hrd w0 Hc). exact HT. }
  rewrite (bind_Ok _ _ _ _ _
             (RandomizeColor_frozen _ (advance 1 w) (Hnz (advance 1 w) eq_refl))).
  rewrite (bind_Ok _ _ _ _ _
             (RandomizeSpeedFactor_frozen _ (drawn libc_random 6 (advance 1 w))
                (Hnz (drawn libc_random 6 (advance 1 w)) eq_refl))).
  rewrite (bind_Ok _ _ _ _ _
             (RandomizeZeroBrightnessDelay_frozen _ (drawn libc_random 4 (drawn libc_random 6 (advance 1 w)))
                (Hnz (drawn libc_random 4 (drawn libc_random 6 (advance 1 w))) eq_refl))).
  rewrite (bind_Ok _ _ _ _ _
             (RandomizeFullBrightnessDelay_frozen _
                (drawn libc_random 5000 (drawn libc_random 4 (drawn libc_random 6 (advance 1 w))))
                (Hnz (drawn libc_random 5000 (drawn libc_random 4 (drawn libc_random 6 (advance 1 w)))) eq_refl))).
  rewrite !Hrd by reflexivity. fold v.
  unfold bind, millis, ret. eexists; eexists. split; [reflexivity|].
  cbn [_hue _blinkSpeedFactor _zeroBrightnessDelayInMilliseconds
       _fullBrightnessDelayInMilliseconds set_setTime set_fullDelay set_zeroDelay
       set_blinkSpeedFactor set_hue set_direction].
  unfold to_uint8, to_uint16.
  pose proof (Z.rem_bound_pos v 6 Hv ltac:(lia)).
  pose proof (Z.rem_bound_pos v 4 Hv ltac:(lia)).
  pose proof (Z.rem_bound_pos v 5000 Hv ltac:(lia)).
  pose proof (Z.rem_bound_pos v 15000 Hv ltac:(lia)).
  rewrite !Z.mod_small by lia.
  split; [reflexivity|]. split; [reflexivity|]. split; [reflexivity|].
  split; [reflexivity|].
  rewrite !Z.rem_mod_nonneg by lia.
  rewrite (Z.mod_mod_divide v 6 2) by (exists 3; lia).
  rewrite (Z.mod_mod_divide v 4 2) by (exists 2; lia).
  reflexivity.
Qed.
End Changes.

(** ** Rounding is monotone *)

Lemma canon_exp_le m1 e1 m2 e2 :
  2 ^ 23 <= m1 < 2 ^ 24 -> 2 ^ 23 <= m2 < 2 ^ 24 ->
  (F2R m1 e1 < F2R m2 e2)%R -> e1 <= e2.
Proof.
  intros H1 H2 Hlt. destruct (Z_le_gt_dec e1 e2) as [|Hgt]; [assumption|exfalso].
  pose proof (canon_IZR _ H1). pose proof (canon_IZR _ H2).
  pose proof (bpow_gt_0 e1). pose proof (bpow_gt_0 e2).
  pose proof (bpow_double_le e2 e1 ltac:(lia)). unfold F2R in *. nra.
Qed.

Lemma canon_unique m1 e1 m2 e2 :
  2 ^ 23 <= m1 < 2 ^ 24 -> 2 ^ 23 <= m2 < 2 ^ 24 ->
  F2R m1 e1 = F2R m2 e2 -> m1 = m2 /\ e1 = e2.
Proof.
  intros H1 H2 Heq.
  pose proof (canon_IZR _ H1). pose proof (canon_IZR _ H2).
  pose proof (bpow_gt_0 e1). pose proof (bpow_gt_0 e2).
  assert (He : e1 = e2).
  { destruct (Z.lt_trichotomy e1 e2) as [Hl|[He|Hg]]; [exfalso|assumption|exfalso].
    - pose proof (bpow_double_le _ _ Hl). unfold F2R in *. nra.
    - pose proof (bpow_double_le _ _ Hg). unfold F2R in *. nra. }
  subst e2. split; [|reflexivity]. unfold F2R in Heq. apply eq_IZR. nra.
Qed.

Lemma rounded_mono x mx ex y my ey :
  rounded x mx ex -> rounded y my ey -> (x < y)%R -> (F2R mx ex <= F2R my ey)%R.
Proof.
  intros Hx Hy Hlt.
  destruct (Rle_or_lt (F2R mx ex) (F2R my ey)) as [|Hgt]; [assumption|exfalso].
  pose proof Hx as (Hmx & Hxup & Hxlo & Hxlo'). pose proof Hy as (Hmy & Hyup & Hylo & _).
  (* x lies above the result of y, and y below the result of x *)
  assert (H1 : (F2R my ey < x)%R).
  { destruct (Rle_or_lt x (F2R my ey)) as [Hle|]; [|assumption].
    pose proof (rounded_le _ _ _ _ _ Hx Hmy Hle). lra. }
  assert (H2 : (y < F2R mx ex)%R).
  { destruct (Rle_or_lt (F2R mx ex) y) as [Hle|]; [|assumption].
    pose proof (rounded_ge _ _ _ _ _ Hy Hmx Hle). lra. }
  pose proof (canon_exp_le _ _ _ _ Hmy Hmx Hgt) as Hee.
  pose proof (bpow_le _ _ Hee) as Hbb.
  destruct (grid_pred _ _ _ _ Hmy Hmx Hgt) as [Hp1 Hp2].
  pose proof (bpow_gt_0 ex). pose proof (bpow_gt_0 ey).
  destruct (Z.eq_dec mx (2 ^ 23)) as [Heq|Hne].
  - specialize (Hxlo' Heq).
    assert (Hlt' : ey < ex).
    { destruct (Z.eq_dec ey ex) as [->|]; [|lia].
      apply F2R_lt_same_exp in Hgt. lia. }
    pose proof (bpow_double_le _ _ Hlt'). unfold F2R in *. nra.
  - specialize (Hp2 Hne). unfold F2R in *. nra.
Qed.

(** ** Monotone ramps *)

Lemma Rdiv_lt_mono a b c : (0 < c)%R -> (a < b)%R -> (a / c < b / c)%R.
Proof.
  intros Hc Hab. unfold Rdiv. apply Rmult_lt_compat_r; [|assumption].
  apply Rinv_0_lt_compat. assumption.
Qed.

Lemma uint8_of_float_mono m1 e1 m2 e2 b1 b2 :
  f32_to_uint8 (S754_finite false m1 e1) = Ok b1 ->
  f32_to_uint8 (S754_finite false m2 e2) = Ok b2 ->
  (F2R (Zpos m1) e1 <= F2R (Zpos m2) e2)%R -> b1 <= b2.
Proof.
  unfold f32_to_uint8, f32_trunc. cbn [cond_Zopp].
  intros H1 H2 Hle.
  destruct ((0 <=? Z.shiftl (Zpos m1) e1) && (Z.shiftl (Zpos m1) e1 <=? 255));
    [|discriminate].
  destruct ((0 <=? Z.shiftl (Zpos m2) e2) && (Z.shiftl (Zpos m2) e2 <=? 255));
    [|discriminate].
  injection H1 as <-. injection H2 as <-.
  pose proof (shiftl_trunc m1 e1). pose proof (shiftl_trunc m2 e2).
  apply Z.lt_succ_r. apply lt_IZR. unfold Z.succ. rewrite plus_IZR. lra.
Qed.

(** The ratio before and after [ms1 <= ms2], below the clamp. *)
Lemma elapsedTimePercent_mono ms1 ms2 speed m1 e1 m2 e2 :
  0 < ms1 -> ms1 <= ms2 -> ms2 < speed -> speed < 2 ^ 24 ->
  elapsedTimePercent ms1 speed = S754_finite false m1 e1 ->
  elapsedTimePercent ms2 speed = S754_finite false m2 e2 ->
  (F2R (Zpos m1) e1 <= F2R (Zpos m2) e2)%R.
Proof.
  intros H0 Hle Hlt Hsp E1 E2.
  destruct (Z.eq_dec ms1 ms2) as [->|Hne].
  { rewrite E1 in E2. injection E2 as -> ->. lra. }
  assert (HS : (0 < IZR speed)%R) by (apply (IZR_lt 0); lia).
  destruct (elapsedTimePercent_spec ms1 speed ltac:(lia) ltac:(lia))
    as [[? _]|[[? _]|[_ (m & e & E & Hr & _)]]]; try lia.
  rewrite E1 in E. injection E as <- <-.
  destruct (elapsedTimePercent_spec ms2 speed ltac:(lia) ltac:(lia))
    as [[? _]|[[? _]|[_ (m & e & E & Hr2 & _)]]]; try lia.
  rewrite E2 in E. injection E as <- <-.
  apply (rounded_mono _ _ _ _ _ _ Hr Hr2).
  apply Rdiv_lt_mono; [assumption|]. apply IZR_lt. lia.
Qed.

Lemma brightened_mono ms1 ms2 speed b1 b2 :
  0 <= ms1 -> ms1 <= ms2 -> ms2 < 2 ^ 32 -> 0 < speed < 2 ^ 24 ->
  f32_to_uint8 (brightened ms1 speed) = Ok b1 ->
  f32_to_uint8 (brightened ms2 speed) = Ok b2 ->
  b1 <= b2.
Proof.
  intros H0 Hle Hlt Hsp B1 B2.
  destruct (brightened_spec ms1 speed ltac:(lia) Hsp) as (c1 & C1 & R1 & _ & Z1 & _).
  destruct (brightened_spec ms2 speed ltac:(lia) Hsp) as (c2 & C2 & R2 & F2 & _ & _).
  rewrite B1 in C1. injection C1 as <-. rewrite B2 in C2. injection C2 as <-.
  destruct (Z.eq_dec ms1 0) as [Hz|Hnz]; [rewrite (Z1 Hz); lia|].
  destruct (Z_le_gt_dec speed ms2) as [Hfull|Hbelow]; [rewrite (F2 Hfull); lia|].
  unfold brightened in B1, B2.
  destruct (elapsedTimePercent_spec ms1 speed ltac:(lia) Hsp)
    as [[? _]|[[? _]|[_ (m1 & e1 & E1 & _ & Hm1 & He1 & _)]]]; try lia.
  destruct (elapsedTimePercent_spec ms2 speed ltac:(lia) Hsp)
    as [[? _]|[[? _]|[_ (m2 & e2 & E2 & _ & Hm2 & He2 & _)]]]; try lia.
  pose proof (elapsedTimePercent_mono ms1 ms2 speed m1 e1 m2 e2
                ltac:(lia) Hle ltac:(lia) ltac:(lia) E1 E2) as Hq.
  rewrite E1 in B1. rewrite E2 in B2.
  destruct (f32_mul_255_spec m1 e1 Hm1 ltac:(lia)) as (p1 & f1 & P1 & Hr1 & _).
  destruct (f32_mul_255_spec m2 e2 Hm2 ltac:(lia)) as (p2 & f2 & P2 & Hr2 & _).
  rewrite P1 in B1. rewrite P2 in B2.
  apply (uint8_of_float_mono _ _ _ _ _ _ B1 B2).
  destruct (Req_dec (F2R (Zpos m1) e1) (F2R (Zpos m2) e2)) as [Heq|Hneq].
  - destruct (canon_unique _ _ _ _ Hm1 Hm2 Heq) as [Hm He].
    injection Hm as ->. subst e2. rewrite P1 in P2. injection P2 as -> ->. lra.
  - apply (rounded_mono _ _ _ _ _ _ Hr1 Hr2). lra.
Qed.

Lemma dimmed_mono ms1 ms2 speed b1 b2 :
  0 <= ms1 -> ms1 <= ms2 -> ms2 < 2 ^ 32 -> 0 < speed < 2 ^ 24 ->
  f32_to_uint8 (dimmed ms1 speed) = Ok b1 ->
  f32_to_uint8 (dimmed ms2 speed) = Ok b2 ->
  b2 <= b1.
Proof.
  intros H0 Hle Hlt Hsp B1 B2.
  destruct (dimmed_spec ms1 speed ltac:(lia) Hsp) as (c1 & C1 & R1 & _ & Z1 & _).
  destruct (dimmed_spec ms2 speed ltac:(lia) Hsp) as (c2 & C2 & R2 & F2 & _ & _).
  rewrite B1 in C1. injection C1 as <-. rewrite B2 in C2. injection C2 as <-.
  destruct (Z.eq_dec ms1 0) as [Hz|Hnz]; [rewrite (Z1 Hz); lia|].
  destruct (Z_le_gt_dec speed ms2) as [Hfull|Hbelow]; [rewrite (F2 Hfull); lia|].
  unfold dimmed in B1, B2.
  destruct (elapsedTimePercent_spec ms1 speed ltac:(lia) Hsp)
    as [[? _]|[[? _]|[_ (m1 & e1 & E1 & _ & Hm1 & He1 & HQ1)]]]; try lia.
  destruct (elapsedTimePercent_spec ms2 speed ltac:(lia) Hsp)
    as [[? _]|[[? _]|[_ (m2 & e2 & E2 & _ & Hm2 & He2 & HQ2)]]]; try lia.
  pose proof (elapsedTimePercent_mono ms1 ms2 speed m1 e1 m2 e2
                ltac:(lia) Hle ltac:(lia) ltac:(lia) E1 E2) as Hq.
  rewrite E1 in B1. rewrite E2 in B2.
  destruct (f32_mul_255_spec m1 e1 Hm1 ltac:(lia)) as (p1 & f1 & P1 & Hr1 & Hf1).
  destruct (f32_mul_255_spec m2 e2 Hm2 ltac:(lia)) as (p2 & f2 & P2 & Hr2 & Hf2).
  rewrite P1 in B1. rewrite P2 in B2.
  assert (Hp1 : 2 ^ 23 <= Zpos p1 < 2 ^ 24) by (destruct Hr1; assumption).
  assert (Hp2 : 2 ^ 23 <= Zpos p2 < 2 ^ 24) by (destruct Hr2; assumption).
  assert (HP : (F2R (Zpos p1) f1 <= F2R (Zpos p2) f2)%R).
  { destruct (Req_dec (F2R (Zpos m1) e1) (F2R (Zpos m2) e2)) as [Heq|Hneq].
    - destruct (canon_unique _ _ _ _ Hm1 Hm2 Heq) as [Hm He].
      injection Hm as ->. subst e2. rewrite P1 in P2. injection P2 as -> ->. lra.
    - apply (rounded_mono _ _ _ _ _ _ Hr1 Hr2). lra. }
  assert (HP1 : (F2R (Zpos p1) f1 <= 255)%R).
  { rewrite <- F2R_255. apply (rounded_le _ _ _ _ _ Hr1); [lia|]. rewrite F2R_255.
    pose proof (F2R_pos (Zpos m1) e1 ltac:(lia)). nra. }
  assert (HP2 : (F2R (Zpos p2) f2 <= 255)%R).
  { rewrite <- F2R_255. apply (rounded_le _ _ _ _ _ Hr2); [lia|]. rewrite F2R_255.
    pose proof (F2R_pos (Zpos m2) e2 ltac:(lia)). nra. }
  destruct (f32_sub_255_spec p2 f2 Hp2 ltac:(lia) HP2)
    as [[_ D2]|(d2 & g2 & D2 & Hd2)]; rewrite D2 in B2.
  { cbn in B2. injection B2 as <-. lia. }
  destruct (f32_sub_255_spec p1 f1 Hp1 ltac:(lia) HP1)
    as [[HP255 D1]|(d1 & g1 & D1 & Hd1)]; rewrite D1 in B1.
  { (* the earlier value is already 0: so is the later *)
    exfalso. pose proof (rounded_pos _ _ _ Hd2). lra. }
  apply (uint8_of_float_mono _ _ _ _ _ _ B2 B1).
  destruct (Req_dec (F2R (Zpos p1) f1) (F2R (Zpos p2) f2)) as [Heq|Hneq].
  - destruct (canon_unique _ _ _ _ Hp1 Hp2 Heq) as [Hm He].
    injection Hm as ->. subst f2. rewrite D1 in D2. injection D2 as -> ->. lra.
  - apply (rounded_mono _ _ _ _ _ _ Hd2 Hd1). lra.
Qed.

Section Monotone.
Variable tgt : target.
Variable libc_random : Z -> N * Z.

Local Abbreviation calc := (_CalculateBlinkAnimationParameters tgt libc_random).

(** X6. Within one ramp the brightness moves one way only. Of two successive
    calls in the same phase, the second made no earlier after the phase
    start than the first, the second leaves a brightness that is no higher
    when dimming and no lower when brightening. *)
Theorem brightness_is_monotone_in_a_ramp p w1 w2 p1 w1' p2 w2' :
  wf p -> _shouldBlink p = true ->
  calc p w1 = Ok (p1, w1') -> calc p1 w2 = Ok (p2, w2') ->
  to_ulong (reading w1 0 - _setTime p) <= to_ulong (reading w2 0 - _setTime p) ->
  (_direction p = down -> _brightness p <> 0 -> _brightness p1 <> 0 ->
     _brightness p2 <= _brightness p1) /\
  (_direction p = up -> _brightness p <> 255 -> _brightness p1 <> 255 ->
     _brightness p1 <= _brightness p2).
Proof.
  intros Hwf Hblink E1 E2 Hle. pose proof Hwf as (_ & Hf & _).
  destruct (_CalculateBlinkSpeed_ok tgt p Hf) as [_ Hs].
  pose proof (to_ulong_range (reading w1 0 - _setTime p)).
  pose proof (to_ulong_range (reading w2 0 - _setTime p)).
  split.
  - intros Hdir Hne Hne1.
    destruct (calc_dimming tgt libc_random p w1 Hblink Hdir Hne Hf) as (b1 & B1 & Hr1 & C1).
    rewrite C1 in E1. destruct (Z.eqb_spec b1 0) as [Hz1|Hb1].
    { injection E1 as <- _. cbn in Hne1. contradiction. }
    injection E1 as <- _.
    destruct (calc_dimming tgt libc_random (set_brightness b1 p) w2 Hblink Hdir Hne1 Hf)
      as (b2 & B2 & Hr2 & C2).
    rewrite C2 in E2. cbn [_setTime set_brightness] in B2.
    change (blinkSpeedOf (set_brightness b1 p)) with (blinkSpeedOf p) in B2.
    assert (Hmono : b2 <= b1)
      by (apply (dimmed_mono (to_ulong (reading w1 0 - _setTime p))
                   (to_ulong (reading w2 0 - _setTime p)) (blinkSpeedOf p));
          [lia|exact Hle|lia|lia|exact B1|exact B2]).
    destruct (b2 =? 0); injection E2 as <- _;
      cbn [_brightness set_brightness set_timeZero]; lia.
  - intros Hdir Hne Hne1.
    destruct (calc_brightening tgt libc_random p w1 Hblink Hdir Hne Hf)
      as (b1 & B1 & Hr1 & C1).
    rewrite C1 in E1. destruct (Z.eqb_spec b1 255) as [Hz1|Hb1].
    { injection E1 as <- _. cbn in Hne1. contradiction. }
    injection E1 as <- _.
    destruct (calc_brightening tgt libc_random (set_brightness b1 p) w2 Hblink Hdir Hne1 Hf)
      as (b2 & B2 & Hr2 & C2).
    rewrite C2 in E2. cbn [_setTime set_brightness] in B2.
    change (blinkSpeedOf (set_brightness b1 p)) with (blinkSpeedOf p) in B2.
    assert (Hmono : b1 <= b2)
      by (apply (brightened_mono (to_ulong (reading w1 0 - _setTime p))
                   (to_ulong (reading w2 0 - _setTime p)) (blinkSpeedOf p));
          [lia|exact Hle|lia|lia|exact B1|exact B2]).
    destruct (b2 =? 255); injection E2 as <- _;
      cbn [_brightness set_brightness set_timeFull]; lia.
Qed.
End Monotone.

(** ** Where the colour computation overflows a 16-bit [int] *)

Lemma channel_AVR b w :
  0 <= b -> 0 <= w ->
  channel AVR b w = if b * w <=? 32767 then Ok (b * w / 255) else UB SignedOverflow.
Proof.
  intros Hb Hw. destruct (Z.leb_spec (b * w) 32767) as [Hle|Hgt].
  - apply channel_ok; cbn; lia.
  - unfold channel, int_mul, in_int. cbn [INT_MAX INT_MIN].
    replace (b * w <=? 32767) with false by (symmetry; apply Z.leb_gt; lia).
    rewrite andb_false_r. reflexivity.
Qed.

(** X7. On AVR the colour of a pixel is defined exactly up to the brightness
    at which its largest channel product still fits 16 bits: 128 for the
    five hues with a weight of 255, 163 for purple (weight 200). *)
Theorem AVR_colour_is_defined_up_to h b :
  0 <= h <= 5 -> 0 <= b <= 255 ->
  ((exists c, hueColor AVR h b = Ok c) <-> b <= (if h =? purple then 163 else 128)) /\
  (b > (if h =? purple then 163 else 128) -> hueColor AVR h b = UB SignedOverflow).
Proof.
  intros Hh Hb.
  assert (H255 : channel AVR b 255 = if b <=? 128 then Ok (b * 255 / 255)
                                      else UB SignedOverflow).
  { rewrite channel_AVR by lia. destruct (Z.leb_spec (b * 255) 32767);
      destruct (Z.leb_spec b 128); try reflexivity; lia. }
  assert (H200 : channel AVR b 200 = if b <=? 163 then Ok (b * 200 / 255)
                                      else UB SignedOverflow).
  { rewrite channel_AVR by lia. destruct (Z.leb_spec (b * 200) 32767);
      destruct (Z.leb_spec b 163); try reflexivity; lia. }
  assert (H100 : channel AVR b 100 = Ok (b * 100 / 255)).
  { rewrite channel_AVR by lia. destruct (Z.leb_spec (b * 100) 32767); [reflexivity|lia]. }
  assert (H30 : channel AVR b 30 = Ok (b * 30 / 255)).
  { rewrite channel_AVR by lia. destruct (Z.leb_spec (b * 30) 32767); [reflexivity|lia]. }
  destruct (valid_hue_cases h Hh) as [->|[->|[->|[->|[->| ->]]]]];
    unfold hueColor, red, green, blue, yellow, purple, orange; cbn [Z.eqb Pos.eqb];
    rewrite ?H255, ?H200, ?H100, ?H30;
    match goal with |- context [b <=? ?n] => destruct (Z.leb_spec b n) end;
    cbn [rbind];
    (split;
     [split; [intros [c Hc]; first [discriminate|lia]
             |intros Hle; first [lia|eexists; reflexivity]]
     |intros Hgt; first [lia|reflexivity]]).
Qed.

Section Boot.
Variable libc_random : Z -> N * Z.

Lemma construct_pixels_spec n : forall w,
  exists ps w', construct_pixels n w = Ok (ps, w') /\
    length ps = n /\ Forall constructed ps /\
    rolls w' = rolls w /\ seed w' = seed w.
Proof.
  induction n as [|n IH]; intros w; cbn [construct_pixels].
  - exists [], w. repeat split; constructor.
  - rewrite (bind_Ok _ _ _ _ _ (ChristmasPixel_ctor_run static_storage w)).
    destruct (IH (advance 1 w)) as (ps & w' & Heq & Hlen & Hall & Hr & Hs).
    rewrite (bind_Ok _ _ _ _ _ Heq). unfold ret.
    eexists; eexists. split; [reflexivity|]. cbn [length]. split; [lia|].
    split; [|split; assumption].
    constructor; [|assumption].
    pose proof (reading_range w 0).
    unfold constructed, wf. cbn. unfold red. repeat split; lia.
Qed.

Lemma setup_pixels_spec ps : forall i w,
  0 <= i -> i + Z.of_nat (length ps) <= 256 ->
  exists qs w', setup_pixels libc_random i ps w = Ok (qs, w') /\
    all_set_up i ps qs /\
    length (rolls w') = (length (rolls w) + 5 * length ps)%nat.
Proof.
  induction ps as [|p ps IH]; intros i w Hi Hlen; cbn [setup_pixels].
  - exists [], w. split; [reflexivity|]. split; [exact I|]. cbn. lia.
  - cbn [length] in Hlen.
    set (p0 := set_Id (to_uint8 i) p).
    destruct (RandomizeColor_run libc_random p0 w) as (h & w1 & H1 & Hh & _ & _ & R1).
    destruct (RandomizeSpeedFactor_run libc_random (set_hue h p0) w1)
      as (f & w2 & H2 & Hf & _ & _ & R2).
    destruct (RandomizeBlinkability_run libc_random (set_blinkSpeedFactor f (set_hue h p0)) w2)
      as (w3 & H3 & _ & _ & R3).
    destruct (RandomizeZeroBrightnessDelay_run libc_random
                (set_shouldBlink true (set_blinkSpeedFactor f (set_hue h p0))) w3)
      as (z & w4 & H4 & Hz & _ & _ & R4).
    destruct (RandomizeFullBrightnessDelay_run libc_random
                (set_zeroDelay z (set_shouldBlink true
                   (set_blinkSpeedFactor f (set_hue h p0)))) w4)
      as (fl & w5 & H5 & Hfl & _ & _ & R5).
    destruct (IH (i + 1) w5 ltac:(lia) ltac:(lia)) as (qs & w' & Hq & Hall & Hr).
    rewrite (bind_Ok _ _ _ _ _ H1), (bind_Ok _ _ _ _ _ H2), (bind_Ok _ _ _ _ _ H3),
            (bind_Ok _ _ _ _ _ H4), (bind_Ok _ _ _ _ _ H5).
    unfold delay at 1. unfold bind at 1. unfold ret at 1.
    rewrite (bind_Ok _ _ _ _ _ Hq). unfold ret.
    eexists; eexists. split; [reflexivity|]. split.
    + cbn [all_set_up]. split; [|assumption].
      unfold set_up, valid_hue, p0. cbn. unfold to_uint8.
      rewrite Z.mod_small by (change (2 ^ 8) with 256; lia).
      repeat split; lia.
    + rewrite Hr, R5, R4, R3, R2, R1. rewrite !length_app. cbn [length]. lia.
Qed.

(** Static initialisation followed by [setup]. *)
Lemma boot_spec w :
  exists g w',
    (g <- static_init ;; setup libc_random g) w = Ok (g, w') /\
    length (pixels g) = Z.to_nat PIXEL_COUNT /\
    (forall k q, nth_error (pixels g) k = Some q ->
       Id q = Z.of_nat k /\ _shouldBlink q = true /\ _direction q = down /\
       _brightness q = 255 /\ valid_hue q /\ wf q /\
       0 <= _blinkSpeedFactor q <= 3 /\
       500 <= _zeroBrightnessDelayInMilliseconds q <= 5499 /\
       500 <= _fullBrightnessDelayInMilliseconds q <= 15499) /\
    lit (strip g) = repeat 0 (Z.to_nat PIXEL_COUNT) /\
    buffer (strip g) = repeat 0 (Z.to_nat PIXEL_COUNT) /\
    loopCount g = 0 /\
    length (rolls w') = (length (rolls w) + 5 * Z.to_nat PIXEL_COUNT)%nat.
Proof.
  unfold static_init.
  destruct (construct_pixels_spec (Z.to_nat PIXEL_COUNT) w)
    as (ps & w1 & Hc & Hlen & Hall & Hr1 & _).
  destruct (setup_pixels_spec ps 0 w1 ltac:(lia)
              ltac:(rewrite Hlen; unfold PIXEL_COUNT; lia))
    as (qs & w2 & Hs & Hset & Hr2).
  unfold bind at 1. unfold bind at 1. rewrite Hc. unfold ret at 1.
  unfold setup. cbn [pixels strip loopCount]. rewrite (bind_Ok _ _ _ _ _ Hs).
  unfold ret, strip_show, strip_begin. cbn [buffer lit].
  eexists; eexists. split; [reflexivity|]. cbn [pixels strip loopCount buffer lit].
  assert (Hgen : forall ps qs i,
            all_set_up i ps qs -> Forall constructed ps ->
            length qs = length ps /\
            forall k q, nth_error qs k = Some q ->
              Id q = i + Z.of_nat k /\ _shouldBlink q = true /\ _direction q = down /\
              _brightness q = 255 /\ valid_hue q /\ wf q /\
              0 <= _blinkSpeedFactor q <= 3 /\
              500 <= _zeroBrightnessDelayInMilliseconds q <= 5499 /\
              500 <= _fullBrightnessDelayInMilliseconds q <= 15499).
  { clear. induction ps as [|p ps IH]; intros [|q qs] i Hset Hall; cbn in Hset;
      try contradiction.
    - split; [reflexivity|]. intros [|k] q H; discriminate.
    - destruct Hset as [Hq Hrest]. inversion Hall as [|? ? Hp Hps]; subst.
      destruct (IH qs (i + 1) Hrest Hps) as [Hl Hn]. split; [cbn; lia|].
      intros [|k] q' Hnth; cbn in Hnth.
      + injection Hnth as <-.
        destruct Hq as (HId & Hb & Hv & Hf & Hz & Hfl & Hd & Hbr & Hst & Htz & Htf).
        destruct Hp as (Hpd & Hpb & _ & _ & Hwf).
        rewrite Hd, Hbr, Hpd, Hpb.
        split; [cbn; lia|]. repeat (split; [assumption || reflexivity|]).
        split; [|auto].
        destruct Hwf as (_ & _ & _ & _ & W5 & W6 & W7).
        unfold wf. rewrite Hbr, Hpb, Hst, Htz, Htf. repeat split; lia.
      + destruct (Hn k q' Hnth) as (HId & Hrest'). split; [lia|exact Hrest']. }
  destruct (Hgen ps qs 0 Hset Hall) as [Hl Hn].
  split; [lia|]. split.
  { intros k q Hk. destruct (Hn k q Hk) as (HId & Hrest). split; [lia|exact Hrest]. }
  split; [reflexivity|]. split; [reflexivity|]. split; [reflexivity|].
  rewrite Hr2, Hr1, Hlen. reflexivity.
Qed.
(** X8. The state in which [loop] first runs. Static initialisation followed
    by [setup] always completes and leaves PIXEL_COUNT pixels, each one a
    blinker in phase Dimming at brightness 255 with a valid hue, a speed
    factor of 0..3, dwell times of 500..5499 and 500..15499 ms and its index
    as Id; the strip has been shown dark and [loopCount] is 0. *)
Theorem sketch_boots w :
  exists g w',
    (g <- static_init ;; setup libc_random g) w = Ok (g, w') /\
    length (pixels g) = Z.to_nat PIXEL_COUNT /\
    (forall k q, nth_error (pixels g) k = Some q ->
       Id q = Z.of_nat k /\ _shouldBlink q = true /\ _direction q = down /\
       _brightness q = 255 /\ valid_hue q /\ wf q /\
       0 <= _blinkSpeedFactor q <= 3 /\
       500 <= _zeroBrightnessDelayInMilliseconds q <= 5499 /\
       500 <= _fullBrightnessDelayInMilliseconds q <= 15499) /\
    lit (strip g) = repeat 0 (Z.to_nat PIXEL_COUNT) /\
    buffer (strip g) = repeat 0 (Z.to_nat PIXEL_COUNT) /\
    loopCount g = 0 /\
    length (rolls w') = (length (rolls w) + 5 * Z.to_nat PIXEL_COUNT)%nat.
Proof. exact (boot_spec w). Qed.
End Boot.

Lemma set_nth_length n c l : length (set_nth n c l) = length l.
Proof.
  revert n. induction l as [|x l IH]; intros [|n]; cbn; auto.
Qed.

Lemma set_nth_app n c l1 x l2 :
  length l1 = n -> set_nth n c (l1 ++ x :: l2) = l1 ++ c :: l2.
Proof.
  revert n. induction l1 as [|y l1 IH]; intros n Hn; cbn in *; subst n.
  - reflexivity.
  - cbn. f_equal. apply IH. reflexivity.
Qed.

Section Frames.
Variable libc_random : Z -> N * Z.

Lemma GetColor_on_32_bits p w :
  good_pixel p ->
  exists p' w', GetColor ARM32 libc_random p w = Ok ((colour_of ARM32 p', p'), w') /\
    good_pixel p' /\
    _CalculateBlinkAnimationParameters ARM32 libc_random p w = Ok (p', w').
Proof.
  intros [Hwf Hv].
  destruct (calc_total ARM32 libc_random p w Hwf) as (p' & w' & Heq & Hwf' & Hv').
  exists p', w'. rewrite GetColor_eq, Heq. unfold colour_of.
  pose proof Hwf' as (Hb & _). specialize (Hv' Hv).
  rewrite (hueColor_table ARM32 (_hue p') (_brightness p')) by (cbn; unfold valid_hue in *; lia).
  destruct (hue_weights (_hue p')) as [[wr wg] wb].
  split; [reflexivity|]. split; [split; assumption|reflexivity].
Qed.

Lemma frame_spec ps : forall (k : nat) s w done rest,
  Forall good_pixel ps ->
  buffer s = done ++ rest -> length done = k -> (length ps <= length rest)%nat ->
  exists qs s' w',
    frame ARM32 libc_random (Z.of_nat k) ps s w = Ok ((qs, s'), w') /\
    Forall good_pixel qs /\ length qs = length ps /\
    buffer s' = done ++ map (colour_of ARM32) qs ++ skipn (length ps) rest /\
    lit s' = lit s.
Proof.
  induction ps as [|p ps IH]; intros k s w done rest Hall Hbuf Hk Hlen;
    cbn [frame].
  - exists [], s, w. split; [reflexivity|]. split; [constructor|].
    split; [reflexivity|]. split; [|reflexivity]. cbn. exact Hbuf.
  - inversion Hall as [|? ? Hp Hps]; subst.
    destruct rest as [|x rest]; [cbn in Hlen; lia|].
    destruct (GetColor_on_32_bits p w Hp) as (p' & w1 & HG & Hp' & _).
    rewrite (bind_Ok _ _ _ _ _ HG). cbn [fst snd].
    set (s1 := setPixelColor (Z.of_nat (length done)) (colour_of ARM32 p') s).
    assert (Hs1 : buffer s1 = (done ++ [colour_of ARM32 p']) ++ rest /\ lit s1 = lit s).
    { unfold s1, setPixelColor. rewrite Hbuf, length_app. cbn [length].
      replace ((0 <=? Z.of_nat (length done)) &&
               (Z.of_nat (length done) <? Z.of_nat (length done + S (length rest))))
        with true
        by (symmetry; apply andb_true_iff; split; [apply Z.leb_le|apply Z.ltb_lt]; lia).
      cbn [buffer lit]. rewrite Nat2Z.id, set_nth_app by reflexivity.
      rewrite <- app_assoc. split; reflexivity. }
    destruct Hs1 as [Hb1 Hl1].
    replace (Z.of_nat (length done) + 1) with (Z.of_nat (S (length done))) by lia.
    destruct (IH (S (length done)) s1 w1 (done ++ [colour_of ARM32 p']) rest Hps Hb1
                ltac:(rewrite length_app; cbn; lia) ltac:(cbn in Hlen; lia))
      as (qs & s' & w' & HF & Hq & Hql & Hbuf' & Hlit').
    rewrite (bind_Ok _ _ _ _ _ HF). unfold ret. cbn [fst snd].
    eexists; eexists; eexists. split; [reflexivity|].
    split; [constructor; assumption|]. split; [cbn; lia|].
    split; [|congruence].
    rewrite Hbuf', <- app_assoc. reflexivity.
Qed.

(** One iteration of [loop] on a 32-bit target. *)
Lemma loop_spec g w :
  sketch_invariant g ->
  exists g' w', loop ARM32 libc_random g w = Ok (g', w') /\
    sketch_invariant g' /\
    length (pixels g') = length (pixels g) /\
    lit (strip g') = map (colour_of ARM32) (pixels g') /\
    buffer (strip g') = lit (strip g') /\
    loopCount g' = (loopCount g + 1) mod 256.
Proof.
  intros (Hall & Hlen & Hc).
  destruct (frame_spec (pixels g) 0 (strip g) w [] (buffer (strip g)) Hall eq_refl eq_refl
              ltac:(lia)) as (qs & s' & w' & HF & Hq & Hql & Hbuf & _).
  unfold loop. change 0 with (Z.of_nat 0) at 1. rewrite (bind_Ok _ _ _ _ _ HF).
  cbn [fst snd]. rewrite <- Hlen, skipn_all, app_nil_r in Hbuf. cbn [app] in Hbuf.
  unfold MAIN_LOOP_DELAY_COUNT.
  destruct (Z.ltb_spec (loopCount g) 255) as [Hlt|Hge].
  - unfold ret. eexists; eexists. split; [reflexivity|].
    cbn [pixels strip loopCount strip_show buffer lit].
    unfold sketch_invariant. cbn [pixels strip loopCount strip_show buffer lit].
    unfold to_uint8. change (2 ^ 8) with 256. rewrite Z.mod_small by lia.
    rewrite Hbuf, length_map. repeat split; auto; lia.
  - unfold delay, bind, ret. eexists; eexists. split; [reflexivity|].
    cbn [pixels strip loopCount strip_show buffer lit].
    unfold sketch_invariant. cbn [pixels strip loopCount strip_show buffer lit].
    assert (loopCount g = 255) by lia.
    rewrite Hbuf, length_map. repeat split; auto; try lia.
    replace (loopCount g) with 255 by lia. reflexivity.
Qed.

(** Any number of iterations of [loop] on a 32-bit target. *)
Lemma loops_spec n : forall g w,
  sketch_invariant g ->
  exists g' w', loops ARM32 libc_random n g w = Ok (g', w') /\
    sketch_invariant g' /\
    length (pixels g') = length (pixels g) /\
    (0 < n -> lit (strip g') = map (colour_of ARM32) (pixels g'))%nat /\
    loopCount g' = (loopCount g + Z.of_nat n) mod 256.
Proof.
  induction n as [|n IH]; intros g w Hinv; cbn [loops].
  - exists g, w. split; [reflexivity|]. split; [assumption|]. split; [reflexivity|].
    split; [lia|]. destruct Hinv as (_ & _ & Hc).
    rewrite Z.add_0_r, Z.mod_small by lia. reflexivity.
  - destruct (loop_spec g w Hinv) as (g1 & w1 & HL & Hinv1 & Hlen1 & Hlit1 & _ & Hc1).
    rewrite (bind_Ok _ _ _ _ _ HL).
    destruct (IH g1 w1 Hinv1) as (g' & w' & HLs & Hinv' & Hlen' & Hlit' & Hc').
    exists g', w'. split; [exact HLs|]. split; [assumption|]. split; [lia|].
    split.
    + intros _. destruct n as [|n'].
      * cbn [loops] in HLs. injection HLs as <- _. assumption.
      * apply Hlit'. lia.
    + rewrite Hc', Hc1. rewrite Zplus_mod_idemp_l. f_equal. lia.
Qed.
(** X9. On a 32-bit target the frame loop never runs into undefined
    behaviour. From any state whose pixels are within their types with valid
    hues, any number of [loop] iterations completes; afterwards the same
    holds again, the LEDs show the colour of every pixel in order, and
    [loopCount] has advanced modulo 256. *)
Theorem frames_never_fail n : forall g w,
  sketch_invariant g ->
  exists g' w', loops ARM32 libc_random n g w = Ok (g', w') /\
    sketch_invariant g' /\
    length (pixels g') = length (pixels g) /\
    (0 < n -> lit (strip g') = map (colour_of ARM32) (pixels g'))%nat /\
    loopCount g' = (loopCount g + Z.of_nat n) mod 256.
Proof. exact (loops_spec n). Qed.
End Frames.

Section Cycle.
Variable tgt : target.
Variable libc_random : Z -> N * Z.

Local Abbreviation calc := (_CalculateBlinkAnimationParameters tgt libc_random).

(** X11. The four stages of a blink follow one another. A dark pixel whose
    zero dwell is over turns to Brightening with fresh parameters; a call at
    least one ramp length later brings it to 255 and stamps the time; once
    the full dwell is over it turns to Dimming, still at 255; and a call at
    least one ramp length after that brings it back to 0 and stamps the time,
    with the hue, speed factor and dwell times drawn at the first step. *)
Theorem blink_cycle p w1 :
  _shouldBlink p = true -> _direction p = down -> _brightness p = 0 ->
  to_ulong (reading w1 0 - _timeZeroBrightnessWasEncountered p)
    > _zeroBrightnessDelayInMilliseconds p ->
  exists p1 w1', calc p w1 = Ok (p1, w1') /\
    _direction p1 = up /\ _brightness p1 = 0 /\ _setTime p1 = reading w1 5 /\
    forall w2, blinkSpeedOf p1 <= to_ulong (reading w2 0 - _setTime p1) ->
    exists p2 w2', calc p1 w2 = Ok (p2, w2') /\
      _direction p2 = up /\ _brightness p2 = 255 /\
      _timeFullBrightnessWasEncountered p2 = reading w2 1 /\
      forall w3, to_ulong (reading w3 0 - reading w2 1)
                   > _fullBrightnessDelayInMilliseconds p1 ->
      exists p3 w3', calc p2 w3 = Ok (p3, w3') /\
        _direction p3 = down /\ _brightness p3 = 255 /\ _setTime p3 = reading w3 1 /\
        forall w4, blinkSpeedOf p1 <= to_ulong (reading w4 0 - reading w3 1) ->
        exists p4 w4', calc p3 w4 = Ok (p4, w4') /\
          _direction p4 = down /\ _brightness p4 = 0 /\
          _timeZeroBrightnessWasEncountered p4 = reading w4 1 /\
          _hue p4 = _hue p1 /\ _blinkSpeedFactor p4 = _blinkSpeedFactor p1 /\
          _zeroBrightnessDelayInMilliseconds p4 = _zeroBrightnessDelayInMilliseconds p1 /\
          _fullBrightnessDelayInMilliseconds p4 = _fullBrightnessDelayInMilliseconds p1.
Proof.
  intros Hblink Hdir Hb Hgt.
  pose proof (calc_zero_hold tgt libc_random p w1 Hblink Hdir Hb) as Hc.
  destruct (Z.gtb_spec (to_ulong (reading w1 0 - _timeZeroBrightnessWasEncountered p))
                       (_zeroBrightnessDelayInMilliseconds p)); [|lia].
  destruct Hc as (h & f & z & fl & w1' & Heq & Hh & Hf & Hz & Hfl & _).
  set (p1 := set_setTime (reading w1 5)
               (set_fullDelay fl (set_zeroDelay z (set_blinkSpeedFactor f
                  (set_hue h (set_direction up p)))))) in *.
  exists p1, w1'. split; [exact Heq|]. split; [reflexivity|].
  split; [exact Hb|]. split; [reflexivity|].
  assert (Hf1 : 0 <= _blinkSpeedFactor p1 <= 255) by (unfold p1; cbn; lia).
  destruct (_CalculateBlinkSpeed_ok tgt p1 Hf1) as [_ Hs1].
  (* brightening to 255 *)
  intros w2 He2.
  destruct (calc_brightening tgt libc_random p1 w2 Hblink eq_refl
              ltac:(unfold p1; cbn; lia) Hf1) as (b2 & B2 & _ & C2).
  destruct (brightened_spec (to_ulong (reading w2 0 - _setTime p1)) (blinkSpeedOf p1)
              (to_ulong_range _) ltac:(lia)) as (b2' & B2' & _ & Hfull & _).
  rewrite B2 in B2'. injection B2' as <-. rewrite (Hfull He2) in C2. cbn [Z.eqb Pos.eqb] in C2.
  set (p2 := set_timeFull (reading w2 1) (set_brightness 255 p1)) in *.
  exists p2, (advance 2 w2). split; [exact C2|]. split; [reflexivity|].
  split; [reflexivity|]. split; [reflexivity|].
  (* the full dwell *)
  intros w3 He3.
  pose proof (calc_full_hold tgt libc_random p2 w3 Hblink eq_refl eq_refl) as C3.
  change (_timeFullBrightnessWasEncountered p2) with (reading w2 1) in C3.
  change (_fullBrightnessDelayInMilliseconds p2)
    with (_fullBrightnessDelayInMilliseconds p1) in C3.
  destruct (Z.gtb_spec (to_ulong (reading w3 0 - reading w2 1))
                       (_fullBrightnessDelayInMilliseconds p1)); [|lia].
  set (p3 := set_setTime (reading w3 1) (set_brightness 255 (set_direction down p2))) in *.
  exists p3, (advance 2 w3). split; [exact C3|]. split; [reflexivity|].
  split; [reflexivity|]. split; [reflexivity|].
  (* dimming to 0 *)
  intros w4 He4.
  destruct (calc_dimming tgt libc_random p3 w4 Hblink eq_refl
              ltac:(unfold p3; cbn; lia) Hf1) as (b4 & B4 & _ & C4).
  change (_setTime p3) with (reading w3 1) in B4.
  change (blinkSpeedOf p3) with (blinkSpeedOf p1) in B4.
  destruct (dimmed_spec (to_ulong (reading w4 0 - reading w3 1)) (blinkSpeedOf p1)
              (to_ulong_range _) ltac:(lia)) as (b4' & B4' & _ & Hzero & _).
  rewrite B4 in B4'. injection B4' as <-. rewrite (Hzero He4) in C4. cbn [Z.eqb] in C4.
  eexists; eexists. split; [exact C4|]. cbn. repeat split; reflexivity.
Qed.
End Cycle.

Lemma bind_assoc {A B C} (m : M A) (f : A -> M B) (k : B -> M C) w :
  bind (bind m f) k w = bind m (fun x => bind (f x) k) w.
Proof.
  unfold bind. destruct (m w) as [[a w']|u]; reflexivity.
Qed.

(** X10. The whole sketch on a 32-bit target. Static initialisation, [setup]
    and any number of [loop] iterations run to completion without undefined
    behaviour, with the PIXEL_COUNT pixels within their types and with valid
    hues, and [loopCount] equal to the number of frames modulo 256. *)
Theorem sketch_runs_on_32_bits libc_random (n : nat) w :
  exists g w',
    (g <- static_init ;; g <- setup libc_random g ;; loops ARM32 libc_random n g) w
      = Ok (g, w') /\
    sketch_invariant g /\
    length (pixels g) = Z.to_nat PIXEL_COUNT /\
    loopCount g = Z.of_nat n mod 256.
Proof.
  destruct (boot_spec libc_random w)
    as (g0 & w0 & Hboot & Hlen & Hpix & _ & Hbuf & Hcount & _).
  assert (Hinv : sketch_invariant g0).
  { split; [|split].
    - apply Forall_forall. intros q Hin.
      apply In_nth_error in Hin. destruct Hin as [k Hk].
      destruct (Hpix k q Hk) as (_ & _ & _ & _ & Hv & Hwf & _). split; assumption.
    - rewrite Hbuf, repeat_length, Hlen. reflexivity.
    - rewrite Hcount. lia. }
  destruct (loops_spec libc_random n g0 w0 Hinv) as (g & w' & Hrun & Hinv' & Hlen' & _ & Hc).
  exists g, w'. split.
  - rewrite <- bind_assoc. rewrite (bind_Ok _ _ _ _ _ Hboot). exact Hrun.
  - split; [assumption|]. split; [lia|]. rewrite Hc, Hcount. reflexivity.
Qed.

(** ** Instances *)

Lemma changes_only_at_extremes_witness :
  exists p' w',
    _CalculateBlinkAnimationParameters AVR park_miller
      (blinker red down 0 0 0 1000) (world_at 1001) = Ok (p', w') /\
    _shouldBlink p' = true /\ Id p' = 0.
Proof.
  assert (Hwf : wf (blinker red down 0 0 0 1000)) by (apply wf_blinker; lia).
  destruct (_CalculateBlinkAnimationParameters AVR park_miller
              (blinker red down 0 0 0 1000) (world_at 1001)) as [[p' w']|u] eqn:E.
  - exists p', w'. split; [reflexivity|].
    apply (changes_only_at_extremes AVR park_miller _ _ _ _ Hwf E).
  - vm_compute in E. discriminate.
Defined.

Lemma same_millisecond_draws_coincide_witness :
  exists p' w',
    _CalculateBlinkAnimationParameters AVR park_miller
      (blinker red down 0 0 0 1000) (world_at 1001) = Ok (p', w') /\
    _hue p' mod 2 = _blinkSpeedFactor p' mod 2.
Proof.
  destruct (same_millisecond_draws_coincide AVR park_miller
              (blinker red down 0 0 0 1000) (world_at 1001) 1001
              eq_refl eq_refl eq_refl (frozen_world_at 1001))
    as (p' & w' & E & _ & _ & _ & _ & Hpar).
  - vm_compute. discriminate.
  - vm_compute. reflexivity.
  - exists p', w'. split; assumption.
Defined.

Lemma brightness_is_monotone_in_a_ramp_witness :
  exists p1 w1' p2 w2',
    _CalculateBlinkAnimationParameters AVR park_miller
      (blinker red down 255 10 5000 0) (world_at 5100) = Ok (p1, w1') /\
    _CalculateBlinkAnimationParameters AVR park_miller p1 (world_at 5535) = Ok (p2, w2') /\
    _brightness p2 <= _brightness p1.
Proof.
  assert (Hwf : wf (blinker red down 255 10 5000 0)) by (apply wf_blinker; lia).
  destruct (_CalculateBlinkAnimationParameters AVR park_miller
              (blinker red down 255 10 5000 0) (world_at 5100)) as [[p1 w1']|u] eqn:E1;
    [|vm_compute in E1; discriminate].
  assert (Hb1 : _brightness p1 <> 0).
  { vm_compute in E1. injection E1 as <- _. discriminate. }
  destruct (_CalculateBlinkAnimationParameters AVR park_miller p1 (world_at 5535))
    as [[p2 w2']|u] eqn:E2.
  - exists p1, w1', p2, w2'. split; [reflexivity|]. split; [exact E2|].
    apply (brightness_is_monotone_in_a_ramp AVR park_miller _ _ _ _ _ _ _ Hwf eq_refl E1 E2).
    + vm_compute. discriminate.
    + reflexivity.
    + discriminate.
    + exact Hb1.
  - exfalso. vm_compute in E1. injection E1 as <- _. vm_compute in E2. discriminate.
Defined.

Lemma AVR_colour_is_defined_up_to_witness :
  exists c, hueColor AVR purple 163 = Ok c.
Proof.
  apply (AVR_colour_is_defined_up_to purple 163); unfold purple; cbn; lia.
Defined.

Lemma sketch_invariant_two_pixels : sketch_invariant two_pixels.
Proof.
  split; [|split; [reflexivity|cbn; lia]].
  repeat constructor; try (apply wf_blinker; lia);
    unfold valid_hue, red, green; cbn; lia.
Qed.

Lemma frames_never_fail_witness :
  exists g' w',
    loops ARM32 park_miller 2 two_pixels (world_at 10) = Ok (g', w') /\
    loopCount g' = 1.
Proof.
  destruct (frames_never_fail park_miller 2 two_pixels (world_at 10)
              sketch_invariant_two_pixels) as (g' & w' & E & _ & _ & _ & Hc).
  exists g', w'. split; [exact E|]. rewrite Hc. reflexivity.
Defined.

Lemma blink_cycle_witness :
  exists p1 w1',
    _CalculateBlinkAnimationParameters AVR park_miller
      (blinker red down 0 0 0 1000) (world_at 1001) = Ok (p1, w1') /\
    _direction p1 = up /\ _brightness p1 = 0.
Proof.
  destruct (blink_cycle AVR park_miller (blinker red down 0 0 0 1000) (world_at 1001)
              eq_refl eq_refl eq_refl) as (p1 & w1' & E & Hd & Hb & _).
  - vm_compute. reflexivity.
  - exists p1, w1'. repeat split; assumption.
Defined.

